(** * shopify-insights-fetcher: a shallow embedding of the acquisition pipeline

    The development follows the Python sources module by module:
    [Py] holds the handful of built-in string operations the code relies on,
    [Config] the constants of [config/config.py], [Helpers] the functions of
    [app/utils/helpers.py], [Scraper] the methods of
    [ShopifyScraperService], [CompetitorAnalyzer] and [BrandAnalyzer] the two
    orchestrating services together with the part of the SQLAlchemy session
    they drive.  Exceptions are values of an error monad, the network and the
    database are explicit pieces of state. *)

From Stdlib Require Import String Ascii List ZArith QArith Lia Bool Arith.
From Stdlib Require Import Permutation Sorted DecimalString.
Import ListNotations.

Set Implicit Arguments.
Local Open Scope string_scope.
Local Open Scope Z_scope.

(** ** Python built-ins *)

Module Py.

(** [len(s)] *)
Definition len (s : string) : Z := Z.of_nat (String.length s).

(** The first [n] characters of [s] (all of it when [s] is shorter). *)
Fixpoint take (n : nat) (s : string) : string :=
  match n, s with
  | S n', String c s' => String c (take n' s')
  | _, _ => EmptyString
  end.

Fixpoint drop (n : nat) (s : string) : string :=
  match n, s with
  | S n', String _ s' => drop n' s'
  | _, _ => s
  end.

(** [s[:n]], with Python's reading of a negative bound as counted from
    the end of the string. *)
Definition slice_to (s : string) (n : Z) : string :=
  if 0 <=? n then take (Z.to_nat n) s
  else take (Z.to_nat (len s + n)) s.

(** [s[n:]] for a non-negative [n]. *)
Definition slice_from (s : string) (n : nat) : string := drop n s.

(** [s.rfind(c)] for a one-character needle: the highest index holding
    [c], or [-1].  [i] is the index of the first character of [s]. *)
Fixpoint rfind_from (c : ascii) (s : string) (i : Z) : Z :=
  match s with
  | EmptyString => -1
  | String a s' =>
      let r := rfind_from c s' (i + 1) in
      if 0 <=? r then r else if Ascii.eqb a c then i else -1
  end.

Definition rfind (s : string) (c : ascii) : Z := rfind_from c s 0.

(** [s[i]] as an option, [i] counted from 0. *)
Fixpoint char_at (s : string) (i : nat) : option ascii :=
  match s, i with
  | EmptyString, _ => None
  | String a _, O => Some a
  | String _ s', S i' => char_at s' i'
  end.

(** Truthiness of a string: [not s] holds exactly for the empty one. *)
Definition truthy (s : string) : bool :=
  match s with EmptyString => false | _ => true end.

(** Character classes.  Text is taken to be ASCII: a character is one
    [ascii] and the classes are those of Python on that range. *)
Definition code (c : ascii) : nat := nat_of_ascii c.

Definition between (lo hi : nat) (c : ascii) : bool :=
  (lo <=? code c)%nat && (code c <=? hi)%nat.

Definition is_upper (c : ascii) : bool := between 65 90 c.
Definition is_lower (c : ascii) : bool := between 97 122 c.
Definition is_alpha (c : ascii) : bool := is_upper c || is_lower c.
Definition is_digit (c : ascii) : bool := between 48 57 c.

(** [\w] of the [re] module. *)
Definition is_word (c : ascii) : bool :=
  is_alpha c || is_digit c || Ascii.eqb c "_"%char.

(** [str.isspace] and [\s]: blank, tab to carriage return, and the four
    separators 28 to 31. *)
Definition is_space (c : ascii) : bool :=
  Ascii.eqb c " "%char || between 9 13 c || between 28 31 c.

Definition lower_char (c : ascii) : ascii :=
  if is_upper c then ascii_of_nat (code c + 32) else c.
Definition upper_char (c : ascii) : ascii :=
  if is_lower c then ascii_of_nat (code c - 32) else c.

Fixpoint map_chars (f : ascii -> ascii) (s : string) : string :=
  match s with
  | EmptyString => EmptyString
  | String c s' => String (f c) (map_chars f s')
  end.

(** [s.lower()] *)
Definition lower (s : string) : string := map_chars lower_char s.

(** [s.title()]: a letter that follows a letter is lower-cased, any other
    letter is upper-cased. *)
Fixpoint title_from (after_letter : bool) (s : string) : string :=
  match s with
  | EmptyString => EmptyString
  | String c s' =>
      if is_alpha c
      then String (if after_letter then lower_char c else upper_char c)
                  (title_from true s')
      else String c (title_from false s')
  end.
Definition title (s : string) : string := title_from false s.

(** [s.startswith(p)] *)
Definition startswith (s p : string) : bool := String.prefix p s.

(** [needle in s] *)
Fixpoint contains (needle s : string) : bool :=
  String.prefix needle s ||
  match s with
  | EmptyString => false
  | String _ s' => contains needle s'
  end.

(** [c in s] for one character. *)
Fixpoint has_char (c : ascii) (s : string) : bool :=
  match s with
  | EmptyString => false
  | String a s' => Ascii.eqb a c || has_char c s'
  end.

(** [s.split(c)] for a one-character separator. *)
Fixpoint split (c : ascii) (s : string) : list string :=
  match s with
  | EmptyString => [EmptyString]
  | String a s' =>
      if Ascii.eqb a c then EmptyString :: split c s'
      else match split c s' with
           | [] => [String a EmptyString]
           | w :: ws => String a w :: ws
           end
  end.

Fixpoint lstrip (s : string) : string :=
  match s with
  | String c s' => if is_space c then lstrip s' else s
  | EmptyString => EmptyString
  end.

Fixpoint rstrip (s : string) : string :=
  match s with
  | EmptyString => EmptyString
  | String c s' =>
      match rstrip s' with
      | EmptyString => if is_space c then EmptyString else String c EmptyString
      | r => String c r
      end
  end.

(** [s.strip()] *)
Definition strip (s : string) : string := rstrip (lstrip s).

(** [s.rstrip('/')] *)
Fixpoint rstrip_char (c : ascii) (s : string) : string :=
  match s with
  | EmptyString => EmptyString
  | String a s' =>
      match rstrip_char c s' with
      | EmptyString => if Ascii.eqb a c then EmptyString else String a EmptyString
      | r => String a r
      end
  end.

(** [str(n)] for an integer. *)
Definition str_of_int (n : Z) : string :=
  NilZero.string_of_int (Z.to_int n).

(** [int(s)] on a string: blanks around an optionally signed run of
    decimal digits ([None] stands for [ValueError]; digit separators are
    not modelled). *)
Definition int_of_str (s : string) : option Z :=
  match strip s with
  | String "+" r =>
      match r with
      | String "-" _ | String "+" _ => None
      | _ => option_map Z.of_int (NilZero.int_of_string r)
      end
  | r => option_map Z.of_int (NilZero.int_of_string r)
  end.

(** [range(n)] *)
Definition range (n : Z) : list Z := map Z.of_nat (seq 0 (Z.to_nat n)).

End Py.

(** ** Dynamically typed values

    The services pass string-keyed dictionaries of loosely typed facts
    around; [pyval] is the fragment of Python's value universe they reach. *)

#[warnings="-register-all"]
  Inductive pyval : Type :=
  | PNone
  | PBool (b : bool)
  | PInt (z : Z)
  | PStr (s : string)
  | PList (l : list pyval)
  | PDict (d : list (string * pyval)).

Module Val.

Definition dict := list (string * pyval).

(** [bool(v)] *)
Definition truthy (v : pyval) : bool :=
  match v with
  | PNone => false
  | PBool b => b
  | PInt z => negb (z =? 0)
  | PStr s => Py.truthy s
  | PList l => match l with [] => false | _ => true end
  | PDict d => match d with [] => false | _ => true end
  end.

(** [d.get(k)] as an option. *)
Fixpoint lookup (k : string) (d : dict) : option pyval :=
  match d with
  | [] => None
  | (k', v) :: d' => if String.eqb k' k then Some v else lookup k d'
  end.

(** [d.get(k)] and [d.get(k, default)] *)
Definition get (d : dict) (k : string) : pyval :=
  match lookup k d with Some v => v | None => PNone end.
Definition get_default (d : dict) (k : string) (default : pyval) : pyval :=
  match lookup k d with Some v => v | None => default end.

(** [d[k] = v]: an existing key keeps its place, a new one goes last. *)
Fixpoint set (k : string) (v : pyval) (d : dict) : dict :=
  match d with
  | [] => [(k, v)]
  | (k', v') :: d' =>
      if String.eqb k' k then (k', v) :: d' else (k', v') :: set k v d'
  end.

(** [d.update(e)] *)
Definition update (d e : dict) : dict :=
  fold_left (fun acc kv => set (fst kv) (snd kv) acc) e d.

(** [k in d] *)
Definition mem (k : string) (d : dict) : bool :=
  match lookup k d with Some _ => true | None => false end.

(** [v == s] for a string literal [s]. *)
Definition eq_str (v : pyval) (s : string) : bool :=
  match v with PStr t => String.eqb t s | _ => false end.

(** [len(v)] where it is defined. *)
Definition len (v : pyval) : option Z :=
  match v with
  | PStr s => Some (Py.len s)
  | PList l => Some (Z.of_nat (List.length l))
  | PDict d => Some (Z.of_nat (List.length d))
  | _ => None
  end.

(** [type(v).__name__] *)
Definition type_name (v : pyval) : string :=
  match v with
  | PNone => "NoneType"
  | PBool _ => "bool"
  | PInt _ => "int"
  | PStr _ => "str"
  | PList _ => "list"
  | PDict _ => "dict"
  end.

(** [isinstance(v, str)] and [isinstance(v, list)] *)
Definition is_str (v : pyval) : bool :=
  match v with PStr _ => true | _ => false end.
Definition is_list (v : pyval) : bool :=
  match v with PList _ => true | _ => false end.

(** [str(v)] as an f-string renders it, for the values that reach one. *)
Definition to_str (v : pyval) : option string :=
  match v with
  | PNone => Some "None"
  | PBool true => Some "True"
  | PBool false => Some "False"
  | PInt z => Some (Py.str_of_int z)
  | PStr s => Some s
  | _ => None
  end.

End Val.

(** ** Exceptions and the error monad *)

Inductive exn_class : Type :=
  | ValueError | TypeError | AttributeError | KeyError | IndexError
  | JSONDecodeError
  | RequestException | HTTPError
  | ScrapingError | NetworkError
  | SQLAlchemyError.

Record exn : Type := Exn { exn_kind : exn_class; exn_msg : string }.

(** [str(e)] *)
Definition str_exn (e : exn) : string := exn_msg e.

(** [isinstance(e, requests.RequestException)] *)
Definition is_request_exception (e : exn) : bool :=
  match exn_kind e with
  | RequestException | HTTPError => true
  | _ => false
  end.

(** [isinstance(e, json.JSONDecodeError)] *)
Definition is_json_decode_error (e : exn) : bool :=
  match exn_kind e with JSONDecodeError => true | _ => false end.

(** The outcome of a computation: a value, an exception on its way up, or
    [OutOfFuel] for a run that was cut off before it ended (the only loop
    without a bound of its own is the pagination of the catalog). *)
Inductive result (A : Type) : Type :=
  | Ok (a : A)
  | Raise (e : exn)
  | OutOfFuel.
Arguments Ok {A} a.
Arguments Raise {A} e.
Arguments OutOfFuel {A}.

(** ** app/models: rows, tables and the SQLAlchemy session

    An ORM instance is its attribute dictionary together with the primary
    key the database gave it ([None] until its first flush).  The columns
    are those of [brand.py], [product.py], [competitor.py] and
    [analysis.py]; the three timestamp columns are left out.  The session
    keeps the view of the open transaction ([pending]) next to the last
    committed state, which is what [rollback] returns to.  The database is
    a collaborator that may fail: [faults] lists, for each round trip to
    come, whether it raises. *)

Module Models.

Record obj : Type := Obj {
  obj_id : option Z;
  obj_attached : bool;
  obj_attrs : Val.dict
  }.

Record row : Type := Row { row_id : Z; row_attrs : Val.dict }.

Record tables : Type := Tables {
  brands : list row;
  products : list row;
  competitors : list row;
  analyses : list row;
  next_brand_id : Z;
  next_product_id : Z;
  next_competitor_id : Z;
  next_analysis_id : Z
  }.

Record session : Type := Session {
  committed : tables;
  pending : tables;
  faults : list (option exn)
  }.

(** [obj.attr] and [obj.attr = v] *)
Definition getattr (o : obj) (k : string) : pyval := Val.get (obj_attrs o) k.
Definition setattr (k : string) (v : pyval) (o : obj) : obj :=
  Obj (obj_id o) (obj_attached o) (Val.set k v (obj_attrs o)).

(** [obj.id] *)
Definition id_val (o : obj) : pyval :=
  match obj_id o with Some i => PInt i | None => PNone end.

(** A freshly constructed model instance, e.g. [Brand()]. *)
Definition new_obj (attrs : Val.dict) : obj := Obj None false attrs.

Definition of_row (r : row) : obj := Obj (Some (row_id r)) true (row_attrs r).

(** Column defaults applied by an INSERT to attributes left unset. *)
Definition with_default (k : string) (v : pyval) (d : Val.dict) : Val.dict :=
  match Val.get d k with PNone => Val.set k v d | _ => d end.

Definition brand_defaults (d : Val.dict) : Val.dict :=
  with_default "scraping_status" (PStr "pending")
    (with_default "is_shopify_store" (PBool false) d).

Definition product_defaults (d : Val.dict) : Val.dict :=
  with_default "is_hero_product" (PBool false)
    (with_default "available" (PBool true) d).

Definition competitor_defaults : Val.dict -> Val.dict := brand_defaults.

Definition analysis_defaults (d : Val.dict) : Val.dict :=
  with_default "analysis_status" (PStr "pending") d.

Definition row_has (k : string) (v : pyval -> bool) (r : row) : bool :=
  v (Val.get (row_attrs r) k).

Definition is_int (i : Z) (v : pyval) : bool :=
  match v with PInt j => j =? i | _ => false end.

(** An UPDATE of the row with key [i]. *)
Definition update_row (i : Z) (attrs : Val.dict) (rs : list row) : list row :=
  map (fun r => if row_id r =? i then Row i attrs else r) rs.

Definition find_row (i : Z) (rs : list row) : option row :=
  find (fun r => row_id r =? i) rs.

(** Flushing the brand instance of the unit of work: an INSERT for an
    instance that was added and has no key yet, an UPDATE for a persistent
    one, nothing for an instance the session does not know. *)
Definition flush_brand (b : obj) (t : tables) : obj * tables :=
  if obj_attached b then
    match obj_id b with
    | None =>
        let i := next_brand_id t in
        let attrs := brand_defaults (obj_attrs b) in
        (Obj (Some i) true attrs,
         Tables (brands t ++ [Row i attrs]) (products t) (competitors t)
                (analyses t) (i + 1) (next_product_id t)
                (next_competitor_id t) (next_analysis_id t))
    | Some i =>
        (b, Tables (update_row i (obj_attrs b) (brands t)) (products t)
                   (competitors t) (analyses t) (next_brand_id t)
                   (next_product_id t) (next_competitor_id t)
                   (next_analysis_id t))
    end
  else (b, t).

Definition insert_product (attrs : Val.dict) (t : tables) : tables :=
  Tables (brands t)
         (products t ++ [Row (next_product_id t) (product_defaults attrs)])
         (competitors t) (analyses t) (next_brand_id t)
         (next_product_id t + 1) (next_competitor_id t) (next_analysis_id t).

Definition insert_competitor (attrs : Val.dict) (t : tables) : obj * tables :=
  let i := next_competitor_id t in
  let attrs := competitor_defaults attrs in
  (Obj (Some i) true attrs,
   Tables (brands t) (products t) (competitors t ++ [Row i attrs])
          (analyses t) (next_brand_id t) (next_product_id t) (i + 1)
          (next_analysis_id t)).

Definition insert_analysis (attrs : Val.dict) (t : tables) : tables :=
  Tables (brands t) (products t) (competitors t)
         (analyses t ++ [Row (next_analysis_id t) (analysis_defaults attrs)])
         (next_brand_id t) (next_product_id t) (next_competitor_id t)
         (next_analysis_id t + 1).

Definition delete_products_of (brand : pyval) (t : tables) : tables :=
  Tables (brands t)
         (filter (fun r => negb
                    match brand with
                    | PInt i => row_has "brand_id" (is_int i) r
                    | _ => false
                    end) (products t))
         (competitors t) (analyses t) (next_brand_id t) (next_product_id t)
         (next_competitor_id t) (next_analysis_id t).


Definition brands_of_domain (d : string) (t : tables) : list row :=
  filter (row_has "domain" (fun v => Val.eq_str v d)) (brands t).

(** A database without rows, and a session on it that meets no fault. *)
Definition empty_tables : tables := Tables [] [] [] [] 1 1 1 1.
Definition empty_session : session := Session empty_tables empty_tables [].

End Models.

(** ** Parsed documents (BeautifulSoup)

    A document is the tree the parser builds: elements with their
    attributes (a multi-valued [class] is kept as its values joined by one
    blank) and text nodes. *)

#[warnings="-register-all"]
  Inductive node : Type :=
  | Element (tag : string) (attrs : list (string * string)) (children : list node)
  | Text (s : string).

Module Soup.

Definition is_element (n : node) : bool :=
  match n with Element _ _ _ => true | Text _ => false end.

Definition tag_name (n : node) : string :=
  match n with Element t _ _ => t | Text _ => EmptyString end.

(** [tag.get(k)] *)
Definition attr (n : node) (k : string) : option string :=
  match n with
  | Element _ attrs _ =>
      option_map snd (find (fun kv => String.eqb (fst kv) k) attrs)
  | Text _ => None
  end.

(** The elements below [n] in document order, [n] itself excluded. *)
Fixpoint descendants (n : node) : list node :=
  match n with
  | Text _ => []
  | Element _ _ cs =>
      (fix go (l : list node) : list node :=
         match l with
         | [] => []
         | c :: l' =>
             ((if is_element c then [c] else []) ++ descendants c ++ go l')%list
         end) cs
  end.

(** [tag.get_text()], which is also [tag.text]. *)
Fixpoint get_text (n : node) : string :=
  match n with
  | Text s => s
  | Element _ _ cs =>
      (fix go (l : list node) : string :=
         match l with
         | [] => EmptyString
         | c :: l' => get_text c ++ go l'
         end) cs
  end.

(** [tag.find_all(...)] and [tag.find(...)] with the filter as a
    predicate on elements. *)
Definition find_all (p : node -> bool) (n : node) : list node :=
  filter p (descendants n).
Definition find (p : node -> bool) (n : node) : option node :=
  hd_error (find_all p n).

(** The tree without the elements that satisfy [p], as left by calling
    [decompose()] on each of them. *)
Fixpoint without (p : node -> bool) (n : node) : node :=
  match n with
  | Text s => Text s
  | Element t attrs cs =>
      Element t attrs
        ((fix go (l : list node) : list node :=
            match l with
            | [] => []
            | c :: l' =>
                if is_element c && p c then go l'
                else without p c :: go l'
            end) cs)
  end.

(** Filters: a tag name, one of several names, an attribute equal to one
    of several values, an attribute that is present, an attribute whose
    value satisfies a test (a missing attribute fails it). *)
Definition named (t : string) (n : node) : bool := String.eqb (tag_name n) t.
Definition named_in (ts : list string) (n : node) : bool :=
  existsb (String.eqb (tag_name n)) ts.
Definition attr_in (k : string) (vs : list string) (n : node) : bool :=
  match attr n k with
  | Some v => existsb (String.eqb v) vs
  | None => false
  end.
Definition has_attr (k : string) (n : node) : bool :=
  match attr n k with Some _ => true | None => false end.
Definition attr_where (k : string) (p : string -> bool) (n : node) : bool :=
  match attr n k with Some v => p v | None => false end.

End Soup.

(** ** The network

    The text of a response is carried together with what the two parsers
    of the standard library make of it: [json.loads] ([None] where it
    raises [JSONDecodeError]) and [BeautifulSoup(text, 'html.parser')]. *)

Record text : Type := Body {
    raw : string;
    json : option pyval;
    soup : node
  }.

Record response : Type := Response {
    status_code : Z;
    reason : string;
    headers : list (string * string);
    body : text
  }.

(** What [session.get] does: it returns a response or raises. *)
Inductive http_outcome : Type :=
  | Responds (r : response)
  | Fails (e : exn).

(** ** The world and the monad of the services

    A computation reads and writes the world and either returns or raises.
    The world holds the network (what the request number [n] to a URL
    meets, [n] counted from 0), the log of requests and pauses so far, and
    the database session. *)

Inductive event : Type :=
  | Request (url : string) (timeout : Z)
  | Sleep (seconds : Z).

Record world : Type := World {
    net : string -> nat -> http_outcome;
    log : list event;
    db : Models.session
  }.

(** Computations over a state [S]; the services run over the world, a
    method with local variables that outlive an exception runs over the
    world paired with those variables. *)
Definition ST (S A : Type) : Type := S -> result A * S.
Definition M (A : Type) : Type := ST world A.

Definition ret {S A} (a : A) : ST S A := fun s => (Ok a, s).
Definition raise {S A} (e : exn) : ST S A := fun s => (Raise e, s).
Definition bind {S A B} (c : ST S A) (k : A -> ST S B) : ST S B :=
  fun s => match c s with
           | (Ok a, s') => k a s'
           | (Raise e, s') => (Raise e, s')
           | (OutOfFuel, s') => (OutOfFuel, s')
           end.

Notation "x <- c ;; k" := (bind c (fun x => k))
  (at level 61, c at next level, right associativity).
Notation "c ;;; k" := (bind c (fun _ => k))
  (at level 61, right associativity).

(** [try: c except <the classes catches selects> as e: h e] *)
Definition try_except {S A} (c : ST S A) (catches : exn -> bool)
  (h : exn -> ST S A) : ST S A :=
  fun s => match c s with
           | (Raise e, s') => if catches e then h e s' else (Raise e, s')
           | r => r
           end.

(** [except Exception] *)
Definition any_exception (_ : exn) : bool := true.

(** A pure step that may raise, and the sequencing of such steps. *)
Definition lift {S A} (r : result A) : ST S A := fun s => (r, s).

Definition and_then {A B} (r : result A) (k : A -> result B) : result B :=
  match r with
  | Ok a => k a
  | Raise e => Raise e
  | OutOfFuel => OutOfFuel
  end.

Notation "x <~ r ;; k" := (and_then r (fun x => k))
  (at level 61, r at next level, right associativity).

(** Reading and writing the state. *)
Definition get_state {S} : ST S S := fun s => (Ok s, s).
Definition put_state {S} (s : S) : ST S unit := fun _ => (Ok tt, s).

(** Running a computation on the world inside a method with locals [L]. *)
Definition with_locals {L A} (c : M A) : ST (world * L) A :=
  fun s => let (r, w') := c (fst s) in (r, (w', snd s)).
Definition get_local {L} : ST (world * L) L := fun s => (Ok (snd s), s).
Definition set_local {L} (l : L) : ST (world * L) unit :=
  fun s => (Ok tt, (fst s, l)).

(** How the body of a loop ends: [return a], [break], or on to the next
    round ([continue] or the end of the body). *)
Inductive flow (A : Type) : Type :=
  | Return (a : A)
  | Break
  | Continue.
Arguments Return {A} a.
Arguments Break {A}.
Arguments Continue {A}.

(** [for x in xs: body]; [None] when the loop ends without a [return]. *)
Fixpoint for_each {S X A} (xs : list X) (body : X -> ST S (flow A))
  : ST S (option A) :=
  match xs with
  | [] => ret None
  | x :: xs' =>
      f <- body x ;;
      match f with
      | Return a => ret (Some a)
      | Break => ret None
      | Continue => for_each xs' body
      end
  end.

(** [while True: body], cut off after [fuel] rounds. *)
Fixpoint while_true {S A} (fuel : nat) (body : ST S (flow A))
  : ST S (option A) :=
  match fuel with
  | O => fun s => (OutOfFuel, s)
  | S fuel' =>
      f <- body ;;
      match f with
      | Return a => ret (Some a)
      | Break => ret None
      | Continue => while_true fuel' body
      end
  end.

Definition emit (e : event) : M unit :=
  fun w => (Ok tt, World (net w) (log w ++ [e]) (db w)).

(** [time.sleep(seconds)] *)
Definition sleep (seconds : Z) : M unit := emit (Sleep seconds).

(** ** config/config.py *)

Module Config.
Definition REQUEST_TIMEOUT : Z := 30.
Definition MAX_RETRIES : Z := 3.
Definition DELAY_BETWEEN_REQUESTS : Z := 1.
(** [OPENAI_API_KEY] comes from the environment and is an input of the
    text-generation service, see [Llm]. *)
End Config.

(** ** requests *)

Module Requests.

Definition is_request (url : string) (e : event) : bool :=
  match e with
  | Request u _ => String.eqb u url
  | Sleep _ => false
  end.

(** How many requests to [url] the log holds. *)
Definition count_requests (url : string) (l : list event) : nat :=
  List.length (filter (is_request url) l).

(** [session.get(url, timeout=timeout)] *)
Definition session_get (url : string) (timeout : Z) : M response :=
  fun w =>
    let w' := World (net w) (log w ++ [Request url timeout]) (db w) in
    match net w url (count_requests url (log w)) with
    | Responds r => (Ok r, w')
    | Fails e => (Raise e, w')
    end.

(** [response.raise_for_status()] *)
Definition raise_for_status (url : string) (r : response) : result unit :=
  let code := status_code r in
  if (400 <=? code) && (code <? 500) then
    Raise (Exn HTTPError (Py.str_of_int code ++ " Client Error: " ++ reason r
                          ++ " for url: " ++ url))
  else if (500 <=? code) && (code <? 600) then
    Raise (Exn HTTPError (Py.str_of_int code ++ " Server Error: " ++ reason r
                          ++ " for url: " ++ url))
  else Ok tt.

(** [response.headers.get(k)]; header names compare without case. *)
Definition header (r : response) (k : string) : option string :=
  option_map snd
    (find (fun kv => String.eqb (Py.lower (fst kv)) (Py.lower k)) (headers r)).

End Requests.

(** ** The e-mail pattern of [extract_email_addresses]

    [re.findall] with the pattern
    [\b[A-Za-z0-9._%+-]+@[A-Za-z0-9.-]+\.[A-Z|a-z]{2,}\b], written out: the
    local part is a maximal run (nothing in its class is an at-sign), the
    domain and the last label are tried from the longest candidate down, as
    the backtracking matcher does, and the scan resumes where a match
    ended. *)

Module EmailPattern.
Import Py.

Definition is_local_char (c : ascii) : bool :=
  is_alpha c || is_digit c || has_char c "._%+-".

Definition is_domain_char (c : ascii) : bool :=
  is_alpha c || is_digit c || has_char c ".-".

(** The class [[A-Z|a-z]], vertical bar included. *)
Definition is_label_char (c : ascii) : bool :=
  is_alpha c || Ascii.eqb c "|".

Definition word (c : option ascii) : bool :=
  match c with Some a => is_word a | None => false end.

(** [\b] between a character and the next. *)
Definition boundary (before after : option ascii) : bool :=
  xorb (word before) (word after).

(** The length of the longest prefix of [s] within the class [p]. *)
Fixpoint run (p : ascii -> bool) (s : string) : nat :=
  match s with
  | String c s' => if p c then S (run p s') else O
  | EmptyString => O
  end.

(** The first of [n], [n - 1], ..., 0 that [f] accepts. *)
Fixpoint first_down {A} (n : nat) (f : nat -> option A) : option A :=
  match f n with
  | Some a => Some a
  | None => match n with O => None | S n' => first_down n' f end
  end.

(** The last label, at the start of [s]: at least two characters of its
    class, as many as possible, ending at a word boundary. *)
Definition match_label (s : string) : option nat :=
  first_down (run is_label_char s)
    (fun t => if (2 <=? t)%nat &&
                 boundary (char_at s (t - 1)) (char_at s t)
              then Some t else None).

(** The domain and the last label, at the start of [s]: the length of what
    is matched. *)
Definition match_domain (s : string) : option nat :=
  first_down (run is_domain_char s)
    (fun d => if (1 <=? d)%nat
              then match char_at s d with
                   | Some "."%char =>
                       option_map (fun t => (d + 1 + t)%nat)
                                  (match_label (drop (d + 1) s))
                   | _ => None
                   end
              else None).

(** An address at the start of [s], [before] being the character in front
    of it. *)
Definition match_here (before : option ascii) (s : string) : option nat :=
  let l := run is_local_char s in
  if boundary before (char_at s 0) && (1 <=? l)%nat then
    match char_at s l with
    | Some "@"%char =>
        option_map (fun m => (l + 1 + m)%nat) (match_domain (drop (l + 1) s))
    | _ => None
    end
  else None.

Fixpoint scan (fuel : nat) (before : option ascii) (s : string) : list string :=
  match fuel, s with
  | S fuel', String c s' =>
      match match_here before s with
      | Some (S n) =>
          take (S n) s :: scan fuel' (char_at s n) (drop (S n) s)
      | _ => scan fuel' (Some c) s'
      end
  | _, _ => []
  end.

(** [re.findall(email_pattern, text)]: the matches in the order of the
    text. *)
Definition findall (text : string) : list string :=
  scan (String.length text) None text.

End EmailPattern.

(** ** Library functions taken as given

    Three functions of the standard library are parameters of the
    development: [urllib.parse.urljoin], the built-in [str] on arbitrary
    values, and the decoding of character references that [html.unescape]
    performs on a text that contains an ampersand. *)

Class Library : Type := {
    urljoin : string -> string -> string;
    str_of : pyval -> string;
    unescape_references : string -> string
  }.

(** [list(set(l))]: the distinct elements of [l] in the order in which the
    interpreter iterates the set, an order that depends on the hashes of
    the strings and is not tied to [l]. *)
Class SetOrder : Type := {
    set_to_list : list string -> list string;
    set_to_list_distinct :
      forall l, Permutation (set_to_list l) (nodup string_dec l)
  }.

(** ** app/utils/helpers.py *)

Module Helpers.
Import Py.

(** [urllib.parse.urlsplit] as far as the scheme and the network location
    go: an optional scheme before the first colon, then, after two
    slashes, the location up to the next slash, question mark or hash.
    Unbalanced square brackets in the location raise [ValueError]. *)
Definition is_scheme_char (c : ascii) : bool :=
  is_alpha c || is_digit c || has_char c "+-.".

Fixpoint all_chars (p : ascii -> bool) (s : string) : bool :=
  match s with
  | EmptyString => true
  | String c s' => p c && all_chars p s'
  end.

(** [s] cut at the first character that satisfies [stop]. *)
Fixpoint span_until (stop : ascii -> bool) (s : string) : string * string :=
  match s with
  | EmptyString => (EmptyString, EmptyString)
  | String c s' =>
      if stop c then (EmptyString, s)
      else let (a, b) := span_until stop s' in (String c a, b)
  end.

Definition split_scheme (url : string) : string * string :=
  match span_until (Ascii.eqb ":") url with
  | (String c pre, String _ post) =>
      if is_alpha c && all_chars is_scheme_char (String c pre)
      then (lower (String c pre), post)
      else (EmptyString, url)
  | _ => (EmptyString, url)
  end.

Record split_result : Type := SplitResult {
  scheme : string;
  netloc : string;
  remainder : string
  }.

Definition urlsplit (url : string) : result split_result :=
  let (scheme, rest) := split_scheme url in
  if startswith rest "//" then
    let (netloc, rest') :=
      span_until (fun c => has_char c "/?#") (drop 2 rest) in
    if (has_char "[" netloc && negb (has_char "]" netloc)) ||
       (has_char "]" netloc && negb (has_char "[" netloc))
    then Raise (Exn ValueError "Invalid IPv6 URL")
    else Ok (SplitResult scheme netloc rest')
  else Ok (SplitResult scheme EmptyString rest).

(** [extract_domain(url)]: [urlparse(url).netloc.lower()] *)
Definition extract_domain (url : string) : result string :=
  match urlsplit url with
  | Ok r => Ok (lower (netloc r))
  | Raise e => Raise e
  | OutOfFuel => OutOfFuel
  end.

(** [html.unescape]: the identity on a text without an ampersand. *)
Definition html_unescape {lib : Library} (s : string) : string :=
  if has_char "&" s then unescape_references s else s.

(** [re.sub(r'\s+', ' ', text)] *)
Fixpoint collapse_from (in_blank : bool) (s : string) : string :=
  match s with
  | EmptyString => EmptyString
  | String c s' =>
      if is_space c
      then if in_blank then collapse_from true s'
           else String " " (collapse_from true s')
      else String c (collapse_from false s')
  end.
Definition collapse_whitespace (s : string) : string := collapse_from false s.

Definition clean_text {lib : Library} (text : string) : string :=
  if negb (truthy text) then EmptyString
  else strip (collapse_whitespace (html_unescape text)).

(** [clean_text] on a value that need not be a string: a falsy value
    gives the empty string, any other non-string makes [html.unescape] or
    [re.sub] raise [TypeError]. *)
Definition clean_text_val {lib : Library} (v : pyval) : result string :=
  if negb (Val.truthy v) then Ok EmptyString
  else match v with
       | PStr s => Ok (clean_text s)
       | _ => Raise (Exn TypeError "expected string or bytes-like object")
       end.

(** [normalize_url(url, base_url)] *)
Definition normalize_url {lib : Library} (url : string) (base_url : string)
  : string :=
  let url :=
    if truthy base_url &&
       negb (startswith url "http://" || startswith url "https://")
    then urljoin base_url url
    else url in
  rstrip_char "/" url.

(** [extract_email_addresses(text)] *)
Definition extract_email_addresses {order : SetOrder} (text : string) : list string :=
  if negb (truthy text) then []
  else
    let matches := EmailPattern.findall text in
    set_to_list matches.

Definition shopify_indicators : list string :=
  ["Shopify.theme"; "shopify.com"; "shopify-analytics"; "cdn.shopify.com";
   "myshopify.com"; "Shopify.shop"; "window.Shopify"].

(** [is_shopify_store(html_content, url)] *)
Definition is_shopify_store (html_content : string) (url : string) : bool :=
  if negb (truthy html_content) then false
  else if existsb (fun indicator => contains indicator html_content)
                  shopify_indicators
  then true
  else truthy url && contains "myshopify.com" url.

(** [last_space > max_length * 0.8]: an integer against the product of an
    integer and the decimal literal [0.8]; the comparison is carried out
    over the rationals. *)
Definition above_four_fifths (last_space max_length : Z) : bool :=
  negb (Qle_bool (inject_Z last_space) (inject_Z max_length * (8 # 10))).

Definition truncate_text (text : string) (max_length : Z) : string :=
  if negb (truthy text) || (len text <=? max_length) then text
  else
    let truncated := slice_to text max_length in
    let last_space := rfind truncated " "%char in
    let truncated :=
      if above_four_fifths last_space max_length
      then slice_to truncated last_space
      else truncated in
    truncated ++ "...".

(** Vocabulary for the contract of [truncate_text]: [p] is the index of
    the last space among the first [L] characters of [s]. *)
Definition last_space_within (s : string) (L p : nat) : Prop :=
  (p < L)%nat /\ char_at s p = Some " "%char /\
  forall q, (p < q < L)%nat -> char_at s q <> Some " "%char.


End Helpers.

(** ** app/services/scraper.py: fetching *)

Module Fetch.

(** [int(response.headers.get('Retry-After', 60))] *)
Definition retry_after (r : response) : result Z :=
  match Requests.header r "Retry-After" with
  | None => Ok 60
  | Some v =>
      match Py.int_of_str v with
      | Some z => Ok z
      | None => Raise (Exn ValueError
                         ("invalid literal for int() with base 10: " ++ v))
      end
  end.

Definition network_error (url : string) (e : exn) : exn :=
  Exn NetworkError ("Failed to fetch " ++ url ++ ": " ++ str_exn e).

(** One round of the retry loop of [_fetch_page]: the inner [try] with its
    [except requests.RequestException] clause. *)
Definition fetch_attempt (url : string) (timeout : Z) (attempt : Z)
  : M (flow text) :=
  try_except
    (response <- Requests.session_get url timeout ;;
     lift (Requests.raise_for_status url response) ;;;
     (* Check for rate limiting *)
     if status_code response =? 429 then
       wait_time <- lift (retry_after response) ;;
       sleep wait_time ;;;
       ret Continue
     else
       ret (Return (body response)))
    is_request_exception
    (fun e =>
       if attempt =? Config.MAX_RETRIES - 1 then
         raise (network_error url e)
       else
         let wait_time := Config.DELAY_BETWEEN_REQUESTS * 2 ^ attempt in
         sleep wait_time ;;;
         ret Continue).

(** [timeout or Config.REQUEST_TIMEOUT] *)
Definition timeout_or_default (timeout : option Z) : Z :=
  match timeout with
  | Some t => if t =? 0 then Config.REQUEST_TIMEOUT else t
  | None => Config.REQUEST_TIMEOUT
  end.

(** [_fetch_page(url, timeout)]; [None] is the [None] Python returns when
    the loop runs out without a [return]. *)
Definition _fetch_page (url : string) (timeout : option Z) : M (option text) :=
  try_except
    (let timeout := timeout_or_default timeout in
     for_each (Py.range Config.MAX_RETRIES) (fetch_attempt url timeout))
    is_request_exception
    (fun e => raise (network_error url e)).

(** Vocabulary for the retry contract.  The events a run added to the
    log, the requests and the pauses among them, and how attempt [k] of a
    fetch that starts in world [w] goes: a request-level failure is a
    [RequestException] out of [session.get] or out of
    [raise_for_status]. *)
Definition added (w w' : world) : list event :=
  skipn (List.length (log w)) (log w').

Definition requests (l : list event) : list string :=
  flat_map (fun e => match e with Request u _ => [u] | Sleep _ => [] end) l.

Definition pauses (l : list event) : list Z :=
  flat_map (fun e => match e with Sleep d => [d] | Request _ _ => [] end) l.

(** How a single request goes as far as the loop is concerned: it yields
    the body, it fails at request level (a [RequestException] out of
    [session.get] or out of [raise_for_status]), or it raises something
    the loop does not handle. *)
Inductive verdict : Type :=
  | Got (b : text)
  | Failed (e : exn)
  | Crashed (e : exn).

Definition verdict_of (url : string) (o : http_outcome) : verdict :=
  match o with
  | Responds r =>
      match Requests.raise_for_status url r with
      | Raise e => Failed e
      | _ => Got (body r)
      end
  | Fails e => if is_request_exception e then Failed e else Crashed e
  end.

Definition request_failure (url : string) (o : http_outcome) : option exn :=
  match verdict_of url o with Failed e => Some e | _ => None end.

(** What attempt [k] of a fetch started in world [w] meets. *)
Definition attempt_outcome (w : world) (url : string) (k : nat) : http_outcome :=
  net w url (Requests.count_requests url (log w) + k).

Definition attempt_fails (w : world) (url : string) (k : nat) : Prop :=
  request_failure url (attempt_outcome w url k) <> None.

(** The world after the events [evs]. *)
Definition logged (w : world) (evs : list event) : world :=
  World (net w) (log w ++ evs) (db w).

End Fetch.

(** ** Rate limiting: the clause of the specification and a scenario *)

Module RateLimit.
Import Fetch.

(** The rate-limit clause as the specification words it, for a fetch of
    [url] started in [w] whose first attempt meets a 429 response: the
    pause that follows lasts what [Retry-After] says (60 by default), and
    the attempt is not counted, so that the fetch can still make
    [MAX_RETRIES] further requests. *)
Definition honoured (w : world) (url : string) (timeout : option Z) : Prop :=
  forall r,
    attempt_outcome w url 0 = Responds r -> status_code r = 429 ->
    let evs := added w (snd (_fetch_page url timeout w)) in
    (exists d, retry_after r = Ok d /\ nth_error (pauses evs) 0 = Some d) /\
    ((forall k, attempt_fails w url k) ->
     Z.of_nat (List.length (requests evs)) = 1 + Config.MAX_RETRIES).

Definition too_many_requests : response :=
  Response 429 "Too Many Requests" [("Retry-After", "5")]
           (Body "slow down" None (Text "slow down")).

(** A host that answers every request with 429 and [Retry-After: 5]. *)
Definition throttling_world : world :=
  World (fun _ _ => Responds too_many_requests) [] Models.empty_session.

End RateLimit.

(** ** app/services/scraper.py: the product catalog *)

Module Catalog.
Import Fetch.

(** The local variables of [_get_product_catalog] that the loop updates;
    [products] is what the method returns, however the loop ends. *)
Record locals : Type := Locals { page : Z; products : list pyval }.

Section WithLibrary.
Context {lib : Library}.

Definition no_attribute (v : pyval) (a : string) : exn :=
  Exn AttributeError
    ("'" ++ Val.type_name v ++ "' object has no attribute '" ++ a ++ "'").

(** [v.get(k, default)] on a value that is hoped to be a dictionary. *)
Definition get (v : pyval) (k : string) (default : pyval) : result pyval :=
  match v with
  | PDict d => Ok (Val.get_default d k default)
  | _ => Raise (no_attribute v "get")
  end.

(** [v[0]] *)
Definition first (v : pyval) : result pyval :=
  match v with
  | PList (x :: _) => Ok x
  | PList [] => Raise (Exn IndexError "list index out of range")
  | PStr (String c _) => Ok (PStr (String c EmptyString))
  | PStr EmptyString => Raise (Exn IndexError "string index out of range")
  | PDict _ => Raise (Exn KeyError "0")
  | _ => Raise (Exn TypeError
                ("'" ++ Val.type_name v ++ "' object is not subscriptable"))
  end.

Fixpoint chars (s : string) : list pyval :=
  match s with
  | EmptyString => []
  | String c s' => PStr (String c EmptyString) :: chars s'
  end.

(** The items a [for] loop over [v] visits. *)
Definition iterate (v : pyval) : result (list pyval) :=
  match v with
  | PList l => Ok l
  | PDict d => Ok (map (fun kv => PStr (fst kv)) d)
  | PStr s => Ok (chars s)
  | _ => Raise (Exn TypeError
                ("'" ++ Val.type_name v ++ "' object is not iterable"))
  end.

(** [json.loads(response_text)] *)
Definition json_loads (response_text : option text) : result pyval :=
  match response_text with
  | None => Raise (Exn TypeError
            "the JSON object must be str, bytes or bytearray, not NoneType")
  | Some t =>
    match json t with
    | Some v => Ok v
    | None => Raise (Exn JSONDecodeError "Expecting value")
    end
  end.

(** [urlencode(params)] for integer parameters. *)
Definition urlencode (params : list (string * Z)) : string :=
  String.concat "&"
  (map (fun kv => fst kv ++ "=" ++ Py.str_of_int (snd kv)) params).

(** The tags of a product: a comma-separated string or a list. *)
Definition tags_of (tags : pyval) : pyval :=
  if Val.is_str tags && Val.truthy tags then
  match tags with
  | PStr s => PList (map PStr (Py.split "," s))
  | _ => PList []
  end
  else if Val.is_list tags then tags
  else PList [].

(** The record built for one entry of the [products] array. *)
Definition product_record (website_url : string) (product : pyval)
  : result pyval :=
  match product with
  | PDict d =>
    description <~ Helpers.clean_text_val
                     (Val.get_default d "body_html" (PStr "")) ;;
    let product_data : Val.dict :=
      [("shopify_id", Val.get d "id");
       ("title", Val.get d "title");
       ("handle", Val.get d "handle");
       ("description", PStr description);
       ("vendor", Val.get d "vendor");
       ("product_type", Val.get d "product_type");
       ("tags", tags_of (Val.get d "tags"));
       ("product_url",
        PStr (urljoin website_url
                ("/products/" ++ str_of (Val.get d "handle"))));
       ("created_at", Val.get d "created_at");
       ("updated_at", Val.get d "updated_at");
       ("available", Val.get_default d "available" (PBool true));
       ("variants", Val.get_default d "variants" (PList []));
       ("images", Val.get_default d "images" (PList []));
       ("options", Val.get_default d "options" (PList []))] in
    (* Extract price from first variant *)
    product_data <~
      (if Val.truthy (Val.get product_data "variants") then
         first_variant <~ first (Val.get product_data "variants") ;;
         price <~ get first_variant "price" PNone ;;
         compare_at_price <~ get first_variant "compare_at_price" PNone ;;
         Ok (Val.set "compare_at_price" compare_at_price
               (Val.set "price" price product_data))
       else Ok product_data) ;;
    (* Extract featured image *)
    product_data <~
      (if Val.truthy (Val.get product_data "images") then
         image <~ first (Val.get product_data "images") ;;
         src <~ get image "src" PNone ;;
         Ok (Val.set "featured_image" src product_data)
       else Ok product_data) ;;
    Ok (PDict product_data)
  | _ => Raise (no_attribute product "get")
  end.

Definition append_product (product_data : pyval) : ST (world * locals) unit :=
  fun s => (Ok tt, (fst s, Locals (page (snd s))
                                (products (snd s) ++ [product_data]))).

Definition next_page : ST (world * locals) unit :=
  fun s => (Ok tt, (fst s, Locals (page (snd s) + 1) (products (snd s)))).

Definition paginated_url (products_url : string) (page : Z) : string :=
  products_url ++ "?" ++ urlencode [("limit", 250); ("page", page)].

(** One round of [while True]. *)
Definition page_round (website_url products_url : string)
  : ST (world * locals) (flow unit) :=
  l <- get_local ;;
  (* Add pagination *)
  let paginated_url := paginated_url products_url (page l) in
  response_text <- with_locals (_fetch_page paginated_url None) ;;
  try_except
  (data <- lift (json_loads response_text) ;;
   page_products <- lift (get data "products" (PList [])) ;;
   if negb (Val.truthy page_products) then ret Break
   else
     items <- lift (iterate page_products) ;;
     for_each items
       (fun product =>
          product_data <- lift (product_record website_url product) ;;
          append_product product_data ;;;
          ret (@Continue unit)) ;;;
     next_page ;;;
     (* Add delay between requests *)
     with_locals (sleep Config.DELAY_BETWEEN_REQUESTS) ;;;
     ret Continue)
  is_json_decode_error
  (fun _ => ret Break).

Definition _get_product_catalog (fuel : nat) (website_url : string)
  : M (list pyval) :=
  fun w =>
  let attempt : ST (world * locals) unit :=
    try_except
      ((* Try to get products from /products.json endpoint *)
       let products_url := urljoin website_url "/products.json" in
       while_true fuel (page_round website_url products_url) ;;;
       ret tt)
      any_exception
      (fun _ => ret tt) in
  match attempt (w, Locals 1 []) with
  | (OutOfFuel, (w', _)) => (OutOfFuel, w')
  | (_, (w', l)) => (Ok (products l), w')
  end.

End WithLibrary.

End Catalog.

(** ** Pagination: endpoints and what a run asks of them *)

Module Pagination.
Import Fetch Catalog.

Section WithLibrary.
Context {lib : Library}.

(** The URL of page [p] of the catalog of [site]. *)
Definition page_url (site : string) (p : nat) : string :=
  urljoin site "/products.json" ++ "?limit=250&page="
  ++ Py.str_of_int (Z.of_nat p).

(** The host answers every request to [url] with [r]. *)
Definition serves (w : world) (url : string) (r : response) : Prop :=
  forall n, net w url n = Responds r.

(** A status that [raise_for_status] lets through. *)
Definition accepted (r : response) : Prop :=
  status_code r < 400 \/ 600 <= status_code r.

(** The records the loop over the entries of one page appends. *)
Fixpoint records_of (site : string) (items : list pyval)
  : result (list pyval) :=
  match items with
  | [] => Ok []
  | item :: rest =>
    record <~ product_record site item ;;
    records <~ records_of site rest ;;
    Ok (record :: records)
  end.

(** [r] is a page of products: a JSON object whose [products] array is
    not empty and whose entries all yield a record. *)
Definition product_page (site : string) (r : response)
         (records : list pyval) : Prop :=
  accepted r /\
  exists d items,
  json (body r) = Some (PDict d) /\
  Val.get_default d "products" (PList []) = PList items /\
  items <> [] /\
  records_of site items = Ok records.

(** [r] is the page that ends the catalog: its [products] array is
    empty (or missing, or otherwise falsy). *)
Definition empty_page (r : response) : Prop :=
  accepted r /\
  exists d,
  json (body r) = Some (PDict d) /\
  Val.truthy (Val.get_default d "products" (PList [])) = false.

(** An endpoint that serves the pages [pages] at page numbers 1, 2, ...
    and the empty page [last] right after them. *)
Definition endpoint (w : world) (site : string)
         (pages : list (response * list pyval)) (last : response) : Prop :=
  (forall i r records,
    nth_error pages i = Some (r, records) ->
    serves w (page_url site (S i)) r /\ product_page site r records) /\
  serves w (page_url site (S (List.length pages))) last /\
  empty_page last.

(** The pagination clause as the specification words it: with [N] pages
    of products followed by an empty one, [N] requests are sent and
    none for page [N + 1]. *)
Definition stops_without_extra_request (fuel : nat) (w : world)
         (site : string) (N : nat) : Prop :=
  let evs := added w (snd (_get_product_catalog fuel site w)) in
  List.length (requests evs) = N /\
  ~ In (page_url site (S N)) (requests evs).

(** What a run over [n] pages of products starting after page [i0]
    adds to the log. *)
Definition page_events (site : string) (i0 n : nat) : list event :=
  (flat_map (fun k => [Request (page_url site k) Config.REQUEST_TIMEOUT;
                     Sleep Config.DELAY_BETWEEN_REQUESTS])
          (seq (S i0) n)
  ++ [Request (page_url site (S (i0 + n))) Config.REQUEST_TIMEOUT])%list.

End WithLibrary.

End Pagination.

(** ** A small shop, for the scenarios *)

Module Shop.
Import Fetch Catalog Pagination.

(** A library that is adequate where the scenarios use it: [urljoin] of
    an absolute path onto a base URL keeps the scheme and the host of the
    base, [str] is applied to scalars, texts hold no character
    references. *)
Definition origin_of (base : string) : string :=
  match Helpers.urlsplit base with
  | Ok r => Helpers.scheme r ++ "://" ++ Helpers.netloc r
  | _ => EmptyString
  end.

Definition plain_library : Library :=
  {| urljoin := fun base ref => origin_of base ++ ref;
     str_of := fun v => match Val.to_str v with
                        | Some s => s
                        | None => EmptyString
                        end;
     unescape_references := fun s => s |}.

Definition quote : string := String (ascii_of_nat 34) EmptyString.

Definition site : string := "https://shop.example".

Definition socks : pyval :=
  PDict [("id", PInt 1); ("title", PStr "Socks"); ("handle", PStr "socks");
         ("body_html", PStr "Warm  socks");
         ("tags", PStr "wool,winter");
         ("variants", PList [PDict [("price", PStr "9.99")]]);
         ("images", PList [PDict [("src", PStr "https://cdn.example/socks.png")]])].

Definition page_one : response :=
  Response 200 "OK" []
    (Body ("{" ++ quote ++ "products" ++ quote ++ ": [socks]}")
          (Some (PDict [("products", PList [socks])]))
          (Text "products: socks")).

Definition page_two : response :=
  Response 200 "OK" []
    (Body ("{" ++ quote ++ "products" ++ quote ++ ": []}")
          (Some (PDict [("products", PList [])]))
          (Text "products:")).

Definition unreachable : http_outcome :=
  Fails (Exn RequestException "Connection refused").

(** The catalog of the shop: one page with one product, then the empty
    page; nothing else answers. *)
Definition shop_net (url : string) (_ : nat) : http_outcome :=
  if String.eqb url "https://shop.example/products.json?limit=250&page=1"
  then Responds page_one
  else if String.eqb url "https://shop.example/products.json?limit=250&page=2"
  then Responds page_two
  else unreachable.

Definition shop_world : world :=
  World shop_net [] Models.empty_session.

Definition socks_record : pyval :=
  PDict [("shopify_id", PInt 1); ("title", PStr "Socks");
         ("handle", PStr "socks"); ("description", PStr "Warm socks");
         ("vendor", PNone); ("product_type", PNone);
         ("tags", PList [PStr "wool"; PStr "winter"]);
         ("product_url", PStr "https://shop.example/products/socks");
         ("created_at", PNone); ("updated_at", PNone);
         ("available", PBool true);
         ("variants", PList [PDict [("price", PStr "9.99")]]);
         ("images", PList [PDict [("src", PStr "https://cdn.example/socks.png")]]);
         ("options", PList []);
         ("price", PStr "9.99"); ("compare_at_price", PNone);
         ("featured_image", PStr "https://cdn.example/socks.png")].

End Shop.


(** ** app/services/scraper.py: the extraction passes

    The passes the properties below do not speak about are parameters of
    the development: each may return any value, the ones that resolve links
    may raise. *)

Class Passes : Type := {
    extract_phone_numbers : string -> list string;
    extract_social_handles : string -> pyval;
    extract_important_links : string -> string -> result pyval;
    _extract_faqs : node -> string -> result pyval;
    _extract_hero_products : node -> string -> result pyval
  }.

Module Extract.
Import Py.

Section WithLibrary.
Context {lib : Library} {order : SetOrder} {passes : Passes}.

(** A string that may still be [None]. *)
Definition is_set (s : option string) : bool :=
  match s with Some t => truthy t | None => false end.

(** [a or b] on attribute values. *)
Definition or_else (a : option string) (b : string) : string :=
  match a with
  | Some s => if truthy s then s else b
  | None => b
  end.

Definition site_name_metas (soup : node) : list node :=
  Soup.find_all (fun n => Soup.named "meta" n &&
                        Soup.attr_in "property"
                                     ["og:site_name"; "twitter:site"] n)
              soup.

(** The name after the [<title>] step: [None] without a title tag. *)
Definition name_from_title (soup : node) : option string :=
  match Soup.find (Soup.named "title") soup with
  | Some title_tag => Some (Helpers.clean_text (Soup.get_text title_tag))
  | None => None
  end.

(** The loop over the [og:site_name] and [twitter:site] metas: the first
    one with content sets the name and ends the loop. *)
Fixpoint name_from_metas (metas : list node) (brand_name : option string)
  : option string :=
  match metas with
  | [] => brand_name
  | meta_tag :: rest =>
    if is_set (Soup.attr meta_tag "content")
    then Some (Helpers.clean_text (or_else (Soup.attr meta_tag "content")
                                           EmptyString))
    else name_from_metas rest brand_name
  end.

Definition name_from_header (soup : node) (brand_name : option string)
  : option string :=
  if negb (is_set brand_name) then
  match Soup.find (Soup.named "header") soup with
  | Some header =>
      match Soup.find (fun n => Soup.named_in ["img"; "h1"; "h2"] n &&
                                Soup.has_attr "alt" n &&
                                Soup.has_attr "title" n) header with
      | Some logo =>
          Some (Helpers.clean_text
                  (or_else (Soup.attr logo "alt")
                     (or_else (Soup.attr logo "title") (Soup.get_text logo))))
      | None => brand_name
      end
  | None => brand_name
  end
  else brand_name.

(** [extract_domain(website_url).split('.')[0].title()] *)
Definition name_from_domain (website_url : string) : result string :=
  domain <~ Helpers.extract_domain website_url ;;
  Ok (title (hd EmptyString (split "." domain))).

Definition extract_name (soup : node) (website_url : string) : result string :=
  (* Try to get from title *)
  let brand_name := name_from_title soup in
  (* Try to get from meta property *)
  let brand_name := name_from_metas (site_name_metas soup) brand_name in
  (* Try to get from header or logo *)
  let brand_name := name_from_header soup brand_name in
  (* Fallback to domain *)
  match brand_name with
  | Some s => if truthy s then Ok s else name_from_domain website_url
  | None => name_from_domain website_url
  end.

Definition extract_context (soup : node) : string :=
  let brand_context := EmptyString in
  (* Try meta description *)
  let brand_context :=
  match Soup.find (fun n => Soup.named "meta" n &&
                            Soup.attr_in "name" ["description"] n) soup with
  | Some meta_desc =>
      if is_set (Soup.attr meta_desc "content")
      then Helpers.clean_text (or_else (Soup.attr meta_desc "content")
                                       EmptyString)
      else brand_context
  | None => brand_context
  end in
  (* Try to find about section *)
  let brand_context :=
  match Soup.find (fun n => Soup.named_in ["section"; "div"] n &&
                            Soup.attr_where "class"
                              (fun x => truthy x && contains "about" (lower x))
                              n) soup with
  | Some about_section =>
      let about_text := Helpers.clean_text (Soup.get_text about_section) in
      if len brand_context <? len about_text then about_text
      else brand_context
  | None => brand_context
  end in
  Helpers.truncate_text brand_context 1000.

(** [_extract_basic_info(soup, website_url)] *)
Definition _extract_basic_info (soup : node) (website_url : string)
  : result Val.dict :=
  brand_name <~ extract_name soup website_url ;;
  Ok [("name", PStr brand_name);
    ("brand_context", PStr (extract_context soup))].

Definition skipped_addresses : list string :=
  ["no-reply"; "noreply"; "donotreply"; "example.com"].

(** The filter of the contact pass: no skipped word occurs in the
    lower-cased address. *)
Definition is_contact_address (email : string) : bool :=
  negb (existsb (fun skip => contains skip (lower email)) skipped_addresses).

Definition choose_email (emails : list string) : option string :=
  match emails with
  | [] => None
  | first :: _ =>
    let filtered_emails := filter is_contact_address emails in
    Some (hd first filtered_emails)
  end.

(** [_extract_contact_info(html_content, soup)] *)
Definition _extract_contact_info (html_content : string) (soup : node)
  : Val.dict :=
  let result : Val.dict := [] in
  (* Extract email addresses *)
  let emails := Helpers.extract_email_addresses html_content in
  let result :=
  match choose_email emails with
  | Some email => Val.set "contact_email" (PStr email) result
  | None => result
  end in
  (* Extract phone numbers *)
  let phones := extract_phone_numbers html_content in
  match phones with
  | phone :: _ => Val.set "contact_phone" (PStr phone) result
  | [] => result
  end.

End WithLibrary.

End Extract.

(** ** Scenarios for the extraction passes *)

Module Homepage.

(** A set order: the distinct matches, last one first. *)
Definition last_first : SetOrder :=
  {| set_to_list := fun l => rev (nodup string_dec l);
     set_to_list_distinct :=
       fun l => Permutation_sym (Permutation_rev (nodup string_dec l)) |}.

(** Passes that find nothing. *)
Definition quiet_passes : Passes :=
  {| extract_phone_numbers := fun _ => [];
     extract_social_handles := fun _ => PDict [];
     extract_important_links := fun _ _ => Ok (PDict []);
     _extract_faqs := fun _ _ => Ok (PList []);
     _extract_hero_products := fun _ _ => Ok (PList []) |}.

(** A homepage with a title and a site-name meta. *)
Definition acme_soup : node :=
  Element "[document]" []
    [Element "html" []
       [Element "head" []
          [Element "title" [] [Text "Acme Co"];
           Element "meta" [("property", "og:site_name");
                           ("content", "Acme Store")] []];
        Element "body" []
          [Element "p" [] [Text "Write to first@acme.example or second@acme.example"]]]].

Definition acme_html : string :=
  "<html><head><title>Acme Co</title><meta property=og:site_name content='Acme Store'></head><body><p>Write to first@acme.example or second@acme.example</p></body></html>".


(** The name clause as the specification words it: with a title whose
    cleaned text is not empty, that text is the name. *)
Definition title_wins {lib : Library} (soup : node) (website_url : string) : Prop :=
  forall t,
    Extract.name_from_title soup = Some t -> t <> EmptyString ->
    Extract.extract_name soup website_url = Ok t.

End Homepage.

(** ** app/services/scraper.py: policies and the whole scrape *)

Module Site.
Import Py Fetch.

(** The local variables of [scrape_store] that its handler reads:
    [website_url], which the body re-binds, and [domain], which is unbound
    until the body has extracted it. *)
Record locals : Type := Locals {
  website_url : string;
  domain : option string
  }.

Section WithLibrary.
Context {lib : Library} {order : SetOrder} {passes : Passes}.

(** [BeautifulSoup(content, 'html.parser')] *)
Definition BeautifulSoup (content : option text) : result node :=
  match content with
  | Some t => Ok (soup t)
  | None => Raise (Exn TypeError "object of type 'NoneType' has no len()")
  end.

Definition policies : list (string * list string) :=
  [("privacy_policy", ["privacy"; "privacy-policy"]);
  ("return_policy", ["return"; "returns"; "return-policy"]);
  ("refund_policy", ["refund"; "refunds"; "refund-policy"])].

(** The text of the policy page behind [policy_url], the empty string when
    anything goes wrong on the way. *)
Definition fetch_policy_text (policy_url : string) : M string :=
  try_except
  (policy_content <- _fetch_page policy_url None ;;
   policy_soup <- lift (BeautifulSoup policy_content) ;;
   (* Remove navigation and footer *)
   let policy_soup :=
     Soup.without (Soup.named_in ["nav"; "header"; "footer"]) policy_soup in
   let policy_text := Helpers.clean_text (Soup.get_text policy_soup) in
   ret (Helpers.truncate_text policy_text 2000))
  any_exception
  (fun _ => ret EmptyString).

(** The loop over the keywords of one policy type: the URL ([None] when no
    link matches) and the text. *)
Definition find_policy (soup : node) (website_url : string)
         (keywords : list string) : M (pyval * string) :=
  found <- for_each keywords
  (fun keyword =>
     match Soup.find (fun n => Soup.named "a" n &&
                               Soup.attr_where "href"
                                 (fun x => truthy x && contains keyword (lower x))
                                 n) soup with
     | Some link =>
         let policy_url :=
           Helpers.normalize_url
             (Extract.or_else (Soup.attr link "href") EmptyString)
             website_url in
         policy_text <- fetch_policy_text policy_url ;;
         ret (Return (PStr policy_url, policy_text))
     | None => ret Continue
     end) ;;
  ret (match found with
     | Some r => r
     | None => (PNone, EmptyString)
     end).

Fixpoint policies_loop (soup : node) (website_url : string)
       (ps : list (string * list string)) (result : Val.dict) : M Val.dict :=
  match ps with
  | [] => ret result
  | (policy_type, keywords) :: rest =>
    r <- find_policy soup website_url keywords ;;
    let result := Val.set (policy_type ++ "_url") (fst r) result in
    let result := Val.set (policy_type ++ "_text") (PStr (snd r)) result in
    policies_loop soup website_url rest result
  end.

(** [_extract_policies(soup, website_url)] *)
Definition _extract_policies (soup : node) (website_url : string) : M Val.dict :=
  policies_loop soup website_url policies [].

(** [html_content] as the string the text passes scan. *)
Definition raw_of (html_content : option text) : string :=
  match html_content with Some t => raw t | None => EmptyString end.

Definition set_website_url (u : string) : ST (world * locals) unit :=
  fun s => (Ok tt, (fst s, Locals u (domain (snd s)))).
Definition set_domain (d : string) : ST (world * locals) unit :=
  fun s => (Ok tt, (fst s, Locals (website_url (snd s)) (Some d))).

(** The body of the [try] of [scrape_store] from the fetch of the homepage
    on; it no longer assigns [website_url] or [domain]. *)
Definition scrape_pipeline (fuel : nat) (website_url domain : string)
  : M Val.dict :=
  (* Get main page content *)
  html_content <- _fetch_page website_url None ;;
  (* Check if it's a Shopify store *)
  let is_shopify :=
  match html_content with
  | Some t => Helpers.is_shopify_store (raw t) website_url
  | None => false
  end in
  (* Initialize result *)
  let result : Val.dict :=
  [("website_url", PStr website_url);
   ("domain", PStr domain);
   ("is_shopify_store", PBool is_shopify);
   ("scraping_status", PStr "completed");
   ("scraping_errors", PNone)] in
  (* Parse main page *)
  soup <- lift (BeautifulSoup html_content) ;;
  let html_content := raw_of html_content in
  (* Extract basic information *)
  basic_info <- lift (Extract._extract_basic_info soup website_url) ;;
  let result := Val.update result basic_info in
  (* Extract contact information *)
  let result :=
  Val.update result (Extract._extract_contact_info html_content soup) in
  (* Extract social media handles *)
  let result :=
  Val.set "social_handles" (extract_social_handles html_content) result in
  (* Extract important links *)
  important_links <- lift (extract_important_links html_content website_url) ;;
  let result := Val.set "important_links" important_links result in
  (* Extract policies *)
  policy_info <- _extract_policies soup website_url ;;
  let result := Val.update result policy_info in
  (* Extract FAQs *)
  faqs <- lift (_extract_faqs soup website_url) ;;
  let result := Val.set "faqs" faqs result in
  (* Extract hero products (products on homepage) *)
  hero_products <- lift (_extract_hero_products soup website_url) ;;
  let result := Val.set "hero_products" hero_products result in
  (* Get product catalog if it's a Shopify store *)
  if is_shopify then
  product_catalog <-
    try_except
      (Catalog._get_product_catalog fuel website_url)
      any_exception
      (fun _ => ret []) ;;
  ret (Val.set "product_catalog" (PList product_catalog) result)
  else ret result.

(** The body of the [try] of [scrape_store]. *)
Definition scrape_body (fuel : nat) : ST (world * locals) Val.dict :=
  l <- get_local ;;
  (* Normalize URL *)
  (if negb (startswith (website_url l) "http://" ||
          startswith (website_url l) "https://")
  then set_website_url ("https://" ++ website_url l)
  else ret tt) ;;;
  l <- get_local ;;
  let website_url := website_url l in
  domain <- lift (Helpers.extract_domain website_url) ;;
  set_domain domain ;;;
  with_locals (scrape_pipeline fuel website_url domain).

(** What the handler returns for the exception [e]. *)
Definition failed_result (website_url domain : string) (e : exn) : Val.dict :=
  [("website_url", PStr website_url);
  ("domain", PStr domain);
  ("is_shopify_store", PBool false);
  ("scraping_status", PStr "failed");
  ("scraping_errors", PStr (str_exn e))].

(** The [except Exception] clause of [scrape_store]. *)
Definition scrape_failed (e : exn) : ST (world * locals) Val.dict :=
  l <- get_local ;;
  domain <- match domain l with
          | Some d => ret d
          | None => lift (Helpers.extract_domain (website_url l))
          end ;;
  ret (failed_result (website_url l) domain e).

(** [scrape_store(website_url)]; [fuel] bounds the rounds of the catalog
    pagination. *)
Definition scrape_store (fuel : nat) (website_url : string) : M Val.dict :=
  fun w =>
  let (r, s) :=
    try_except (scrape_body fuel) any_exception scrape_failed
               (w, Locals website_url None) in
  (r, fst s).

(** [website_url] as the body re-binds it. *)
Definition qualified (website_url : string) : string :=
  if negb (startswith website_url "http://" ||
         startswith website_url "https://")
  then "https://" ++ website_url
  else website_url.

End WithLibrary.

End Site.

(** ** The session at work

    Every round trip to the database first consults the faults that lie
    ahead; a fault raises and leaves the transaction as it was. *)

Module Db.
Import Models.

Definition put_db (s : session) : M unit :=
  fun w => (Ok tt, World (net w) (log w) s).

Definition get_db : M session := fun w => (Ok (db w), w).

Definition round_trip : M unit :=
  fun w =>
    let s := db w in
    match faults s with
    | Some e :: rest =>
        (Raise e, World (net w) (log w) (Session (committed s) (pending s) rest))
    | None :: rest =>
        (Ok tt, World (net w) (log w) (Session (committed s) (pending s) rest))
    | [] => (Ok tt, w)
    end.

(** [Brand.query.filter_by(domain=domain).first()] *)
Definition first_brand_by_domain (domain : string) : M (option obj) :=
  round_trip ;;;
  s <- get_db ;;
  ret (option_map of_row (hd_error (brands_of_domain domain (pending s)))).

(** [db.session.add(obj)] *)
Definition add (o : obj) : obj := Obj (obj_id o) true (obj_attrs o).

(** [db.session.commit()], [brand] being the instance the session tracks. *)
Definition commit (brand : obj) : M obj :=
  round_trip ;;;
  s <- get_db ;;
  let (brand, t) := flush_brand brand (pending s) in
  put_db (Session t t (faults s)) ;;;
  ret brand.

(** [Product.query.filter_by(brand_id=brand.id).delete()]: the pending
    changes are flushed, then the rows are deleted in the transaction. *)
Definition delete_products (brand : obj) : M obj :=
  round_trip ;;;
  s <- get_db ;;
  let (brand, t) := flush_brand brand (pending s) in
  put_db (Session (committed s) (delete_products_of (id_val brand) t) (faults s)) ;;;
  ret brand.

(** [db.session.add(Product(...))] *)
Definition add_product (attrs : Val.dict) : M unit :=
  s <- get_db ;;
  put_db (Session (committed s) (insert_product attrs (pending s)) (faults s)).

(** [db.session.add(competitor)] followed by [db.session.commit()] *)
Definition add_competitor_and_commit (brand : obj) (attrs : Val.dict)
  : M (obj * obj) :=
  round_trip ;;;
  s <- get_db ;;
  let (brand, t) := flush_brand brand (pending s) in
  let (competitor, t) := insert_competitor attrs t in
  put_db (Session t t (faults s)) ;;;
  ret (brand, competitor).

(** [db.session.add(analysis)] followed by [db.session.commit()] *)
Definition add_analysis_and_commit (brand : obj) (attrs : Val.dict) : M obj :=
  round_trip ;;;
  s <- get_db ;;
  let (brand, t) := flush_brand brand (pending s) in
  put_db (Session (insert_analysis attrs t) (insert_analysis attrs t) (faults s)) ;;;
  ret brand.

(** [db.session.rollback()]: the transaction is dropped and the instance is
    read again from the committed state. *)
Definition rollback (brand : obj) : M obj :=
  s <- get_db ;;
  put_db (Session (committed s) (committed s) (faults s)) ;;;
  ret (match obj_id brand with
       | Some i =>
           match find_row i (brands (committed s)) with
           | Some r => of_row r
           | None => brand
           end
       | None => brand
       end).

End Db.

(** ** The services behind the orchestrator that are taken as given

    The text-generation service ([None] stands for a missing API key, which
    leaves the facts as they are), the scoring of a competitor and the
    comparative report. *)

Class Collaborators : Type := {
    llm_analysis : Val.dict -> option pyval;
    _analyze_competitor_strengths : Val.dict -> result pyval;
    generate_competitive_report : Val.dict -> list pyval -> pyval
  }.

Module Llm.

(** [process_brand_context(scraped_data)]: the facts, with the key
    [llm_analysis] added when the service is configured. *)
Definition process_brand_context {services : Collaborators}
           (scraped_data : Val.dict) : Val.dict :=
  match llm_analysis scraped_data with
  | Some analysis => Val.set "llm_analysis" analysis scraped_data
  | None => scraped_data
  end.

End Llm.

(** ** app/services/competitor_analyzer.py *)

Module CompetitorAnalyzer.

Section WithLibrary.
Context {lib : Library} {order : SetOrder} {passes : Passes}
    {services : Collaborators}.

Definition common_stores : list string :=
  ["gymshark.com"; "allbirds.com"; "colourpop.com"; "bombas.com";
  "casper.com"; "warbyparker.com"; "glossier.com"; "away.com";
  "outdoor-voices.com"; "everlane.com"].

(** [find_competitors(brand_name)] *)
Definition find_competitors (brand_name : pyval) : list string :=
  firstn 3 common_stores.

(** [analyze_competitor(competitor_url)] *)
Definition analyze_competitor (fuel : nat) (competitor_url : string)
  : M Val.dict :=
  try_except
  ((* Scrape competitor data *)
   competitor_data <- Site.scrape_store fuel competitor_url ;;
   if Val.eq_str (Val.get competitor_data "scraping_status") "failed"
   then ret competitor_data
   else
     (* Process with LLM *)
     let competitor_data := Llm.process_brand_context competitor_data in
     (* Add competitor-specific analysis *)
     analysis <- lift (_analyze_competitor_strengths competitor_data) ;;
     ret (Val.set "competitor_analysis" analysis competitor_data))
  any_exception
  (fun e => ret [("website_url", PStr competitor_url);
                 ("scraping_status", PStr "failed");
                 ("scraping_errors", PStr (str_exn e))]).

End WithLibrary.

End CompetitorAnalyzer.

(** ** app/services/brand_analyzer.py *)

Module BrandAnalyzer.
Import Models.

(** The state a method of the service runs over: the world and the local
    variable [brand], unbound ([None]) until the method assigns it.  The
    instance it holds is the one the session tracks. *)
Definition State : Type := (world * option obj)%type.

Section WithLibrary.
Context {lib : Library} {order : SetOrder} {passes : Passes}
    {services : Collaborators}.

Definition the_brand : ST State obj :=
  l <- get_local ;;
  match l with
  | Some brand => ret brand
  | None => raise (Exn AttributeError "local variable 'brand' is not bound")
  end.

(** A change made to the instance that [brand] holds. *)
Definition modify_brand (f : obj -> obj) : ST State unit :=
  brand <- the_brand ;;
  set_local (Some (f brand)).

(** [brand.k = v] *)
Definition set_brand (k : string) (v : pyval) : ST State unit :=
  modify_brand (setattr k v).

(** A session operation that takes the tracked instance and gives it back. *)
Definition on_brand (op : obj -> M obj) : ST State unit :=
  brand <- the_brand ;;
  brand <- with_locals (op brand) ;;
  set_local (Some brand).

Definition brand_columns : list string :=
  ["name"; "website_url"; "domain"; "brand_context"; "contact_email";
  "contact_phone"; "social_handles"; "privacy_policy_url";
  "privacy_policy_text"; "return_policy_url"; "return_policy_text";
  "refund_policy_url"; "refund_policy_text"; "faqs"; "important_links";
  "hero_products"; "is_shopify_store"; "scraping_status"].

(** [Brand.to_dict] *)
Definition brand_to_dict (brand : obj) : Val.dict :=
  ("id", id_val brand) :: map (fun k => (k, getattr brand k)) brand_columns.

Definition scraped_columns : list string :=
  ["name"; "brand_context"; "contact_email"; "contact_phone";
  "social_handles"; "privacy_policy_url"; "privacy_policy_text";
  "return_policy_url"; "return_policy_text"; "refund_policy_url";
  "refund_policy_text"; "faqs"; "important_links"; "hero_products"].

(** [_update_brand_from_scraped_data(brand, data)] *)
Definition _update_brand_from_scraped_data (brand : obj) (data : Val.dict)
  : obj :=
  let brand :=
  fold_left (fun b k => setattr k (Val.get data k) b) scraped_columns brand in
  setattr "is_shopify_store"
        (Val.get_default data "is_shopify_store" (PBool false)) brand.

Fixpoint map_result {A B} (f : A -> result B) (l : list A) : result (list B) :=
  match l with
  | [] => Ok []
  | a :: l' => b <~ f a ;; bs <~ map_result f l' ;; Ok (b :: bs)
  end.

(** The keyword arguments of [Product(...)] in [_save_products]. *)
Definition product_attrs (brand : obj) (product_data : pyval)
  : result Val.dict :=
  match product_data with
  | PDict d =>
    images <~ Catalog.iterate (Val.get_default d "images" (PList [])) ;;
    image_urls <~ map_result (fun img => Catalog.get img "src" PNone) images ;;
    Ok [("brand_id", id_val brand);
        ("shopify_id", Val.get d "shopify_id");
        ("handle", Val.get d "handle");
        ("title", Val.get d "title");
        ("description", Val.get d "description");
        ("vendor", Val.get d "vendor");
        ("product_type", Val.get d "product_type");
        ("tags", Val.get d "tags");
        ("price", Val.get d "price");
        ("compare_at_price", Val.get d "compare_at_price");
        ("product_url", Val.get d "product_url");
        ("image_urls", PList image_urls);
        ("featured_image", Val.get d "featured_image");
        ("available", Val.get_default d "available" (PBool true));
        ("variants", Val.get d "variants")]
  | _ => Raise (Catalog.no_attribute product_data "get")
  end.

(** [_save_products(brand, products_data)] *)
Definition _save_products (products_data : pyval) : ST State unit :=
  try_except
  ((* Clear existing products *)
   on_brand Db.delete_products ;;;
   items <- lift (Catalog.iterate products_data) ;;
   for_each items
     (fun product_data =>
        brand <- the_brand ;;
        attrs <- lift (product_attrs brand product_data) ;;
        with_locals (Db.add_product attrs) ;;;
        ret (@Continue unit)) ;;;
   on_brand Db.commit)
  any_exception
  (fun _ => on_brand Db.rollback).

Definition competitor_columns : list string :=
  ["name"; "website_url"; "domain"; "brand_context"; "contact_email";
  "contact_phone"; "social_handles"; "privacy_policy_url";
  "privacy_policy_text"; "return_policy_url"; "return_policy_text";
  "refund_policy_url"; "refund_policy_text"; "faqs"; "important_links";
  "hero_products"].

(** The keyword arguments of [Competitor(...)] in [_save_competitor]. *)
Definition competitor_attrs (brand : obj) (competitor_data : Val.dict)
  : Val.dict :=
  (("brand_id", id_val brand)
   :: map (fun k => (k, Val.get competitor_data k)) competitor_columns
   ++ [("is_shopify_store",
        Val.get_default competitor_data "is_shopify_store" (PBool false));
       ("scraping_status", Val.get competitor_data "scraping_status");
       ("scraping_errors", Val.get competitor_data "scraping_errors")])%list.

(** [Competitor.to_dict] *)
Definition competitor_to_dict (competitor : obj) : Val.dict :=
  (("id", id_val competitor)
   :: ("brand_id", getattr competitor "brand_id")
   :: map (fun k => (k, getattr competitor k)) competitor_columns
   ++ [("estimated_revenue", getattr competitor "estimated_revenue");
       ("market_position", getattr competitor "market_position");
       ("is_shopify_store", getattr competitor "is_shopify_store");
       ("scraping_status", getattr competitor "scraping_status")])%list.

(** [_save_competitor(brand, competitor_data)] *)
Definition _save_competitor (competitor_data : Val.dict) : ST State obj :=
  brand <- the_brand ;;
  saved <- with_locals
           (Db.add_competitor_and_commit
              brand (competitor_attrs brand competitor_data)) ;;
  set_local (Some (fst saved)) ;;;
  ret (snd saved).

(** The loop of [_analyze_competitors] with the list it builds. *)
Fixpoint competitors_loop (fuel : nat) (competitor_urls : list string)
       (competitors_data : list pyval) : ST State (list pyval) :=
  match competitor_urls with
  | [] => ret competitors_data
  | url :: rest =>
    competitor_data <-
      with_locals (CompetitorAnalyzer.analyze_competitor fuel url) ;;
    if Val.eq_str (Val.get competitor_data "scraping_status") "completed"
    then
      (* Save competitor to database *)
      competitor <- _save_competitor competitor_data ;;
      competitors_loop fuel rest
        (competitors_data ++ [PDict (competitor_to_dict competitor)])
    else competitors_loop fuel rest competitors_data
  end.

(** [_analyze_competitors(brand)] *)
Definition _analyze_competitors (fuel : nat) : ST State (list pyval) :=
  try_except
  (brand <- the_brand ;;
   (* Find competitors *)
   let competitor_urls :=
     CompetitorAnalyzer.find_competitors (getattr brand "name") in
   (* Analyze competitors *)
   competitors_loop fuel competitor_urls [])
  any_exception
  (fun _ => ret []).

(** [_save_analysis(brand, analysis_type, analysis_data)] for the one type
    the service saves. *)
Definition _save_analysis (analysis_data : pyval) : ST State unit :=
  on_brand (fun brand =>
  Db.add_analysis_and_commit brand
    [("brand_id", id_val brand);
     ("analysis_type", PStr "competitor_analysis");
     ("title", PStr ("Competitor Analysis for "
                     ++ str_of (getattr brand "name")));
     ("description", PStr "Automated competitor_analysis analysis");
     ("results", analysis_data);
     ("analysis_status", PStr "completed")]).

(** The body of the [try] of [analyze_brand] up to the first commit: the
    brand of the domain is looked up or created, marked [in_progress] and
    made persistent. *)
Definition analyze_start (website_url : string) : ST State unit :=
  (* Check if brand already exists *)
  domain <- lift (Helpers.extract_domain website_url) ;;
  existing_brand <- with_locals (Db.first_brand_by_domain domain) ;;
  set_local (Some (match existing_brand with
                   | Some brand => brand
                   | None => new_obj []
                   end)) ;;;
  (* Update brand status *)
  set_brand "scraping_status" (PStr "in_progress") ;;;
  set_brand "website_url" (PStr website_url) ;;;
  set_brand "domain" (PStr domain) ;;;
  (match existing_brand with
   | Some _ => ret tt
   | None => modify_brand Db.add
   end) ;;;
  on_brand Db.commit.

(** The competitor part of [analyze_brand], entered with the result built
    so far. *)
Definition analyze_competition (fuel : nat) (result : Val.dict)
  : ST State Val.dict :=
  competitors_data <- _analyze_competitors fuel ;;
  let result := Val.set "competitors" (PList competitors_data) result in
  (* Generate competitive analysis *)
  brand <- the_brand ;;
  let competitive_report :=
    generate_competitive_report (brand_to_dict brand) competitors_data in
  let result := Val.set "competitive_analysis" competitive_report result in
  (* Save competitive analysis *)
  _save_analysis competitive_report ;;;
  ret result.

(** The body from the scrape on. *)
Definition analyze_rest (fuel : nat) (website_url : string)
           (include_competitors : bool) : ST State Val.dict :=
  (* Scrape brand data *)
  scraped_data <- with_locals (Site.scrape_store fuel website_url) ;;
  if Val.eq_str (Val.get scraped_data "scraping_status") "failed" then
    set_brand "scraping_status" (PStr "failed") ;;;
    set_brand "scraping_errors" (Val.get scraped_data "scraping_errors") ;;;
    on_brand Db.commit ;;;
    brand <- the_brand ;;
    ret [("error", PStr "Failed to scrape brand data");
         ("brand_id", id_val brand)]
  else
    (* Process with LLM *)
    let processed_data := Llm.process_brand_context scraped_data in
    (* Update brand with scraped data *)
    modify_brand
      (fun brand => _update_brand_from_scraped_data brand processed_data) ;;;
    (* Save products *)
    (if Val.truthy (Val.get processed_data "product_catalog")
     then _save_products (Val.get processed_data "product_catalog")
     else ret tt) ;;;
    (* Update scraping status *)
    set_brand "scraping_status" (PStr "completed") ;;;
    on_brand Db.commit ;;;
    brand <- the_brand ;;
    let result : Val.dict :=
      [("brand_id", id_val brand);
       ("brand_data", PDict (brand_to_dict brand));
       ("analysis_status", PStr "completed")] in
    (* Analyze competitors if requested *)
    if include_competitors then analyze_competition fuel result
    else ret result.

(** The body of the [try] of [analyze_brand]. *)
Definition analyze_body (fuel : nat) (website_url : string)
           (include_competitors : bool) : ST State Val.dict :=
  analyze_start website_url ;;;
  analyze_rest fuel website_url include_competitors.

(** The [except Exception] clause of [analyze_brand]. *)
Definition analyze_failed (e : exn) : ST State Val.dict :=
  l <- get_local ;;
  match l with
  | Some _ =>
    (* Update brand status *)
    set_brand "scraping_status" (PStr "failed") ;;;
    set_brand "scraping_errors" (PStr (str_exn e)) ;;;
    on_brand Db.commit ;;;
    brand <- the_brand ;;
    ret [("error", PStr (str_exn e)); ("brand_id", id_val brand)]
  | None => ret [("error", PStr (str_exn e))]
  end.

(** [analyze_brand(website_url, include_competitors)] *)
Definition analyze_brand (fuel : nat) (website_url : string)
         (include_competitors : bool) : M Val.dict :=
  fun w =>
  let (r, s) :=
    try_except (analyze_body fuel website_url include_competitors)
               any_exception analyze_failed (w, None) in
  (r, fst s).

End WithLibrary.

End BrandAnalyzer.

(** ** Computations that do not look at the database

    The scraper never touches the session.  [oblivious c] says that
    running [c] with another session in place gives the same outcome and
    leaves that session in place. *)

Class HasDb (S : Type) : Type := { with_db : Models.session -> S -> S }.

#[global] Instance world_has_db : HasDb world :=
  {| with_db := fun d w => World (net w) (log w) d |}.

#[global] Instance locals_have_db {L : Type} : HasDb (world * L) :=
  {| with_db := fun d s => (World (net (fst s)) (log (fst s)) d, snd s) |}.

Definition oblivious {S A} `{HasDb S} (c : ST S A) : Prop :=
  forall (s : S) (d : Models.session),
    c (with_db d s) = (fst (c s), with_db d (snd (c s))).


(** ** The competitor batch: what is analysed and what is stored *)

Module Batch.
Import Models BrandAnalyzer.

Section WithLibrary.
Context {lib : Library} {order : SetOrder} {passes : Passes}
    {services : Collaborators}.

(** The analyses of the competitors one after the other. *)
Fixpoint analyses (fuel : nat) (urls : list string) (w : world)
  : list (result Val.dict) * world :=
  match urls with
  | [] => ([], w)
  | url :: rest =>
    let (r, w1) := CompetitorAnalyzer.analyze_competitor fuel url w in
    let (rs, w2) := analyses fuel rest w1 in
    (r :: rs, w2)
  end.

Definition returned (r : result Val.dict) : Prop := exists data, r = Ok data.

Definition values (rs : list (result Val.dict)) : list Val.dict :=
  flat_map (fun r => match r with Ok data => [data] | _ => [] end) rs.

Definition completed (competitor_data : Val.dict) : bool :=
  Val.eq_str (Val.get competitor_data "scraping_status") "completed".

(** Storing one competitor in a session that meets no fault: the instance
    that comes back and the session after the commit. *)
Definition stored (brand : obj) (data : Val.dict) (s : session) : obj :=
  fst (insert_competitor (competitor_attrs brand data)
                       (snd (flush_brand brand (pending s)))).

Definition after_store (brand : obj) (data : Val.dict) (s : session) : session :=
  let t := snd (insert_competitor (competitor_attrs brand data)
                                (snd (flush_brand brand (pending s)))) in
  Session t t (faults s).

Fixpoint store_all (brand : obj) (done : list Val.dict) (s : session)
  : list obj * session :=
  match done with
  | [] => ([], s)
  | data :: rest =>
    let (cs, s') := store_all brand rest (after_store brand data s) in
    (stored brand data s :: cs, s')
  end.

(** The row of a stored instance. *)
Definition row_of (o : obj) : row :=
  Row (match obj_id o with Some i => i | None => 0 end) (obj_attrs o).

End WithLibrary.

(** The competitor clause as the specification words it: a competitor
    whose scrape fails is recorded as a failed [CompetitorRecord], that is,
    the batch adds a row with the status [failed]. *)
Definition failure_recorded (before after : session) : Prop :=
  exists r,
    In r (competitors (committed after)) /\
    ~ In r (competitors (committed before)) /\
    Val.get (row_attrs r) "scraping_status" = PStr "failed".

(** Collaborators that add nothing. *)
Definition quiet_services : Collaborators :=
  {| llm_analysis := fun _ => None;
     _analyze_competitor_strengths := fun _ => Ok (PDict []);
     generate_competitive_report := fun _ _ => PDict [] |}.

(** Two of the three competitors are reachable, [gymshark.com] is not. *)
Definition plain_page (name : string) : response :=
  Response 200 "OK" []
    (Body ("<title>" ++ name ++ "</title>") None
          (Element "[document]" [] [Element "title" [] [Text name]])).

Definition market_net (url : string) (_ : nat) : http_outcome :=
  if String.eqb url "https://allbirds.com" then Responds (plain_page "Allbirds")
  else if String.eqb url "https://colourpop.com"
  then Responds (plain_page "ColourPop")
  else Fails (Exn RequestException "Connection refused").

Definition acme_brand : obj :=
  Obj (Some 1) true
      [("scraping_status", PStr "completed"); ("website_url", PStr "https://acme.example");
       ("domain", PStr "acme.example"); ("name", PStr "Acme Co")].

Definition acme_tables : tables :=
  Tables [Row 1 (obj_attrs acme_brand)] [] [] [] 2 1 1 1.

Definition market_world : world :=
  World market_net [] (Session acme_tables acme_tables []).

(** The batch of the brand on that market. *)
Definition market_run : result (list pyval) * State :=
  _analyze_competitors (lib := Shop.plain_library)
    (order := Homepage.last_first) (passes := Homepage.quiet_passes)
    (services := quiet_services) 5 (market_world, Some acme_brand).

End Batch.

(** ** Invariants of the orchestrator

    [holds Q i s]: the local [brand] is the persistent instance with key
    [i] and the session satisfies [Q].  [stable i Q] lists what the
    session operations of the service may do to a session without
    breaking [Q]. *)

Module Invariant.
Import Models BrandAnalyzer.

Definition persistent (i : Z) (b : obj) : Prop :=
  obj_id b = Some i /\ obj_attached b = true.

Definition tracks (i : Z) (l : option obj) : Prop :=
  exists b, l = Some b /\ persistent i b.

Definition holds (Q : session -> Prop) (i : Z) (s : State) : Prop :=
  tracks i (snd s) /\ Q (db (fst s)).

Definition preserves {A} (I : State -> Prop) (c : ST State A) : Prop :=
  forall s, I s -> I (snd (c s)).

(** One round trip used up. *)
Definition popped (s : session) : session :=
  Session (committed s) (pending s) (tl (faults s)).

Definition flushed (b : obj) (s : session) : tables :=
  snd (flush_brand b (pending s)).

Record stable (i : Z) (Q : session -> Prop) : Prop := Stable {
    stable_pop : forall s, Q s -> Q (popped s);
    stable_commit :
      forall b s, persistent i b -> Q s ->
                  Q (Session (flushed b s) (flushed b s) (faults s));
    stable_competitor :
      forall b attrs s, persistent i b -> Q s ->
        Q (Session (snd (insert_competitor attrs (flushed b s)))
                   (snd (insert_competitor attrs (flushed b s))) (faults s));
    stable_analysis :
      forall b attrs s, persistent i b -> Q s ->
        Q (Session (insert_analysis attrs (flushed b s))
                   (insert_analysis attrs (flushed b s)) (faults s));
    stable_rollback :
      forall s, Q s -> Q (Session (committed s) (committed s) (faults s))
  }.

Record stable_products (i : Z) (Q : session -> Prop) : Prop := StableProducts {
    stable_delete :
      forall b v s, persistent i b -> Q s ->
        Q (Session (committed s) (delete_products_of v (flushed b s)) (faults s));
    stable_insert :
      forall attrs s, Q s ->
        Q (Session (committed s) (insert_product attrs (pending s)) (faults s))
  }.

(** The brand with key [i] has its row, in the transaction and in the
    committed state. *)
Definition has_row (i : Z) (t : tables) : Prop :=
  In i (map row_id (brands t)).

Definition row_kept (i : Z) (s : session) : Prop :=
  has_row i (pending s) /\ has_row i (committed s).


(** The fault the next round trip meets, if any. *)
Definition fault_ahead (s : session) : option exn :=
  match faults s with Some e :: _ => Some e | _ => None end.

(** The world with the session [s]. *)
Definition with_session (w : world) (s : session) : world :=
  World (net w) (log w) s.

End Invariant.

(** ** The upsert: vocabulary *)

Module Upsert.
Import Models BrandAnalyzer Invariant.

(** The row [analyze_brand] finds for a domain, if there is one. *)
Definition existing_brand (domain : string) (s : session) : option row :=
  hd_error (brands_of_domain domain (pending s)).

(** The instance [analyze_brand] hands to its first commit: the one read
    from the row, or a new one added to the session, marked
    [in_progress]. *)
Definition prepared (website_url domain : string) (existing : option row)
  : obj :=
  let brand :=
    match existing with
    | Some r => of_row r
    | None => new_obj []
    end in
  let brand :=
    setattr "domain" (PStr domain)
      (setattr "website_url" (PStr website_url)
         (setattr "scraping_status" (PStr "in_progress") brand)) in
  match existing with
  | Some _ => brand
  | None => Db.add brand
  end.

(** The instance the handler of [analyze_brand] commits for [e]. *)
Definition marked_failed (e : exn) (b : obj) : obj :=
  setattr "scraping_errors" (PStr (str_exn e))
    (setattr "scraping_status" (PStr "failed") b).


(** The database goes away after the first commit of a run. *)
Definition gone_away : exn := Exn SQLAlchemyError "MySQL server has gone away".

Definition outage_world : world :=
  World (fun _ _ => Fails (Exn RequestException "Connection refused")) []
        (Session Batch.acme_tables Batch.acme_tables
                 [None; None; Some gone_away; Some gone_away]).






End Upsert.

(** ** Analysing a domain again: vocabulary *)

Module Reanalysis.
Import Models BrandAnalyzer Invariant Upsert.


Definition insert_all (al : list Val.dict) (t : tables) : tables :=
  fold_left (fun t attrs => insert_product attrs t) al t.

(** The keyword arguments [_save_products] builds from a catalogue, when
    the catalogue can be iterated and each entry yields them. *)
Definition product_rows (brand : obj) (catalog : pyval)
  : result (list Val.dict) :=
  items <~ Catalog.iterate catalog ;;
  map_result (product_attrs brand) items.


(** The tables [_save_products] commits for the rows [al]. *)
Definition saved (b : obj) (al : list Val.dict) (t : tables) : tables :=
  snd (flush_brand b
         (insert_all al
            (delete_products_of (id_val b) (snd (flush_brand b t))))).











Definition run (w : world) : result Val.dict * world :=
  analyze_brand (lib := Shop.plain_library) (order := Homepage.last_first)
    (passes := Homepage.quiet_passes) (services := Batch.quiet_services)
    5 Shop.site false w.


End Reanalysis.


(** ** app/utils/helpers.py: the rest of the URL and text helpers *)

Module Validation.
Import Py Helpers.

(** [validate_url_format(url)]: [all([result.scheme, result.netloc])], and
    [False] when [urlparse] raises. *)
Definition validate_url_format (url : string) : bool :=
  match urlsplit url with
  | Ok r => truthy (scheme r) && truthy (netloc r)
  | _ => false
  end.

End Validation.

(** Vocabulary for the texts [clean_text] returns and the URLs
    [normalize_url] returns. *)

Module Tidy.
Import Py.

(** The first character of [s] is not white space. *)
Definition starts_clean (s : string) : bool :=
  match s with
  | String c _ => negb (is_space c)
  | EmptyString => true
  end.

(** Every white space character of [s] is a blank that is followed by a
    character that is not white space. *)
Fixpoint single_spaced (s : string) : bool :=
  match s with
  | EmptyString => true
  | String c s' =>
      (negb (is_space c) ||
       (Ascii.eqb c " " &&
        match s' with
        | String d _ => negb (is_space d)
        | EmptyString => false
        end)) && single_spaced s'
  end.

(** Words separated by single blanks, nothing around them. *)
Definition tidy (s : string) : bool := starts_clean s && single_spaced s.

(** [k] slashes. *)
Fixpoint slashes (k : nat) : string :=
  match k with
  | O => EmptyString
  | S k' => String "/" (slashes k')
  end.

(** The URL [normalize_url] strips: [url] itself, or [url] joined onto
    the base when there is a base and [url] is not absolute. *)
Definition resolved {lib : Library} (url base_url : string) : string :=
  if truthy base_url &&
     negb (startswith url "http://" || startswith url "https://")
  then urljoin base_url url
  else url.

End Tidy.


(** ** The catalog when a page cannot be had: vocabulary *)

Module CatalogEnd.
Import Fetch Catalog Pagination.

Section WithLibrary.
Context {lib : Library}.

(** Every request to [url] fails at request level. *)
Definition fails_always (w : world) (url : string) : Prop :=
  forall n, request_failure url (net w url n) <> None.

(** [r] passes [raise_for_status] and its text is not JSON. *)
Definition not_json (r : response) : Prop :=
  accepted r /\ json (body r) = None.

(** The pages [pages] are served at page numbers 1, 2, ...; the page
    after them cannot be fetched, or what it holds is not JSON. *)
Definition cut_short (w : world) (site : string)
           (pages : list (response * list pyval)) : Prop :=
  (forall i r records,
      nth_error pages i = Some (r, records) ->
      serves w (page_url site (S i)) r /\ product_page site r records) /\
  (fails_always w (page_url site (S (List.length pages))) \/
   exists r, serves w (page_url site (S (List.length pages))) r /\
             not_json r).

(** The requests and pauses of [n] pages of products after page [i0]. *)
Definition pages_events (site : string) (i0 n : nat) : list event :=
  flat_map (fun k => [Request (page_url site k) Config.REQUEST_TIMEOUT;
                      Sleep Config.DELAY_BETWEEN_REQUESTS])
           (seq (S i0) n).

End WithLibrary.

(** A shop whose second page of products is out of reach. *)
Definition flaky_net (url : string) (_ : nat) : http_outcome :=
  if String.eqb url "https://shop.example/products.json?limit=250&page=1"
  then Responds Shop.page_one
  else Shop.unreachable.

Definition flaky_world : world := World flaky_net [] Models.empty_session.

End CatalogEnd.


(** ** From the scraped record to the stored row: vocabulary *)

Module Stored.
Import Catalog.

(** [img.get('src')] for an image that is an object. *)
Definition src_of (img : pyval) : pyval :=
  match img with
  | PDict a => Val.get a "src"
  | _ => PNone
  end.

Definition is_object (v : pyval) : Prop := exists d, v = PDict d.

(** What [_extract_policies] records for one policy: the URL of the page
    or [None], and a text of at most 2000 characters and the marker. *)
Definition policy_entry (u : pyval) (t : string) : Prop :=
  (u = PNone \/ exists s, u = PStr s) /\ Py.len t <= 2003.

End Stored.


(** ** app/services/competitor_analyzer.py: the rest of the service *)

Module Strengths.

(** [len(v)], which raises where [v] has no length. *)
Definition length_of (v : pyval) : result Z :=
  match Val.len v with
  | Some n => Ok n
  | None => Raise (Exn TypeError ("object of type '" ++ Val.type_name v
                                  ++ "' has no len()"))
  end.

(** [sum(1 for policy in policies if policy)] *)
Definition count_truthy (policies : list pyval) : Z :=
  Z.of_nat (List.length (filter Val.truthy policies)).

(** The lists [analysis['strengths']] and [analysis['weaknesses']] as the
    method fills them. *)
Definition marks : Type := (list string * list string)%type.

(** [if high: strengths.append(s) elif low: weaknesses.append(w)] *)
Definition mark (high : bool) (s : string) (low : bool) (w : string)
           (m : marks) : marks :=
  if high then ((fst m ++ [s])%list, snd m)
  else if low then (fst m, (snd m ++ [w])%list)
  else m.

(** [_analyze_competitor_strengths(competitor_data)] *)
Definition _analyze_competitor_strengths (competitor_data : Val.dict)
  : result pyval :=
  let analysis : marks := ([], []) in
  (* Analyze product catalog *)
  product_catalog <~
    length_of (Val.get_default competitor_data "product_catalog" (PList [])) ;;
  let analysis :=
    mark (100 <? product_catalog) "Large product catalog"
         (product_catalog <? 20) "Limited product range" analysis in
  (* Analyze social media presence *)
  social_handles <~
    length_of (Val.get_default competitor_data "social_handles" (PDict [])) ;;
  let analysis :=
    mark (3 <=? social_handles) "Strong social media presence"
         (social_handles <? 2) "Limited social media presence" analysis in
  (* Analyze hero products *)
  hero_products <~
    length_of (Val.get_default competitor_data "hero_products" (PList [])) ;;
  let analysis :=
    if 3 <=? hero_products
    then ((fst analysis ++ ["Good product merchandising"])%list, snd analysis)
    else analysis in
  (* Analyze FAQs *)
  faqs <~ length_of (Val.get_default competitor_data "faqs" (PList [])) ;;
  let analysis :=
    mark (5 <=? faqs) "Comprehensive customer support"
         (faqs <? 2) "Limited customer support information" analysis in
  (* Analyze policies *)
  let policy_count :=
    count_truthy [Val.get competitor_data "privacy_policy_text";
                  Val.get competitor_data "return_policy_text";
                  Val.get competitor_data "refund_policy_text"] in
  let analysis :=
    mark (3 <=? policy_count) "Comprehensive policy documentation"
         (policy_count <? 2) "Incomplete policy information" analysis in
  Ok (PDict [("strengths", PList (map PStr (fst analysis)));
             ("weaknesses", PList (map PStr (snd analysis)));
             ("opportunities", PList []);
             ("threats", PList [])]).

(** The marks a returned analysis holds. *)
Definition marks_of (competitor_data : Val.dict) (m : marks) : Prop :=
  _analyze_competitor_strengths competitor_data =
  Ok (PDict [("strengths", PList (map PStr (fst m)));
             ("weaknesses", PList (map PStr (snd m)));
             ("opportunities", PList []);
             ("threats", PList [])]).

Definition strength_labels : list string :=
  ["Large product catalog"; "Strong social media presence";
   "Good product merchandising"; "Comprehensive customer support";
   "Comprehensive policy documentation"].

Definition weakness_labels : list string :=
  ["Limited product range"; "Limited social media presence";
   "Limited customer support information"; "Incomplete policy information"].

End Strengths.

Module Competitors.
Import CompetitorAnalyzer.

Section WithLibrary.
Context {lib : Library} {order : SetOrder} {passes : Passes}
    {services : Collaborators}.

(** [results.append(r)], [results] being the local the loop fills. *)
Definition append_result (r : pyval) : ST (world * list pyval) unit :=
  fun s => (Ok tt, (fst s, (snd s ++ [r])%list)).

(** The body of the loop of [analyze_multiple_competitors]. *)
Definition analyze_one (fuel : nat) (url : string)
  : ST (world * list pyval) (flow unit) :=
  try_except
    (competitor_data <- with_locals (analyze_competitor fuel url) ;;
     append_result (PDict competitor_data) ;;;
     (* Add delay between requests *)
     with_locals (sleep 2) ;;;
     ret Continue)
    any_exception
    (fun e =>
       append_result (PDict [("website_url", PStr url);
                             ("scraping_status", PStr "failed");
                             ("scraping_errors", PStr (str_exn e))]) ;;;
       ret Continue).

(** [analyze_multiple_competitors(competitor_urls)] *)
Definition analyze_multiple_competitors (fuel : nat)
           (competitor_urls : list string) : M (list pyval) :=
  fun w =>
    match for_each competitor_urls (analyze_one fuel) (w, []) with
    | (Ok _, (w', results)) => (Ok results, w')
    | (Raise e, (w', _)) => (Raise e, w')
    | (OutOfFuel, (w', _)) => (OutOfFuel, w')
    end.

(** How a result answers for a URL: it is a record whose [website_url] is
    the URL as given (a record written by a handler) or as the scraper
    qualified it. *)
Definition answers (url : string) (r : pyval) : Prop :=
  exists d,
    r = PDict d /\
    (Val.get d "website_url" = PStr url \/
     Val.get d "website_url" = PStr (Site.qualified url)).

End WithLibrary.

End Competitors.


(** ** Further runs of the orchestrator: vocabulary *)

Module Runs.
Import Models BrandAnalyzer Invariant Upsert Reanalysis.


(** The brand of [acme.example] is stored, the site is down, the
    database is not. *)
Definition down_world : world :=
  World (fun _ _ => Fails (Exn RequestException "Connection refused")) []
        (Session Batch.acme_tables Batch.acme_tables []).

(** A catalogue with an entry whose [images] is [null]. *)
Definition odd_catalog : pyval :=
  PList [Shop.socks_record;
         PDict [("shopify_id", PInt 2); ("title", PStr "Hat");
                ("images", PNone)]].


End Runs.


(** * Properties *)

(** ** Python strings *)

Section PyStrings.
Import Py.

Lemma take_length (n : nat) (s : string) :
  String.length (take n s) = Nat.min n (String.length s).
Proof.
  revert s; induction n as [|n IH]; intros [|c s]; simpl; auto.
Qed.

Lemma take_all (n : nat) (s : string) :
  (String.length s <= n)%nat -> take n s = s.
Proof.
  revert s; induction n as [|n IH]; intros [|c s]; simpl; intros H;
    try reflexivity; try lia.
  f_equal; apply IH; lia.
Qed.

Lemma take_take (n m : nat) (s : string) :
  (n <= m)%nat -> take n (take m s) = take n s.
Proof.
  revert m s; induction n as [|n IH]; intros [|m] [|c s] H; simpl;
    try reflexivity; try lia.
  f_equal; apply IH; lia.
Qed.

Lemma char_at_take (n k : nat) (s : string) :
  char_at (take n s) k = if (k <? n)%nat then char_at s k else None.
Proof.
  revert k s; induction n as [|n IH]; intros k [|c s]; simpl.
  - destruct k; reflexivity.
  - destruct k; reflexivity.
  - destruct (k <? S n)%nat; destruct k; reflexivity.
  - destruct k as [|k]; simpl; [reflexivity|].
    rewrite IH. reflexivity.
Qed.

Lemma char_at_length (s : string) (k : nat) :
  (String.length s <= k)%nat -> char_at s k = None.
Proof.
  revert k; induction s as [|a s IH]; intros [|k] H; simpl in *;
    try reflexivity; try lia.
  apply IH; lia.
Qed.

(** [rfind_from] either finds nothing, and then the character does not
    occur, or returns the offset of its last occurrence. *)
Lemma rfind_from_spec (c : ascii) (s : string) (i : Z) :
  0 <= i ->
  (rfind_from c s i = -1 /\ forall k, char_at s k <> Some c) \/
  (exists k, rfind_from c s i = i + Z.of_nat k /\ char_at s k = Some c /\
             forall k', (k < k')%nat -> char_at s k' <> Some c).
Proof.
  revert i; induction s as [|a s IH]; intros i Hi; simpl.
  - left; split; [reflexivity|]. intros [|k]; discriminate.
  - destruct (IH (i + 1)) as [[Hr Hn] | (k & Hr & Hk & Hlast)]; [lia | |].
    + rewrite Hr; simpl.
      destruct (Ascii.eqb_spec a c) as [->|Hac].
      * right; exists 0%nat; repeat split; [lia|].
        intros [|k'] Hk'; [lia|]. apply Hn.
      * left; split; [reflexivity|].
        intros [|k]; simpl; [congruence | apply Hn].
    + rewrite Hr.
      replace (0 <=? i + 1 + Z.of_nat k) with true.
      2:{ symmetry; apply Z.leb_le; lia. }
      right; exists (S k); repeat split; [lia | exact Hk |].
      intros [|k'] Hk'; [lia|]. apply Hlast; lia.
Qed.

End PyStrings.

(** ** truncate_text *)

Section TruncateText.
Import Py Helpers.


Lemma above_four_fifths_neg (L : Z) :
  0 <= L -> above_four_fifths (-1) L = false.
Proof.
  intros HL. unfold above_four_fifths.
  rewrite negb_false_iff, Qle_bool_iff.
  unfold Qle; simpl. lia.
Qed.


(** What [rfind] returns on the truncated prefix. *)
Lemma rfind_take_space (s : string) (L : nat) :
  (rfind (take L s) " "%char = -1 /\ forall p, ~ last_space_within s L p) \/
  (exists p, rfind (take L s) " "%char = Z.of_nat p /\
             last_space_within s L p).
Proof.
  unfold rfind.
  destruct (rfind_from_spec " "%char (take L s) (i := 0)) as
    [[Hr Hn] | (k & Hr & Hk & Hlast)]; [lia | |].
  - left; split; [exact Hr|].
    intros p (Hp & Hcp & _). apply (Hn p).
    rewrite char_at_take. apply Nat.ltb_lt in Hp. rewrite Hp. exact Hcp.
  - right; exists k; split; [rewrite Hr; lia|].
    rewrite char_at_take in Hk.
    destruct (k <? L)%nat eqn:HkL; [|discriminate].
    apply Nat.ltb_lt in HkL.
    repeat split; [exact HkL | exact Hk |].
    intros q Hq Hcq. apply (Hlast q); [lia|].
    rewrite char_at_take.
    replace (q <? L)%nat with true by (symmetry; apply Nat.ltb_lt; lia).
    exact Hcq.
Qed.

Lemma truncate_text_short (s : string) (L : Z) :
  s = "" \/ len s <= L -> truncate_text s L = s.
Proof.
  unfold truncate_text. intros [-> | H]; [reflexivity|].
  apply Z.leb_le in H. rewrite H, orb_true_r. reflexivity.
Qed.

Lemma truncate_text_long (s : string) (L : Z) :
  0 <= L -> L < len s ->
  truncate_text s L =
    (let truncated := take (Z.to_nat L) s in
     let last_space := rfind truncated " "%char in
     if above_four_fifths last_space L
     then slice_to truncated last_space else truncated) ++ "...".
Proof.
  intros HL Hlen. unfold truncate_text.
  assert (Hs : truthy s = true).
  { destruct s; [unfold len in Hlen; simpl in Hlen; lia | reflexivity]. }
  rewrite Hs; simpl negb; simpl orb.
  replace (len s <=? L) with false by (symmetry; apply Z.leb_gt; lia).
  assert (Hcut : slice_to s L = take (Z.to_nat L) s).
  { unfold slice_to.
    replace (0 <=? L) with true by (symmetry; apply Z.leb_le; lia).
    reflexivity. }
  rewrite Hcut. reflexivity.
Qed.

End TruncateText.

Section TruncateTextContract.
Import Py Helpers.


(** The two limits of the scraper, on a text with a late space and on one
    without. *)
Example truncate_text_late_space :
  truncate_text "one two three four five" 15 = "one two three...".
Proof. reflexivity. Qed.

Example truncate_text_hard_cut :
  truncate_text "one two threefourfive" 10 = "one two th...".
Proof. reflexivity. Qed.


End TruncateTextContract.

(** ** The retry loop of the fetcher *)

Section FetchRetry.
Import Fetch.

Lemma count_requests_request (url : string) (t : Z) (l : list event) :
  Requests.count_requests url (l ++ [Request url t]) =
  S (Requests.count_requests url l).
Proof.
  unfold Requests.count_requests.
  rewrite filter_app, length_app; simpl.
  rewrite String.eqb_refl; simpl. lia.
Qed.

Lemma count_requests_sleep (url : string) (d : Z) (l : list event) :
  Requests.count_requests url (l ++ [Sleep d]) =
  Requests.count_requests url l.
Proof.
  unfold Requests.count_requests.
  rewrite filter_app, length_app; simpl. lia.
Qed.

(** A response that passes [raise_for_status] does not carry status 429:
    the rate-limit branch of the loop is never entered. *)
Lemma raise_for_status_ok_not_429 (url : string) (r : response) :
  Requests.raise_for_status url r = Ok tt -> (status_code r =? 429) = false.
Proof.
  unfold Requests.raise_for_status.
  destruct (status_code r =? 429) eqn:H; [|reflexivity].
  apply Z.eqb_eq in H. rewrite H. simpl. discriminate.
Qed.

Lemma raise_for_status_cases (url : string) (r : response) :
  Requests.raise_for_status url r = Ok tt \/
  exists m, Requests.raise_for_status url r = Raise (Exn HTTPError m).
Proof.
  unfold Requests.raise_for_status.
  destruct (_ && _); [right; eexists; reflexivity|].
  destruct (_ && _); [right; eexists; reflexivity|].
  left; reflexivity.
Qed.

(** One round of the loop, by what the request meets. *)
Lemma fetch_attempt_run (url : string) (timeout attempt : Z) (w : world) :
  fetch_attempt url timeout attempt w =
  match verdict_of url (attempt_outcome w url 0) with
  | Got b => (Ok (Return b), logged w [Request url timeout])
  | Failed e =>
      if attempt =? Config.MAX_RETRIES - 1
      then (Raise (network_error url e), logged w [Request url timeout])
      else (Ok Continue,
            logged w [Request url timeout;
                      Sleep (Config.DELAY_BETWEEN_REQUESTS * 2 ^ attempt)])
  | Crashed e => (Raise e, logged w [Request url timeout])
  end.
Proof.
  unfold fetch_attempt, try_except, bind, Requests.session_get,
    attempt_outcome, logged, lift, verdict_of.
  rewrite Nat.add_0_r.
  destruct (net w url _) as [r | e]; simpl.
  - destruct (raise_for_status_cases url r) as [H | [m H]].
    + rewrite H. rewrite (raise_for_status_ok_not_429 url r H). reflexivity.
    + rewrite H. simpl. destruct (attempt =? _); simpl.
      * reflexivity.
      * unfold sleep, emit, ret, bind; simpl.
        rewrite <- app_assoc. reflexivity.
  - destruct (is_request_exception e) eqn:He; [|reflexivity].
    destruct (attempt =? _); simpl; [reflexivity|].
    unfold sleep, emit, ret, bind; simpl.
    rewrite <- app_assoc. reflexivity.
Qed.

Lemma logged_logged (w : world) (l1 l2 : list event) :
  logged (logged w l1) l2 = logged w (l1 ++ l2).
Proof. unfold logged; simpl. rewrite app_assoc. reflexivity. Qed.

Lemma added_logged (w : world) (evs : list event) :
  added w (logged w evs) = evs.
Proof.
  unfold added, logged; simpl.
  rewrite skipn_app, Nat.sub_diag, skipn_all. reflexivity.
Qed.

Lemma attempt_outcome_after (w : world) (url : string) (t d : Z)
      (evs : list event) (k : nat) :
  attempt_outcome (logged w (evs ++ [Request url t; Sleep d])) url k =
  attempt_outcome (logged w evs) url (S k).
Proof.
  unfold attempt_outcome, logged; simpl.
  replace (log w ++ evs ++ [Request url t; Sleep d])%list
    with (((log w ++ evs) ++ [Request url t]) ++ [Sleep d])%list
    by (repeat rewrite <- app_assoc; reflexivity).
  rewrite count_requests_sleep, count_requests_request.
  f_equal. lia.
Qed.

Lemma crashed_not_request (url : string) (o : http_outcome) (e : exn) :
  verdict_of url o = Crashed e -> is_request_exception e = false.
Proof.
  unfold verdict_of. destruct o as [r | e'].
  - destruct (Requests.raise_for_status url r); discriminate.
  - destruct (is_request_exception e') eqn:H; [discriminate|].
    intros [= <-]. exact H.
Qed.

Lemma logged_nil (w : world) : logged w [] = w.
Proof. destruct w; unfold logged; simpl. rewrite app_nil_r. reflexivity. Qed.

Lemma attempt_outcome_next (w : world) (url : string) (t d : Z) (k : nat) :
  attempt_outcome (logged w [Request url t; Sleep d]) url k =
  attempt_outcome w url (S k).
Proof.
  pose proof (attempt_outcome_after w url t d [] k) as H.
  cbn [app] in H. rewrite H, logged_nil. reflexivity.
Qed.

Lemma attempt_outcome_next2 (w : world) (url : string) (t d d' : Z) (k : nat) :
  attempt_outcome
    (logged w [Request url t; Sleep d; Request url t; Sleep d']) url k =
  attempt_outcome w url (S (S k)).
Proof.
  pose proof (attempt_outcome_after w url t d' [Request url t; Sleep d] k)
    as H.
  cbn [app] in H. rewrite H. apply attempt_outcome_next.
Qed.

(** The whole of [_fetch_page], by what the three attempts meet. *)
Lemma fetch_page_run (url : string) (timeout : option Z) (w : world) :
  let t := timeout_or_default timeout in
  let rq := Request url t in
  let v k := verdict_of url (attempt_outcome w url k) in
  _fetch_page url timeout w =
  match v 0%nat with
  | Got b => (Ok (Some b), logged w [rq])
  | Crashed e => (Raise e, logged w [rq])
  | Failed _ =>
      match v 1%nat with
      | Got b => (Ok (Some b), logged w [rq; Sleep 1; rq])
      | Crashed e => (Raise e, logged w [rq; Sleep 1; rq])
      | Failed _ =>
          match v 2%nat with
          | Got b => (Ok (Some b), logged w [rq; Sleep 1; rq; Sleep 2; rq])
          | Crashed e => (Raise e, logged w [rq; Sleep 1; rq; Sleep 2; rq])
          | Failed e =>
              (Raise (network_error url e),
               logged w [rq; Sleep 1; rq; Sleep 2; rq])
          end
      end
  end.
Proof.
  intros t rq v. unfold _fetch_page, try_except.
  change (Py.range Config.MAX_RETRIES) with [0; 1; 2].
  fold t. cbn [for_each]. unfold bind at 1.
  rewrite fetch_attempt_run. fold (v 0%nat).
  destruct (v 0%nat) as [b0 | e0 | e0] eqn:H0.
  - reflexivity.
  - change (0 =? Config.MAX_RETRIES - 1) with false. cbv iota.
    unfold bind at 1. rewrite fetch_attempt_run.
    change (Config.DELAY_BETWEEN_REQUESTS * 2 ^ 0) with 1.
    rewrite attempt_outcome_next. fold (v 1%nat).
    destruct (v 1%nat) as [b1 | e1 | e1] eqn:H1.
    + unfold ret. rewrite logged_logged. reflexivity.
    + change (1 =? Config.MAX_RETRIES - 1) with false. cbv iota.
      unfold bind at 1. rewrite fetch_attempt_run.
      change (Config.DELAY_BETWEEN_REQUESTS * 2 ^ 1) with 2.
      rewrite logged_logged. cbn [app].
      rewrite attempt_outcome_next2. fold (v 2%nat).
      destruct (v 2%nat) as [b2 | e2 | e2] eqn:H2.
      * unfold ret. rewrite logged_logged. reflexivity.
      * change (2 =? Config.MAX_RETRIES - 1) with true. cbv iota.
        rewrite logged_logged. reflexivity.
      * rewrite (crashed_not_request _ _ H2).
        rewrite logged_logged. reflexivity.
    + rewrite (crashed_not_request _ _ H1).
      rewrite logged_logged. reflexivity.
  - rewrite (crashed_not_request _ _ H0). reflexivity.
Qed.

End FetchRetry.

Section FetchContract.
Import Fetch.


Lemma attempt_fails_failed (w : world) (url : string) (k : nat) :
  attempt_fails w url k ->
  exists e, verdict_of url (attempt_outcome w url k) = Failed e.
Proof.
  unfold attempt_fails, request_failure.
  destruct (verdict_of url (attempt_outcome w url k)) as [b | e | e];
    intros H; [destruct H; reflexivity | exists e; reflexivity |
               destruct H; reflexivity].
Qed.



End FetchContract.

(** ** Rate limiting *)

Section RateLimiting.
Import Fetch RateLimit.

(** Three requests, pauses of one and two seconds, and a [NetworkError]:
    the 429 is raised by [raise_for_status] before the loop looks at the
    status code. *)
Example throttled_fetch_trace :
  _fetch_page "https://shop.example/" None throttling_world =
  (Raise (network_error "https://shop.example/"
            (Exn HTTPError
               "429 Client Error: Too Many Requests for url: https://shop.example/")),
   logged throttling_world
     [Request "https://shop.example/" 30; Sleep 1;
      Request "https://shop.example/" 30; Sleep 2;
      Request "https://shop.example/" 30]).
Proof. reflexivity. Qed.

(** C4, as stated, fails: with [Retry-After: 5] on every response the
    first pause lasts one second, not five. *)
Lemma rate_limit_not_honoured :
  ~ honoured throttling_world "https://shop.example/" None.
Proof.
  intros H.
  destruct (H too_many_requests eq_refl eq_refl) as [(d & Hd & Hp) _].
  rewrite throttled_fetch_trace in Hp. cbn [snd] in Hp.
  rewrite added_logged in Hp. vm_compute in Hd, Hp. congruence.
Qed.

(** C4, amended.  A 429 response counts against the retry budget like any
    other outcome of an attempt: whatever the host answers, a fetch sends
    at most [MAX_RETRIES] requests, and when each of its attempts meets a
    429 it stops after exactly [MAX_RETRIES] requests without a body. *)
Theorem rate_limit_consumes_budget (url : string) (timeout : option Z)
        (w : world) :
  let run := _fetch_page url timeout w in
  let evs := added w (snd run) in
  Z.of_nat (List.length (requests evs)) <= Config.MAX_RETRIES /\
  ((forall k, Z.of_nat k < Config.MAX_RETRIES ->
      exists r, attempt_outcome w url k = Responds r /\ status_code r = 429) ->
   Z.of_nat (List.length (requests evs)) = Config.MAX_RETRIES /\
   forall b, fst run <> Ok (Some b)).
Proof.
  cbv zeta. rewrite fetch_page_run. cbv zeta.
  change (Config.MAX_RETRIES) with 3.
  assert (H429 : forall k,
             (exists r, attempt_outcome w url k = Responds r /\
                        status_code r = 429) ->
             exists e, verdict_of url (attempt_outcome w url k) = Failed e).
  { intros k (r & Hr & Hs). rewrite Hr. unfold verdict_of.
    unfold Requests.raise_for_status. rewrite Hs. simpl.
    eexists; reflexivity. }
  destruct (verdict_of url (attempt_outcome w url 0)) as [b0|e0|e0] eqn:H0;
  [ | destruct (verdict_of url (attempt_outcome w url 1)) as [b1|e1|e1] eqn:H1;
      [ | destruct (verdict_of url (attempt_outcome w url 2)) as [b2|e2|e2] eqn:H2
        | ] | ];
  cbn [fst snd]; rewrite added_logged;
  cbn [requests flat_map app List.length];
  (split; [lia|]); intros Hall;
  try (destruct (H429 0%nat (Hall 0%nat ltac:(lia))) as [e He]; congruence);
  try (destruct (H429 1%nat (Hall 1%nat ltac:(lia))) as [e He]; congruence);
  try (destruct (H429 2%nat (Hall 2%nat ltac:(lia))) as [e He]; congruence).
  split; [reflexivity | discriminate].
Qed.

Lemma rate_limit_consumes_budget_witness :
  (forall k, Z.of_nat k < Config.MAX_RETRIES ->
     exists r, attempt_outcome throttling_world "https://shop.example/" k =
               Responds r /\ status_code r = 429) /\
  Z.of_nat (List.length
              (requests
                 (added throttling_world
                    (snd (_fetch_page "https://shop.example/" None
                            throttling_world))))) = Config.MAX_RETRIES.
Proof.
  assert (H429 : forall k, Z.of_nat k < Config.MAX_RETRIES ->
            exists r, attempt_outcome throttling_world
                        "https://shop.example/" k = Responds r /\
                      status_code r = 429).
  { intros k _. exists too_many_requests. split; reflexivity. }
  split; [exact H429|].
  exact (proj1 (proj2 (rate_limit_consumes_budget "https://shop.example/"
                         None throttling_world) H429)).
Defined.

End RateLimiting.

(** ** Pagination of the catalog *)

Section CatalogPagination.
Import Fetch Catalog Pagination.
Context {lib : Library}.

Lemma paginated_url_page_url (site : string) (p : nat) :
  paginated_url (urljoin site "/products.json") (Z.of_nat p) =
  page_url site p.
Proof. reflexivity. Qed.

Lemma accepted_raise_for_status (url : string) (r : response) :
  accepted r -> Requests.raise_for_status url r = Ok tt.
Proof.
  unfold accepted, Requests.raise_for_status. intros Hr.
  replace ((400 <=? status_code r) && (status_code r <? 500)) with false.
  2:{ symmetry. apply andb_false_iff.
      destruct Hr; [left; apply Z.leb_gt | right; apply Z.ltb_ge]; lia. }
  replace ((500 <=? status_code r) && (status_code r <? 600)) with false.
  2:{ symmetry. apply andb_false_iff.
      destruct Hr; [left; apply Z.leb_gt | right; apply Z.ltb_ge]; lia. }
  reflexivity.
Qed.

Lemma serves_logged (w : world) (url : string) (r : response)
      (evs : list event) :
  serves w url r -> serves (logged w evs) url r.
Proof. intros Hs n. apply Hs. Qed.

(** A fetch of a URL the host serves with an accepted status needs one
    request. *)
Lemma fetch_page_served (w : world) (url : string) (r : response) :
  serves w url r -> accepted r ->
  _fetch_page url None w =
  (Ok (Some (body r)), logged w [Request url Config.REQUEST_TIMEOUT]).
Proof.
  intros Hs Ha. rewrite fetch_page_run. cbv zeta.
  unfold attempt_outcome. rewrite Hs. unfold verdict_of.
  rewrite (accepted_raise_for_status url Ha). reflexivity.
Qed.

(** The loop over the entries of a page appends their records. *)
Lemma entries_appended (site : string) (items records : list pyval)
      (w : world) (p : Z) (acc : list pyval) :
  records_of site items = Ok records ->
  for_each items
    (fun product =>
       product_data <- lift (product_record site product) ;;
       append_product product_data ;;;
       ret (@Continue unit))
    (w, Locals p acc) =
  (Ok None, (w, Locals p (acc ++ records))).
Proof.
  revert records acc. induction items as [|item items IH];
    intros records acc Hrec; simpl in Hrec.
  - injection Hrec as <-. rewrite app_nil_r. reflexivity.
  - destruct (product_record site item) as [record | e |] eqn:Hitem;
      simpl in Hrec; try discriminate.
    destruct (records_of site items) as [rest | e |] eqn:Hrest;
      simpl in Hrec; try discriminate.
    injection Hrec as <-.
    cbn [for_each]. unfold bind at 1. unfold bind at 1. unfold lift at 1.
    rewrite Hitem. unfold bind at 1. unfold append_product at 1.
    cbn [fst snd page products]. unfold ret at 1.
    rewrite (IH rest (acc ++ [record])%list eq_refl).
    rewrite <- app_assoc. reflexivity.
Qed.

Lemma page_round_products (site : string) (w : world) (p : nat)
      (r : response) (records acc : list pyval) :
  serves w (page_url site p) r -> product_page site r records ->
  page_round site (urljoin site "/products.json")
             (w, Locals (Z.of_nat p) acc) =
  (Ok Continue,
   (logged w [Request (page_url site p) Config.REQUEST_TIMEOUT;
              Sleep Config.DELAY_BETWEEN_REQUESTS],
    Locals (Z.of_nat (S p)) (acc ++ records))).
Proof.
  intros Hs (Ha & d & items & Hjson & Hget & Hne & Hrec).
  unfold page_round. unfold bind at 1. unfold get_local at 1.
  cbn [snd page]. rewrite paginated_url_page_url.
  unfold bind at 1. unfold with_locals at 1. cbn [fst snd].
  rewrite (fetch_page_served Hs Ha).
  unfold try_except. unfold bind at 1. unfold lift at 1.
  unfold json_loads. rewrite Hjson.
  unfold bind at 1. unfold lift at 1. unfold get. rewrite Hget.
  assert (Ht : Val.truthy (PList items) = true).
  { destruct items; [destruct Hne; reflexivity | reflexivity]. }
  rewrite Ht. cbn [negb].
  unfold bind at 1. unfold lift at 1. cbn [iterate].
  unfold bind at 1.
  rewrite (entries_appended site items _ _ _ Hrec).
  unfold bind at 1. unfold next_page at 1. cbn [fst snd page products].
  unfold bind at 1. unfold with_locals, sleep, emit. cbn [fst snd].
  unfold ret, logged. cbn [net log db].
  rewrite <- app_assoc. cbn [app].
  replace (Z.of_nat p + 1) with (Z.of_nat (S p)) by lia.
  reflexivity.
Qed.

Lemma page_round_empty (site : string) (w : world) (p : nat)
      (r : response) (acc : list pyval) :
  serves w (page_url site p) r -> empty_page r ->
  page_round site (urljoin site "/products.json")
             (w, Locals (Z.of_nat p) acc) =
  (Ok Break,
   (logged w [Request (page_url site p) Config.REQUEST_TIMEOUT],
    Locals (Z.of_nat p) acc)).
Proof.
  intros Hs (Ha & d & Hjson & Hfalsy).
  unfold page_round. unfold bind at 1. unfold get_local at 1.
  cbn [snd page]. rewrite paginated_url_page_url.
  unfold bind at 1. unfold with_locals at 1. cbn [fst snd].
  rewrite (fetch_page_served Hs Ha).
  unfold try_except. unfold bind at 1. unfold lift at 1.
  unfold json_loads. rewrite Hjson.
  unfold bind at 1. unfold lift at 1. unfold get.
  rewrite Hfalsy. reflexivity.
Qed.

Lemma page_events_step (site : string) (i0 n : nat) :
  page_events site i0 (S n) =
  ([Request (page_url site (S i0)) Config.REQUEST_TIMEOUT;
    Sleep Config.DELAY_BETWEEN_REQUESTS] ++ page_events site (S i0) n)%list.
Proof.
  unfold page_events. cbn [seq flat_map app].
  replace (S (i0 + S n)) with (S (S i0 + n)) by lia. reflexivity.
Qed.

Lemma requests_page_events (site : string) (n i0 : nat) :
  requests (page_events site i0 n) = map (page_url site) (seq (S i0) (S n)).
Proof.
  revert i0. induction n as [|n IH]; intros i0.
  - unfold page_events. cbn. rewrite Nat.add_0_r. reflexivity.
  - rewrite page_events_step. cbn [app requests flat_map].
    fold (requests (page_events site (S i0) n)). rewrite IH. reflexivity.
Qed.

Lemma pauses_page_events (site : string) (n i0 : nat) :
  pauses (page_events site i0 n) = repeat Config.DELAY_BETWEEN_REQUESTS n.
Proof.
  revert i0. induction n as [|n IH]; intros i0.
  - reflexivity.
  - rewrite page_events_step. cbn [app pauses flat_map].
    fold (pauses (page_events site (S i0) n)). rewrite IH. reflexivity.
Qed.

(** The loop from page [i0 + 1] on, over the remaining pages. *)
Lemma pagination_loop (site : string) (last : response)
      (pages : list (response * list pyval)) :
  empty_page last ->
  forall (i0 : nat) (acc : list pyval) (w : world) (fuel : nat),
    (forall i r records,
        nth_error pages i = Some (r, records) ->
        serves w (page_url site (S (i0 + i))) r /\
        product_page site r records) ->
    serves w (page_url site (S (i0 + List.length pages))) last ->
    (List.length pages < fuel)%nat ->
    while_true fuel (page_round site (urljoin site "/products.json"))
               (w, Locals (Z.of_nat (S i0)) acc) =
    (Ok None,
     (logged w (page_events site i0 (List.length pages)),
      Locals (Z.of_nat (S (i0 + List.length pages)))
             (acc ++ concat (map snd pages)))).
Proof.
  intros Hlast.
  induction pages as [|[r records] pages IH];
    intros i0 acc w [|fuel] Hpages Hend Hfuel; cbn [List.length] in *;
    try lia.
  - cbn [while_true]. unfold bind at 1.
    rewrite Nat.add_0_r in *.
    rewrite (@page_round_empty site w (S i0) last acc Hend Hlast).
    unfold page_events. cbn [seq flat_map app map concat].
    rewrite Nat.add_0_r, app_nil_r. reflexivity.
  - cbn [while_true]. unfold bind at 1.
    destruct (Hpages 0%nat r records eq_refl) as [Hs Hp].
    rewrite Nat.add_0_r in Hs.
    rewrite (@page_round_products site w (S i0) r records acc Hs Hp).
    rewrite (IH (S i0)).
    + rewrite logged_logged, <- page_events_step.
      replace (S i0 + List.length pages)%nat
        with (i0 + S (List.length pages))%nat by lia.
      cbn [map concat snd]. rewrite <- app_assoc. reflexivity.
    + intros i r' records' Hi.
      destruct (Hpages (S i) r' records' Hi) as [Hs' Hp'].
      replace (S i0 + i)%nat with (i0 + S i)%nat by lia.
      split; [apply serves_logged; exact Hs' | exact Hp'].
    + replace (S i0 + List.length pages)%nat
        with (i0 + S (List.length pages))%nat by lia.
      apply serves_logged. exact Hend.
    + lia.
Qed.

(** C3, amended.  The pages are asked for in increasing order from page 1
    with [limit=250], a pause separates two pages, and the run ends at
    the first page whose [products] array is empty: with [N] pages of
    products followed by an empty page the catalog holds the records of
    exactly those [N] pages, the request for page [N + 1] is the one that
    meets the empty page and is the last one sent. *)
Theorem catalog_pagination_contract (site : string) (w : world)
        (pages : list (response * list pyval)) (last : response)
        (fuel : nat) :
  endpoint w site pages last ->
  (List.length pages < fuel)%nat ->
  let run := _get_product_catalog fuel site w in
  let evs := added w (snd run) in
  fst run = Ok (concat (map snd pages)) /\
  requests evs =
    map (fun p => urljoin site "/products.json" ++ "?limit=250&page="
                    ++ Py.str_of_int (Z.of_nat p))
        (seq 1 (S (List.length pages))) /\
  pauses evs = repeat Config.DELAY_BETWEEN_REQUESTS (List.length pages) /\
  log (snd run) = (log w ++ evs)%list.
Proof.
  intros (Hpages & Hend & Hlast) Hfuel.
  assert (Hrun : _get_product_catalog fuel site w =
                 (Ok (concat (map snd pages)),
                  logged w (page_events site 0 (List.length pages)))).
  { unfold _get_product_catalog. unfold try_except. unfold bind at 1.
    change 1 with (Z.of_nat 1).
    rewrite (@pagination_loop site last pages Hlast 0%nat [] w fuel
               Hpages Hend Hfuel).
    reflexivity. }
  cbv zeta. rewrite Hrun. cbn [fst snd].
  rewrite added_logged.
  rewrite requests_page_events, pauses_page_events.
  repeat split; reflexivity.
Qed.

End CatalogPagination.

Section CatalogScenario.
Import Fetch Catalog Pagination Shop.

Example shop_record :
  product_record (lib := plain_library) site socks = Ok socks_record.
Proof. reflexivity. Qed.

(** One page of products and the empty page: two requests, the second
    for page 2. *)
Example shop_catalog_run :
  _get_product_catalog (lib := plain_library) 5 site shop_world =
  (Ok [socks_record],
   logged shop_world
     [Request "https://shop.example/products.json?limit=250&page=1" 30;
      Sleep 1;
      Request "https://shop.example/products.json?limit=250&page=2" 30]).
Proof. vm_compute. reflexivity. Qed.

(** C3, as stated, fails: with one page of products followed by the empty
    page the request for page 2 is sent. *)
Lemma pagination_sends_extra_request :
  ~ stops_without_extra_request (lib := plain_library) 5 shop_world site 1.
Proof.
  unfold stops_without_extra_request. rewrite shop_catalog_run.
  cbn [snd]. rewrite added_logged. intros [Hlen _].
  vm_compute in Hlen. discriminate.
Qed.

Lemma shop_endpoint :
  endpoint (lib := plain_library) shop_world site
           [(page_one, [socks_record])] page_two.
Proof.
  split; [|split].
  - intros [|[|i]] r records Hi; try discriminate.
    injection Hi as <- <-. split.
    + intros n. reflexivity.
    + split; [left; vm_compute; reflexivity|].
      exists [("products", PList [socks])], [socks].
      split; [reflexivity|]. split; [reflexivity|].
      split; [discriminate | reflexivity].
  - intros n. reflexivity.
  - split; [left; vm_compute; reflexivity|].
    exists [("products", PList [])]. split; reflexivity.
Qed.

Lemma catalog_pagination_contract_witness :
  endpoint (lib := plain_library) shop_world site
           [(page_one, [socks_record])] page_two /\
  (1 < 5)%nat /\
  fst (_get_product_catalog (lib := plain_library) 5 site shop_world) =
    Ok [socks_record] /\
  requests (added shop_world
              (snd (_get_product_catalog (lib := plain_library) 5 site
                      shop_world))) =
    ["https://shop.example/products.json?limit=250&page=1";
     "https://shop.example/products.json?limit=250&page=2"].
Proof.
  split; [exact shop_endpoint|]. split; [lia|].
  destruct (@catalog_pagination_contract plain_library site shop_world
              [(page_one, [socks_record])] page_two 5%nat shop_endpoint
              ltac:(simpl; lia)) as (Hres & Hreq & _).
  split; [exact Hres | exact Hreq].
Defined.

End CatalogScenario.

(** ** E-mail addresses *)

Section EmailAddresses.
Import EmailPattern.

(** The matcher on a handful of texts, with the lists [re.findall] gives
    for them. *)
Example findall_samples :
  map findall
      ["mail <a href=mailto:Sales@Shop.example>x</a> or no-reply@shop.example.com, bye";
       "x@y.c a.b@c.de. q@r.st_u z@w.abc|d";
       "a@b.cd.ef1 x"; "-a@b.cd"; "a@b..cd"; "a@@b.cd"; "a@b.cd@e.fg";
       "a@b.|cd x"; "ab@cd.ef.gh.i"]
  = [["Sales@Shop.example"; "no-reply@shop.example.com"];
     ["a.b@c.de"; "z@w.abc|d"];
     ["a@b.cd"]; ["a@b.cd"]; ["a@b..cd"]; []; ["a@b.cd"];
     ["a@b.|cd"]; ["ab@cd.ef.gh"]].
Proof. vm_compute. reflexivity. Qed.

End EmailAddresses.

Section ContactEmail.
Import Extract Homepage.
Context {order : SetOrder} {passes : Passes}.

Lemma lookup_set_same (k : string) (v : pyval) (d : Val.dict) :
  Val.lookup k (Val.set k v d) = Some v.
Proof.
  induction d as [|[k' v'] d IH]; simpl.
  - rewrite String.eqb_refl. reflexivity.
  - destruct (String.eqb k' k) eqn:Hk; simpl; rewrite Hk; auto.
Qed.

Lemma lookup_set_other (k k' : string) (v : pyval) (d : Val.dict) :
  k <> k' -> Val.lookup k (Val.set k' v d) = Val.lookup k d.
Proof.
  intros Hne. induction d as [|[k0 v0] d IH]; simpl.
  - destruct (String.eqb_spec k' k) as [->|_]; [destruct Hne|]; reflexivity.
  - destruct (String.eqb_spec k0 k') as [->|Hk0]; simpl.
    + destruct (String.eqb_spec k' k) as [->|_]; [destruct Hne|]; reflexivity.
    + rewrite IH. reflexivity.
Qed.

Lemma set_to_list_in (l : list string) (e : string) :
  In e (set_to_list l) <-> In e l.
Proof.
  rewrite <- (nodup_In string_dec l e). split; intros Hin.
  - apply (Permutation_in _ (set_to_list_distinct l) Hin).
  - apply (Permutation_in _ (Permutation_sym (set_to_list_distinct l)) Hin).
Qed.

Lemma set_to_list_nil (l : list string) : set_to_list l = [] <-> l = [].
Proof.
  split; intros Hl.
  - destruct l as [|a l]; [reflexivity|].
    assert (Hin : In a (set_to_list (a :: l)))
      by (apply set_to_list_in; left; reflexivity).
    rewrite Hl in Hin. destruct Hin.
  - subst l. destruct (set_to_list []) as [|a l] eqn:Hs; [reflexivity|].
    assert (Hin : In a (@nil string)).
    { apply set_to_list_in. rewrite Hs. left; reflexivity. }
    destruct Hin.
Qed.

Lemma extract_email_addresses_order (html_content : string) :
  Helpers.extract_email_addresses html_content =
  set_to_list (EmailPattern.findall html_content).
Proof.
  unfold Helpers.extract_email_addresses.
  destruct html_content as [|c s]; [|reflexivity].
  simpl. symmetry. apply set_to_list_nil. reflexivity.
Qed.




End ContactEmail.

Section ContactEmailScenario.
Import Extract Homepage.


Example acme_contact_email :
  Val.lookup "contact_email"
    (_extract_contact_info (order := last_first) (passes := quiet_passes)
       acme_html acme_soup)
  = Some (PStr "second@acme.example").
Proof. vm_compute. reflexivity. Qed.

End ContactEmailScenario.


(** ** The name of the brand *)

Section BrandName.
Import Extract Homepage.
Context {lib : Library}.

(** Without a site-name meta that has content, the order of the fallbacks
    is the documented one: a title with text gives the name. *)
Lemma title_wins_without_site_name (soup : node) (website_url : string) :
  Forall (fun m => is_set (Soup.attr m "content") = false)
         (site_name_metas soup) ->
  title_wins soup website_url.
Proof.
  intros Hmetas t Ht Hne. unfold extract_name. rewrite Ht.
  assert (Hm : name_from_metas (site_name_metas soup) (Some t) = Some t).
  { induction Hmetas as [|m ms Hm _ IH]; simpl; [reflexivity|].
    rewrite Hm. exact IH. }
  rewrite Hm. unfold name_from_header.
  assert (Hset : is_set (Some t) = true)
    by (destruct t; [destruct Hne; reflexivity | reflexivity]).
  rewrite Hset. cbn [negb]. destruct t; [destruct Hne; reflexivity|].
  reflexivity.
Qed.

(** The loop over the site-name metas is not guarded by the name found so
    far: the first of them with content replaces the title. *)
Lemma site_name_replaces_title (soup : node) (website_url : string)
      (m : node) (rest : list node) (c : string) :
  site_name_metas soup = m :: rest ->
  Soup.attr m "content" = Some c ->
  Py.truthy c = true ->
  Py.truthy (Helpers.clean_text c) = true ->
  extract_name soup website_url = Ok (Helpers.clean_text c).
Proof.
  intros Hmetas Hc Htruthy Hclean. unfold extract_name.
  rewrite Hmetas. cbn [name_from_metas]. rewrite Hc.
  cbn [is_set or_else]. rewrite Htruthy.
  unfold name_from_header. cbn [is_set]. rewrite Hclean. cbn [negb].
  rewrite Hclean. reflexivity.
Qed.

End BrandName.

Section BrandNameScenario.
Import Extract Homepage.

(** C7 on a homepage with [<title>Acme Co</title>] and an [og:site_name]
    meta: the title step finds "Acme Co", the name returned is the content
    of the meta. *)
Theorem site_name_meta_overrides_title :
  name_from_title (lib := Shop.plain_library) acme_soup = Some "Acme Co" /\
  _extract_basic_info (lib := Shop.plain_library) acme_soup
                      "https://acme.example"
  = Ok [("name", PStr "Acme Store"); ("brand_context", PStr "")].
Proof. split; vm_compute; reflexivity. Qed.

Lemma title_does_not_win :
  ~ title_wins (lib := Shop.plain_library) acme_soup "https://acme.example".
Proof.
  intros Hwins.
  specialize (Hwins "Acme Co" eq_refl ltac:(discriminate)).
  vm_compute in Hwins. discriminate.
Qed.

End BrandNameScenario.

(** ** The whole scrape *)

Section ScrapeStore.
Import Site.
Context {lib : Library} {order : SetOrder} {passes : Passes}.

Example extract_domain_samples :
  map Helpers.extract_domain
      ["HTTPS://Shop.Example/path?x"; "http://a.b:80/x"; "example.com"; "[";
       "https://["; "https://a]b/"]
  = [Ok "shop.example"; Ok "a.b:80"; Ok ""; Ok "";
     Raise (Exn ValueError "Invalid IPv6 URL");
     Raise (Exn ValueError "Invalid IPv6 URL")].
Proof. vm_compute. reflexivity. Qed.

(** C10 on the input ["["]: the body qualifies it to ["https://["], the
    extraction of the domain raises [ValueError] before [domain] is bound,
    the handler extracts the domain again and the same exception leaves
    [scrape_store]. *)
Theorem scrape_store_raises_on_bracket (fuel : nat) (w : world) :
  scrape_store fuel "[" w = (Raise (Exn ValueError "Invalid IPv6 URL"), w).
Proof. reflexivity. Qed.

(** More generally, an input whose qualified form [urlparse] rejects makes
    [scrape_store] raise what [urlparse] raises. *)
Lemma scrape_body_run (fuel : nat) (url : string) (w : world) :
  scrape_body fuel (w, Locals url None) =
  match Helpers.extract_domain (qualified url) with
  | Ok d =>
      let (r, w') := scrape_pipeline fuel (qualified url) d w in
      (r, (w', Locals (qualified url) (Some d)))
  | Raise e => (Raise e, (w, Locals (qualified url) None))
  | OutOfFuel => (OutOfFuel, (w, Locals (qualified url) None))
  end.
Proof.
  unfold scrape_body, qualified.
  unfold bind at 1. unfold get_local at 1. cbn [snd fst Site.website_url].
  destruct (negb (Py.startswith url "http://" || Py.startswith url "https://")).
  - unfold bind at 1. unfold set_website_url at 1. cbn [fst snd Site.domain].
    unfold bind at 1. unfold get_local at 1. cbn [fst snd Site.website_url].
    unfold bind at 1. unfold lift at 1.
    destruct (Helpers.extract_domain _) as [d | e |]; try reflexivity.
  - unfold bind at 1. unfold ret at 1.
    unfold bind at 1. unfold get_local at 1. cbn [fst snd Site.website_url].
    unfold bind at 1. unfold lift at 1.
    destruct (Helpers.extract_domain _) as [d | e |]; try reflexivity.
Qed.

(** The whole of [scrape_store] in terms of its pipeline. *)
Lemma scrape_store_run (fuel : nat) (url : string) (w : world) :
  scrape_store fuel url w =
  match Helpers.extract_domain (qualified url) with
  | Ok d =>
      match scrape_pipeline fuel (qualified url) d w with
      | (Raise e, w') => (Ok (failed_result (qualified url) d e), w')
      | r => r
      end
  | Raise e => (Raise e, w)
  | OutOfFuel => (OutOfFuel, w)
  end.
Proof.
  unfold scrape_store, try_except. rewrite scrape_body_run.
  destruct (Helpers.extract_domain (qualified url)) as [d | e |] eqn:Hd.
  - destruct (scrape_pipeline fuel (qualified url) d w) as [[r | e |] w'];
      reflexivity.
  - cbn [any_exception]. unfold scrape_failed.
    unfold bind at 1. unfold get_local at 1.
    cbn [fst snd Site.website_url Site.domain].
    unfold bind at 1. unfold lift at 1. rewrite Hd. reflexivity.
  - reflexivity.
Qed.

(** An input whose qualified form [urlparse] rejects makes [scrape_store]
    raise what [urlparse] raises. *)
Lemma scrape_store_raises_on_unparsable (fuel : nat) (url : string)
      (w : world) (e : exn) :
  Helpers.extract_domain (qualified url) = Raise e ->
  scrape_store fuel url w = (Raise e, w).
Proof. intros He. rewrite scrape_store_run, He. reflexivity. Qed.

(** For every other input the handler does its work: [scrape_store]
    returns, and what it returns for an exception [e] of the body is the
    record of the failure. *)
Lemma scrape_store_catches (fuel : nat) (url : string) (w : world) (d : string) :
  Helpers.extract_domain (qualified url) = Ok d ->
  match scrape_pipeline fuel (qualified url) d w with
  | (Ok r, w') => scrape_store fuel url w = (Ok r, w')
  | (Raise e, w') =>
      scrape_store fuel url w = (Ok (failed_result (qualified url) d e), w')
  | (OutOfFuel, w') => scrape_store fuel url w = (OutOfFuel, w')
  end.
Proof.
  intros Hd. rewrite scrape_store_run, Hd.
  destruct (scrape_pipeline fuel (qualified url) d w) as [[r | e |] w'];
    reflexivity.
Qed.

End ScrapeStore.

(** ** The scraper leaves the database alone *)

Section Oblivious.
Context {S : Type} `{HasDb S}.

Lemma oblivious_ret {A} (a : A) : oblivious (S := S) (ret a).
Proof. intros s d. reflexivity. Qed.

Lemma oblivious_raise {A} (e : exn) : oblivious (S := S) (@raise S A e).
Proof. intros s d. reflexivity. Qed.

Lemma oblivious_lift {A} (r : result A) : oblivious (S := S) (lift r).
Proof. intros s d. reflexivity. Qed.

Lemma oblivious_bind {A B} (c : ST S A) (k : A -> ST S B) :
  oblivious c -> (forall a, oblivious (k a)) -> oblivious (bind c k).
Proof.
  intros Hc Hk s d. unfold bind. rewrite Hc.
  destruct (c s) as [[a | e |] s']; cbn [fst snd]; try reflexivity.
  apply Hk.
Qed.

Lemma oblivious_try_except {A} (c : ST S A) (catches : exn -> bool)
      (h : exn -> ST S A) :
  oblivious c -> (forall e, oblivious (h e)) ->
  oblivious (try_except c catches h).
Proof.
  intros Hc Hh s d. unfold try_except. rewrite Hc.
  destruct (c s) as [[a | e |] s']; cbn [fst snd]; try reflexivity.
  destruct (catches e); [apply Hh | reflexivity].
Qed.

Lemma oblivious_for_each {X A} (xs : list X) (body : X -> ST S (flow A)) :
  (forall x, oblivious (body x)) -> oblivious (for_each xs body).
Proof.
  intros Hbody. induction xs as [|x xs IH]; cbn [for_each].
  - apply oblivious_ret.
  - apply oblivious_bind; [apply Hbody|].
    intros [a | |]; [apply oblivious_ret | apply oblivious_ret | exact IH].
Qed.

Lemma oblivious_while_true {A} (fuel : nat) (body : ST S (flow A)) :
  oblivious body -> oblivious (while_true fuel body).
Proof.
  intros Hbody. induction fuel as [|fuel IH]; cbn [while_true].
  - intros s d. reflexivity.
  - apply oblivious_bind; [exact Hbody|].
    intros [a | |]; [apply oblivious_ret | apply oblivious_ret | exact IH].
Qed.

End Oblivious.

Section ObliviousWorld.

Lemma oblivious_emit (e : event) : oblivious (emit e).
Proof. intros w d. reflexivity. Qed.

Lemma oblivious_sleep (seconds : Z) : oblivious (sleep seconds).
Proof. apply oblivious_emit. Qed.

Lemma oblivious_session_get (url : string) (timeout : Z) :
  oblivious (Requests.session_get url timeout).
Proof.
  intros w d. unfold Requests.session_get. cbn.
  destruct (net w url _); reflexivity.
Qed.

Lemma oblivious_with_locals {L A} (c : M A) :
  oblivious c -> oblivious (@with_locals L A c).
Proof.
  intros Hc [w l] d. unfold with_locals. cbn [with_db locals_have_db fst snd].
  pose proof (Hc w d) as Hw. cbn [with_db world_has_db] in Hw. rewrite Hw.
  destruct (c w) as [r w']. reflexivity.
Qed.

Lemma oblivious_get_local {L} : oblivious (@get_local L).
Proof. intros s d. reflexivity. Qed.

Lemma oblivious_set_local {L} (l : L) : oblivious (set_local l).
Proof. intros s d. reflexivity. Qed.

(** An oblivious computation leaves the session it finds. *)
Lemma oblivious_db {A} (c : M A) (w : world) :
  oblivious c -> db (snd (c w)) = db w.
Proof.
  intros Hc. pose proof (Hc w (db w)) as Hw.
  cbn [with_db world_has_db] in Hw.
  replace (World (net w) (log w) (db w)) with w in Hw by (destruct w; reflexivity).
  rewrite Hw at 1. reflexivity.
Qed.

End ObliviousWorld.

Create HintDb obl.

#[local] Hint Resolve oblivious_ret oblivious_raise oblivious_lift
  oblivious_sleep oblivious_emit oblivious_session_get oblivious_get_local
  oblivious_set_local : obl.

Ltac obl_step :=
  first
    [ solve [auto with obl]
    | apply oblivious_with_locals
    | apply oblivious_for_each; intros
    | apply oblivious_while_true
    | apply oblivious_try_except; [|intros]
    | apply oblivious_bind; [|intros]
    | match goal with
      | |- oblivious (match ?x with _ => _ end) => destruct x
      | |- oblivious (if ?b then _ else _) => destruct b
      end ].

Ltac obl := repeat obl_step.

Section ScraperOblivious.
Context {lib : Library} {order : SetOrder} {passes : Passes}
      {services : Collaborators}.

Lemma oblivious_fetch_attempt (url : string) (timeout attempt : Z) :
  oblivious (Fetch.fetch_attempt url timeout attempt).
Proof. unfold Fetch.fetch_attempt. obl. Qed.

Lemma oblivious_fetch_page (url : string) (timeout : option Z) :
  oblivious (Fetch._fetch_page url timeout).
Proof.
  unfold Fetch._fetch_page. obl.
Qed.

Lemma oblivious_append_product (p : pyval) :
  oblivious (Catalog.append_product p).
Proof. intros s d. reflexivity. Qed.

Lemma oblivious_next_page : oblivious Catalog.next_page.
Proof. intros s d. reflexivity. Qed.

Lemma oblivious_page_round (site products_url : string) :
  oblivious (Catalog.page_round site products_url).
Proof.
  unfold Catalog.page_round.
  pose proof oblivious_fetch_page. pose proof oblivious_append_product.
  pose proof oblivious_next_page. obl.
Qed.

Lemma oblivious_get_product_catalog (fuel : nat) (site : string) :
  oblivious (Catalog._get_product_catalog fuel site).
Proof.
  intros w d. unfold Catalog._get_product_catalog.
  set (attempt := try_except _ _ _).
  assert (Hattempt : oblivious attempt).
  { subst attempt. pose proof oblivious_page_round. obl. }
  pose proof (Hattempt (w, Catalog.Locals 1 []) d) as Hrun.
  cbn [with_db locals_have_db world_has_db fst snd] in *.
  rewrite Hrun.
  destruct (attempt (w, Catalog.Locals 1 [])) as [[u | e |] [w' l']];
    reflexivity.
Qed.

Lemma oblivious_fetch_policy_text (policy_url : string) :
  oblivious (Site.fetch_policy_text policy_url).
Proof.
  unfold Site.fetch_policy_text. pose proof oblivious_fetch_page. obl.
Qed.

Lemma oblivious_find_policy (soup : node) (site : string)
      (keywords : list string) :
  oblivious (Site.find_policy soup site keywords).
Proof.
  unfold Site.find_policy. pose proof oblivious_fetch_policy_text. obl.
Qed.

Lemma oblivious_extract_policies (soup : node) (site : string) :
  oblivious (Site._extract_policies soup site).
Proof.
  unfold Site._extract_policies. generalize (@nil (string * pyval)).
  induction Site.policies as [|[policy_type keywords] ps IH]; intros result;
    cbn [Site.policies_loop].
  - obl.
  - apply oblivious_bind; [apply oblivious_find_policy|]. intros r. apply IH.
Qed.

Lemma oblivious_scrape_pipeline (fuel : nat) (site domain : string) :
  oblivious (Site.scrape_pipeline fuel site domain).
Proof.
  unfold Site.scrape_pipeline.
  pose proof oblivious_fetch_page. pose proof oblivious_extract_policies.
  pose proof oblivious_get_product_catalog. obl.
Qed.

Lemma oblivious_scrape_store (fuel : nat) (url : string) :
  oblivious (Site.scrape_store fuel url).
Proof.
  intros w d.
  pose proof (oblivious_scrape_pipeline fuel (Site.qualified url)) as Hp.
  cbn [with_db world_has_db].
  rewrite !scrape_store_run.
  destruct (Helpers.extract_domain (Site.qualified url)) as [dom | e |];
    try reflexivity.
  pose proof (Hp dom w d) as Hw. cbn [with_db world_has_db] in Hw.
  rewrite Hw.
  destruct (Site.scrape_pipeline fuel (Site.qualified url) dom w)
    as [[r | e |] w']; reflexivity.
Qed.

Lemma oblivious_analyze_competitor (fuel : nat) (url : string) :
  oblivious (CompetitorAnalyzer.analyze_competitor fuel url).
Proof.
  unfold CompetitorAnalyzer.analyze_competitor.
  pose proof oblivious_scrape_store. obl.
Qed.

End ScraperOblivious.

(** ** The session without faults *)

Section QuietSession.
Import Models.

Lemma round_trip_quiet (w : world) :
  faults (db w) = [] -> Db.round_trip w = (Ok tt, w).
Proof. intros Hq. unfold Db.round_trip. rewrite Hq. reflexivity. Qed.

Lemma flush_brand_persistent (b : obj) (i : Z) (t : tables) :
  obj_id b = Some i -> obj_attached b = true ->
  flush_brand b t =
  (b, Tables (update_row i (obj_attrs b) (brands t)) (products t)
             (competitors t) (analyses t) (next_brand_id t)
             (next_product_id t) (next_competitor_id t) (next_analysis_id t)).
Proof. intros Hi Ha. unfold flush_brand. rewrite Ha, Hi. reflexivity. Qed.

Lemma commit_quiet (b : obj) (w : world) :
  faults (db w) = [] ->
  Db.commit b w =
  (Ok (fst (flush_brand b (pending (db w)))),
   World (net w) (log w)
         (Session (snd (flush_brand b (pending (db w))))
                  (snd (flush_brand b (pending (db w)))) [])).
Proof.
  intros Hq. unfold Db.commit. unfold bind at 1.
  rewrite (round_trip_quiet w Hq).
  unfold bind at 1. unfold Db.get_db at 1.
  destruct (flush_brand b (pending (db w))) as [b' t].
  unfold bind, Db.put_db, ret. cbn [net log db fst snd]. rewrite Hq.
  reflexivity.
Qed.

Lemma add_competitor_and_commit_quiet (b : obj) (attrs : Val.dict) (w : world) :
  faults (db w) = [] ->
  Db.add_competitor_and_commit b attrs w =
  (Ok (fst (flush_brand b (pending (db w))),
       fst (insert_competitor attrs (snd (flush_brand b (pending (db w)))))),
   World (net w) (log w)
     (Session
        (snd (insert_competitor attrs (snd (flush_brand b (pending (db w))))))
        (snd (insert_competitor attrs (snd (flush_brand b (pending (db w))))))
        [])).
Proof.
  intros Hq. unfold Db.add_competitor_and_commit. unfold bind at 1.
  rewrite (round_trip_quiet w Hq).
  unfold bind at 1. unfold Db.get_db at 1.
  destruct (flush_brand b (pending (db w))) as [b' t].
  destruct (insert_competitor attrs t) as [c t'] eqn:Hins.
  unfold bind, Db.put_db, ret. cbn [net log db fst snd]. rewrite Hq.
  rewrite ?Hins. reflexivity.
Qed.

End QuietSession.

(** ** The competitor batch *)

Section CompetitorBatch.
Import Models BrandAnalyzer Batch.
Context {lib : Library} {order : SetOrder} {passes : Passes}
      {services : Collaborators}.

Lemma save_competitor_quiet (b : obj) (i : Z) (data : Val.dict) (w : world) :
  obj_id b = Some i -> obj_attached b = true -> faults (db w) = [] ->
  _save_competitor data (w, Some b) =
  (Ok (stored b data (db w)),
   (World (net w) (log w) (after_store b data (db w)), Some b)).
Proof.
  intros Hi Ha Hq. unfold _save_competitor.
  unfold bind at 1. unfold the_brand. unfold bind at 1.
  unfold get_local at 1. cbn [snd]. unfold ret at 1.
  unfold bind at 1. unfold with_locals at 1. cbn [fst snd].
  rewrite (add_competitor_and_commit_quiet b _ w Hq).
  unfold bind at 1. unfold set_local at 1. cbn [fst snd]. unfold ret.
  unfold stored, after_store. rewrite Hq.
  rewrite (flush_brand_persistent b (pending (db w)) Hi Ha). reflexivity.
Qed.

Lemma after_store_quiet (b : obj) (data : Val.dict) (s : session) :
  faults s = [] -> faults (after_store b data s) = [].
Proof. intros Hq. exact Hq. Qed.

(** The loop over the competitors: each one is analysed, whatever became of
    the ones before, and the ones whose scrape completed are stored. *)
Lemma competitors_loop_run (fuel : nat) (b : obj) (i : Z) (urls : list string) :
  obj_id b = Some i -> obj_attached b = true ->
  forall (ws : world) (s : session) (acc : list pyval),
    faults s = [] ->
    Forall returned (fst (analyses fuel urls ws)) ->
    let done := filter completed (values (fst (analyses fuel urls ws))) in
    let ws' := snd (analyses fuel urls ws) in
    competitors_loop fuel urls acc (World (net ws) (log ws) s, Some b) =
    (Ok (acc ++ map (fun c => PDict (competitor_to_dict c))
                    (fst (store_all b done s)))%list,
     (World (net ws') (log ws') (snd (store_all b done s)), Some b)).
Proof.
  intros Hi Ha. induction urls as [|url urls IH]; intros ws s acc Hq Hall;
    cbn [competitors_loop analyses].
  - cbn. rewrite app_nil_r. reflexivity.
  - cbn [analyses] in Hall.
    pose proof (oblivious_analyze_competitor fuel url ws s) as Hobl.
    cbn [with_db world_has_db] in Hobl.
    destruct (CompetitorAnalyzer.analyze_competitor fuel url ws)
      as [r w1] eqn:Hrun.
    destruct (analyses fuel urls w1) as [rs w2] eqn:Hrest.
    cbn [fst snd] in *. inversion Hall as [|? ? [data ->] Hall']; subst.
    unfold bind at 1. unfold with_locals at 1. cbn [fst snd].
    rewrite Hobl. cbn [values flat_map app filter].
    fold (values rs).
    change (Val.eq_str (Val.get data "scraping_status") "completed")
      with (completed data).
    destruct (completed data) eqn:Hc.
    + unfold bind at 1.
      rewrite (@save_competitor_quiet b i data (World (net w1) (log w1) s)
                 Hi Ha Hq).
      cbn [net log db].
      specialize (IH w1 (after_store b data s)
                     (acc ++ [PDict (competitor_to_dict (stored b data s))])%list
                     (after_store_quiet b data s Hq)).
      rewrite Hrest in IH. cbn [fst snd] in IH. rewrite (IH Hall').
      cbn [store_all].
      destruct (store_all b (filter completed (values rs)) (after_store b data s))
        as [cs s'].
      cbn [fst snd map]. rewrite <- app_assoc. reflexivity.
    + specialize (IH w1 s acc Hq). rewrite Hrest in IH. cbn [fst snd] in IH.
      rewrite (IH Hall'). reflexivity.
Qed.

End CompetitorBatch.

Section StoredCompetitors.
Import Models BrandAnalyzer Batch.

Lemma eq_str_true (v : pyval) (s : string) :
  Val.eq_str v s = true -> v = PStr s.
Proof.
  destruct v; cbn; try discriminate. intros Hs.
  apply String.eqb_eq in Hs. congruence.
Qed.


Lemma get_set_other (k k' : string) (v : pyval) (d : Val.dict) :
  k <> k' -> Val.get (Val.set k' v d) k = Val.get d k.
Proof. intros Hne. unfold Val.get. rewrite lookup_set_other; auto. Qed.

Lemma get_with_default_other (k k' : string) (v : pyval) (d : Val.dict) :
  k <> k' -> Val.get (with_default k' v d) k = Val.get d k.
Proof.
  intros Hne. unfold with_default.
  destruct (Val.get d k'); try reflexivity. apply get_set_other. exact Hne.
Qed.

Lemma get_with_default_set (k : string) (v x : pyval) (d : Val.dict) :
  Val.get d k = x -> x <> PNone -> Val.get (with_default k v d) k = x.
Proof.
  intros Hx Hne. unfold with_default. rewrite Hx.
  destruct x; try exact Hx. destruct Hne; reflexivity.
Qed.

(** The status of a competitor that is stored is the one of its scrape. *)
Lemma stored_status (b : obj) (data : Val.dict) :
  completed data = true ->
  Val.get (competitor_defaults (competitor_attrs b data)) "scraping_status"
  = PStr "completed".
Proof.
  intros Hc. apply eq_str_true in Hc.
  unfold competitor_defaults, brand_defaults.
  apply get_with_default_set; [|discriminate].
  rewrite get_with_default_other by discriminate.
  unfold competitor_attrs. cbn. exact Hc.
Qed.

Lemma store_all_attrs (b : obj) (done : list Val.dict) (s : session) :
  map obj_attrs (fst (store_all b done s)) =
  map (fun data => competitor_defaults (competitor_attrs b data)) done.
Proof.
  revert s. induction done as [|data done IH]; intros s; cbn [store_all].
  - reflexivity.
  - specialize (IH (after_store b data s)).
    destruct (store_all b done (after_store b data s)) as [cs s'].
    cbn [fst map] in *. rewrite IH. reflexivity.
Qed.

Lemma store_all_competitors (b : obj) (i : Z) (done : list Val.dict) :
  obj_id b = Some i -> obj_attached b = true ->
  forall s,
    competitors (pending (snd (store_all b done s))) =
    (competitors (pending s) ++ map row_of (fst (store_all b done s)))%list.
Proof.
  intros Hi Ha. induction done as [|data done IH]; intros s; cbn [store_all].
  - cbn. rewrite app_nil_r. reflexivity.
  - specialize (IH (after_store b data s)).
    destruct (store_all b done (after_store b data s)) as [cs s'].
    cbn [fst snd map] in *. rewrite IH.
    unfold after_store, stored.
    rewrite (flush_brand_persistent b (pending s) Hi Ha).
    cbn. rewrite <- app_assoc. reflexivity.
Qed.

Lemma store_all_committed (b : obj) (done : list Val.dict) (s : session) :
  done <> [] ->
  committed (snd (store_all b done s)) = pending (snd (store_all b done s)).
Proof.
  revert s. induction done as [|data done IH]; intros s Hne;
    [destruct Hne; reflexivity|].
  cbn [store_all].
  destruct done as [|data' done'].
  - cbn. reflexivity.
  - specialize (IH (after_store b data s) ltac:(discriminate)).
    destruct (store_all b (data' :: done') (after_store b data s)) as [cs s'].
    exact IH.
Qed.

Lemma stored_all_completed (b : obj) (done : list Val.dict) :
  Forall (fun data => completed data = true) done ->
  forall saved,
    map obj_attrs saved =
      map (fun data => competitor_defaults (competitor_attrs b data)) done ->
    Forall (fun c => getattr c "scraping_status" = PStr "completed") saved.
Proof.
  induction 1 as [|data done' Hdata Hdone IH]; intros [|c cs] Hattrs;
    try discriminate; constructor.
  - cbn [map] in Hattrs. injection Hattrs as Hc _.
    unfold getattr. rewrite Hc. apply stored_status. exact Hdata.
  - cbn [map] in Hattrs. injection Hattrs as _ Hcs. apply IH. exact Hcs.
Qed.

End StoredCompetitors.

Section CompetitorContract.
Import Models BrandAnalyzer Batch.
Context {lib : Library} {order : SetOrder} {passes : Passes}
      {services : Collaborators}.

(** C6, amended.  Every competitor is analysed, whatever became of the ones
    before it.  A competitor whose scrape does not complete is left out:
    no record is stored for it and it is absent from the list returned.
    The competitors whose scrape completes are stored and returned, in the
    order of the batch, each with the status [completed]. *)
Theorem competitor_batch_contract (fuel : nat) (b : obj) (i : Z) (w : world) :
  obj_id b = Some i -> obj_attached b = true -> faults (db w) = [] ->
  let urls := CompetitorAnalyzer.find_competitors (getattr b "name") in
  Forall returned (fst (analyses fuel urls w)) ->
  let done := filter completed (values (fst (analyses fuel urls w))) in
  let run := _analyze_competitors fuel (w, Some b) in
  exists saved : list obj,
    fst run = Ok (map (fun c => PDict (competitor_to_dict c)) saved) /\
    map obj_attrs saved =
      map (fun data => competitor_defaults (competitor_attrs b data)) done /\
    competitors (pending (db (fst (snd run)))) =
      (competitors (pending (db w)) ++ map row_of saved)%list /\
    Forall (fun c => getattr c "scraping_status" = PStr "completed") saved /\
    log (fst (snd run)) = log (snd (analyses fuel urls w)).
Proof.
  intros Hi Ha Hq urls Hall done run.
  assert (Hrun : run =
            (Ok (map (fun c => PDict (competitor_to_dict c))
                     (fst (store_all b done (db w)))),
             (World (net (snd (analyses fuel urls w)))
                    (log (snd (analyses fuel urls w)))
                    (snd (store_all b done (db w))), Some b))).
  { subst run. unfold _analyze_competitors, try_except.
    unfold bind at 1. unfold the_brand. unfold bind at 1.
    unfold get_local at 1. cbn [snd]. unfold ret at 1.
    fold urls.
    pose proof (@competitors_loop_run _ _ _ _ fuel b i urls Hi Ha w (db w) []
                  Hq Hall) as Hloop.
    cbv zeta in Hloop. fold done in Hloop.
    replace (World (net w) (log w) (db w)) with w in Hloop
      by (destruct w; reflexivity).
    rewrite Hloop. reflexivity. }
  exists (fst (store_all b done (db w))). rewrite Hrun. cbn [fst snd db log].
  split; [reflexivity|]. split; [apply store_all_attrs|].
  split; [apply (@store_all_competitors b i done Hi Ha (db w))|].
  split; [|reflexivity].
  apply (@stored_all_completed b done); [|apply store_all_attrs].
  subst done. apply Forall_forall. intros data Hin.
  apply filter_In in Hin. apply Hin.
Qed.

End CompetitorContract.

Section CompetitorScenario.
Import Models BrandAnalyzer Batch.

(** The batch on the market: [gymshark.com] is tried three times and given
    up, the two other competitors are stored. *)
Example market_batch :
  option_map (@List.length pyval)
             (match fst market_run with Ok l => Some l | _ => None end)
  = Some 2%nat /\
  map row_id (competitors (committed (db (fst (snd market_run))))) = [1; 2] /\
  map (fun r => Val.get (row_attrs r) "website_url")
      (competitors (committed (db (fst (snd market_run)))))
  = [PStr "https://allbirds.com"; PStr "https://colourpop.com"] /\
  Fetch.requests (log (fst (snd market_run)))
  = ["https://gymshark.com"; "https://gymshark.com"; "https://gymshark.com";
     "https://allbirds.com"; "https://colourpop.com"].
Proof. vm_compute. repeat split; reflexivity. Qed.

(** C6, as stated, fails: the batch stores no record with the status
    [failed] for the competitor that could not be reached. *)
Lemma failed_competitor_not_recorded :
  ~ failure_recorded (db market_world) (db (fst (snd market_run))).
Proof.
  intros (r & Hin & _ & Hstatus).
  vm_compute in Hin.
  destruct Hin as [<- | [<- | []]]; vm_compute in Hstatus; discriminate.
Qed.

Lemma competitor_batch_contract_witness :
  obj_id acme_brand = Some 1 /\ obj_attached acme_brand = true /\
  faults (db market_world) = [] /\
  Forall returned
    (fst (analyses (lib := Shop.plain_library) (order := Homepage.last_first)
            (passes := Homepage.quiet_passes) (services := quiet_services) 5
            (CompetitorAnalyzer.find_competitors (getattr acme_brand "name"))
            market_world)) /\
  exists saved : list obj,
    fst market_run = Ok (map (fun c => PDict (competitor_to_dict c)) saved) /\
    Forall (fun c => getattr c "scraping_status" = PStr "completed") saved.
Proof.
  assert (Hall : Forall returned
    (fst (analyses (lib := Shop.plain_library) (order := Homepage.last_first)
            (passes := Homepage.quiet_passes) (services := quiet_services) 5
            (CompetitorAnalyzer.find_competitors (getattr acme_brand "name"))
            market_world))).
  { vm_compute. repeat constructor; eexists; reflexivity. }
  split; [reflexivity|]. split; [reflexivity|]. split; [reflexivity|].
  split; [exact Hall|].
  destruct (@competitor_batch_contract Shop.plain_library Homepage.last_first
              Homepage.quiet_passes quiet_services 5%nat acme_brand 1
              market_world eq_refl eq_refl eq_refl Hall)
    as (saved & Hrun & _ & _ & Hstatus & _).
  exists saved. split; [exact Hrun | exact Hstatus].
Defined.

End CompetitorScenario.

(** ** Round trips *)

Section RoundTrips.
Import Models Invariant.

Lemma round_trip_run (w : world) :
  Db.round_trip w =
  match fault_ahead (db w) with
  | Some e => (Raise e, with_session w (popped (db w)))
  | None => (Ok tt, with_session w (popped (db w)))
  end.
Proof.
  unfold Db.round_trip, fault_ahead, popped, with_session.
  destruct w as [n l [c p f]]. cbn [db faults committed pending net log].
  destruct f as [|[e|] rest]; reflexivity.
Qed.

Lemma commit_run (b : obj) (w : world) :
  Db.commit b w =
  match fault_ahead (db w) with
  | Some e => (Raise e, with_session w (popped (db w)))
  | None =>
      (Ok (fst (flush_brand b (pending (db w)))),
       with_session w (Session (flushed b (popped (db w)))
                               (flushed b (popped (db w)))
                               (faults (popped (db w)))))
  end.
Proof.
  unfold Db.commit. unfold bind at 1. rewrite round_trip_run.
  destruct (fault_ahead (db w)); [reflexivity|].
  unfold bind at 1. unfold Db.get_db at 1. unfold with_session at 1.
  cbn [db]. unfold flushed. cbn [pending popped].
  destruct (flush_brand b (pending (db w))) as [b' t].
  reflexivity.
Qed.

Lemma delete_products_run (b : obj) (w : world) :
  Db.delete_products b w =
  match fault_ahead (db w) with
  | Some e => (Raise e, with_session w (popped (db w)))
  | None =>
      (Ok (fst (flush_brand b (pending (db w)))),
       with_session w
         (Session (committed (db w))
                  (delete_products_of
                     (id_val (fst (flush_brand b (pending (db w)))))
                     (flushed b (popped (db w))))
                  (faults (popped (db w)))))
  end.
Proof.
  unfold Db.delete_products. unfold bind at 1. rewrite round_trip_run.
  destruct (fault_ahead (db w)); [reflexivity|].
  unfold bind at 1. unfold Db.get_db at 1. unfold with_session at 1.
  cbn [db]. unfold flushed. cbn [pending popped committed].
  destruct (flush_brand b (pending (db w))) as [b' t].
  reflexivity.
Qed.

Lemma add_competitor_and_commit_run (b : obj) (attrs : Val.dict) (w : world) :
  Db.add_competitor_and_commit b attrs w =
  match fault_ahead (db w) with
  | Some e => (Raise e, with_session w (popped (db w)))
  | None =>
      (Ok (fst (flush_brand b (pending (db w))),
           fst (insert_competitor attrs (flushed b (popped (db w))))),
       with_session w
         (Session (snd (insert_competitor attrs (flushed b (popped (db w)))))
                  (snd (insert_competitor attrs (flushed b (popped (db w)))))
                  (faults (popped (db w)))))
  end.
Proof.
  unfold Db.add_competitor_and_commit. unfold bind at 1.
  rewrite round_trip_run.
  destruct (fault_ahead (db w)); [reflexivity|].
  unfold bind at 1. unfold Db.get_db at 1. unfold with_session at 1.
  cbn [db]. unfold flushed. cbn [pending popped].
  destruct (flush_brand b (pending (db w))) as [b' t].
  cbn [fst snd]. destruct (insert_competitor attrs t) as [c t'].
  reflexivity.
Qed.

Lemma add_analysis_and_commit_run (b : obj) (attrs : Val.dict) (w : world) :
  Db.add_analysis_and_commit b attrs w =
  match fault_ahead (db w) with
  | Some e => (Raise e, with_session w (popped (db w)))
  | None =>
      (Ok (fst (flush_brand b (pending (db w)))),
       with_session w
         (Session (insert_analysis attrs (flushed b (popped (db w))))
                  (insert_analysis attrs (flushed b (popped (db w))))
                  (faults (popped (db w)))))
  end.
Proof.
  unfold Db.add_analysis_and_commit. unfold bind at 1.
  rewrite round_trip_run.
  destruct (fault_ahead (db w)); [reflexivity|].
  unfold bind at 1. unfold Db.get_db at 1. unfold with_session at 1.
  cbn [db]. unfold flushed. cbn [pending popped].
  destruct (flush_brand b (pending (db w))) as [b' t].
  reflexivity.
Qed.

Lemma flush_persistent (i : Z) (b : obj) (t : tables) :
  persistent i b -> fst (flush_brand b t) = b.
Proof.
  intros [Hi Ha]. rewrite (flush_brand_persistent b t Hi Ha). reflexivity.
Qed.

End RoundTrips.

(** ** What the orchestrator preserves *)

Section Preservation.
Import Models BrandAnalyzer Invariant.
Context {lib : Library} {order : SetOrder} {passes : Passes}
        {services : Collaborators}.
Variables (i : Z) (Q : session -> Prop).
Hypothesis HQ : stable i Q.

Let I : State -> Prop := holds Q i.

Lemma preserves_ret {A} (a : A) : preserves I (ret a).
Proof. intros s Hs. exact Hs. Qed.

Lemma preserves_raise {A} (e : exn) : preserves I (@raise State A e).
Proof. intros s Hs. exact Hs. Qed.

Lemma preserves_lift {A} (r : result A) : preserves I (lift r).
Proof. intros s Hs. exact Hs. Qed.

Lemma preserves_get_local : preserves I get_local.
Proof. intros s Hs. exact Hs. Qed.

Lemma preserves_the_brand : preserves I the_brand.
Proof.
  intros s Hs. unfold the_brand, bind, get_local. cbn [fst snd].
  destruct (snd s); exact Hs.
Qed.

Lemma preserves_bind {A B} (c : ST State A) (k : A -> ST State B) :
  preserves I c -> (forall a, preserves I (k a)) -> preserves I (bind c k).
Proof.
  intros Hc Hk s Hs. unfold bind. specialize (Hc s Hs).
  destruct (c s) as [[a | e |] s']; cbn [snd] in *; try exact Hc.
  apply Hk. exact Hc.
Qed.

Lemma preserves_try_except {A} (c : ST State A) (catches : exn -> bool)
      (h : exn -> ST State A) :
  preserves I c -> (forall e, preserves I (h e)) ->
  preserves I (try_except c catches h).
Proof.
  intros Hc Hh s Hs. unfold try_except. specialize (Hc s Hs).
  destruct (c s) as [[a | e |] s']; cbn [snd] in *; try exact Hc.
  destruct (catches e); [apply Hh; exact Hc | exact Hc].
Qed.

Lemma preserves_for_each {X A} (xs : list X) (body : X -> ST State (flow A)) :
  (forall x, preserves I (body x)) -> preserves I (for_each xs body).
Proof.
  intros Hbody. induction xs as [|x xs IH]; cbn [for_each].
  - apply preserves_ret.
  - apply preserves_bind; [apply Hbody|].
    intros [a | |]; [apply preserves_ret | apply preserves_ret | exact IH].
Qed.

Lemma preserves_with_locals {A} (c : M A) :
  oblivious c -> preserves I (with_locals c).
Proof.
  intros Hc [w l] [Ht Hq]. unfold with_locals. cbn [fst snd] in *.
  pose proof (oblivious_db w Hc) as Hdb.
  destruct (c w) as [r w']. cbn [fst snd] in *.
  split; cbn [fst snd]; [exact Ht | rewrite Hdb; exact Hq].
Qed.

Lemma persistent_setattr (k : string) (v : pyval) (b : obj) :
  persistent i b -> persistent i (setattr k v b).
Proof. intros Hb. exact Hb. Qed.

Lemma preserves_modify (f : obj -> obj) :
  (forall b, persistent i b -> persistent i (f b)) ->
  preserves I (modify_brand f).
Proof.
  intros Hf [w l] [(b & Hl & Hb) Hq]. cbn [fst snd] in *. subst l.
  unfold modify_brand, the_brand, bind, get_local, ret, set_local.
  cbn [fst snd]. split; [|exact Hq].
  exists (f b). split; [reflexivity | apply Hf; exact Hb].
Qed.

Lemma preserves_set_brand (k : string) (v : pyval) :
  preserves I (set_brand k v).
Proof. apply preserves_modify. intros b Hb. exact Hb. Qed.

Lemma persistent_update (b : obj) (data : Val.dict) :
  persistent i b -> persistent i (_update_brand_from_scraped_data b data).
Proof.
  intros Hb. unfold _update_brand_from_scraped_data.
  apply persistent_setattr.
  generalize dependent b. induction scraped_columns as [|k ks IH];
    intros b Hb; cbn [fold_left]; [exact Hb|].
  apply IH. apply persistent_setattr. exact Hb.
Qed.

Lemma preserves_update (data : Val.dict) :
  preserves I
    (modify_brand (fun brand => _update_brand_from_scraped_data brand data)).
Proof.
  apply preserves_modify. intros b Hb. apply persistent_update. exact Hb.
Qed.

Ltac run_on_brand :=
  unfold on_brand, the_brand, bind, get_local, ret, with_locals, set_local;
  cbn [fst snd].

Lemma preserves_commit : preserves I (on_brand Db.commit).
Proof.
  intros [w l] [(b & Hl & Hb) Hq]. cbn [fst snd] in *. subst l.
  run_on_brand. rewrite commit_run.
  destruct (fault_ahead (db w)); cbn [fst snd].
  - split; cbn [fst snd with_session db];
      [exists b; split; [reflexivity | exact Hb] | apply (stable_pop HQ), Hq].
  - rewrite (flush_persistent _ Hb).
    split; cbn [fst snd with_session db];
      [exists b; split; [reflexivity | exact Hb]|].
    apply (stable_commit HQ _ Hb), (stable_pop HQ), Hq.
Qed.

Lemma find_row_id (j : Z) (rs : list row) (r : row) :
  find_row j rs = Some r -> row_id r = j.
Proof.
  unfold find_row. intros Hf. apply find_some in Hf.
  destruct Hf as [_ Hj]. apply Z.eqb_eq in Hj. exact Hj.
Qed.

Lemma preserves_rollback : preserves I (on_brand Db.rollback).
Proof.
  intros [w l] [(b & Hl & Hb) Hq]. cbn [fst snd] in *. subst l.
  run_on_brand. unfold Db.rollback, bind, Db.get_db, Db.put_db, ret.
  cbn [fst snd net log db].
  split; cbn [fst snd db]; [|apply (stable_rollback HQ), Hq].
  destruct Hb as [Hi Ha]. rewrite Hi.
  destruct (find_row i (brands (committed (db w)))) as [r|] eqn:Hr.
  - exists (of_row r). split; [reflexivity|]. split; [|reflexivity].
    cbn. rewrite (find_row_id _ _ Hr). reflexivity.
  - exists b. split; [reflexivity | split; assumption].
Qed.

Lemma preserves_save_competitor (data : Val.dict) :
  preserves I (_save_competitor data).
Proof.
  intros [w l] [(b & Hl & Hb) Hq]. cbn [fst snd] in *. subst l.
  unfold _save_competitor. run_on_brand.
  rewrite add_competitor_and_commit_run.
  destruct (fault_ahead (db w)); cbn [fst snd].
  - split; cbn [fst snd with_session db];
      [exists b; split; [reflexivity | exact Hb] | apply (stable_pop HQ), Hq].
  - rewrite (flush_persistent _ Hb).
    split; cbn [fst snd with_session db];
      [exists b; split; [reflexivity | exact Hb]|].
    apply (stable_competitor HQ _ _ Hb), (stable_pop HQ), Hq.
Qed.

Lemma preserves_save_analysis (report : pyval) :
  preserves I (_save_analysis report).
Proof.
  intros [w l] [(b & Hl & Hb) Hq]. cbn [fst snd] in *. subst l.
  unfold _save_analysis. run_on_brand.
  rewrite add_analysis_and_commit_run.
  destruct (fault_ahead (db w)); cbn [fst snd].
  - split; cbn [fst snd with_session db];
      [exists b; split; [reflexivity | exact Hb] | apply (stable_pop HQ), Hq].
  - rewrite (flush_persistent _ Hb).
    split; cbn [fst snd with_session db];
      [exists b; split; [reflexivity | exact Hb]|].
    apply (stable_analysis HQ _ _ Hb), (stable_pop HQ), Hq.
Qed.

Lemma preserves_competitors_loop (fuel : nat) (urls : list string) :
  forall acc, preserves I (competitors_loop fuel urls acc).
Proof.
  induction urls as [|url urls IH]; intros acc; cbn [competitors_loop].
  - apply preserves_ret.
  - apply preserves_bind.
    + apply preserves_with_locals, oblivious_analyze_competitor.
    + intros data. destruct (Val.eq_str _ _); [|apply IH].
      apply preserves_bind; [apply preserves_save_competitor|].
      intros c. apply IH.
Qed.

Lemma preserves_analyze_competitors (fuel : nat) :
  preserves I (_analyze_competitors fuel).
Proof.
  unfold _analyze_competitors. apply preserves_try_except.
  - apply preserves_bind; [apply preserves_the_brand|].
    intros b. apply preserves_competitors_loop.
  - intros e. apply preserves_ret.
Qed.

Lemma preserves_competition (fuel : nat) (result : Val.dict) :
  preserves I (analyze_competition fuel result).
Proof.
  unfold analyze_competition.
  apply preserves_bind; [apply preserves_analyze_competitors|]. intros cs.
  apply preserves_bind; [apply preserves_the_brand|]. intros b.
  apply preserves_bind; [apply preserves_save_analysis|]. intros _.
  apply preserves_ret.
Qed.

Hypothesis HP : stable_products i Q.

Lemma preserves_delete : preserves I (on_brand Db.delete_products).
Proof.
  intros [w l] [(b & Hl & Hb) Hq]. cbn [fst snd] in *. subst l.
  run_on_brand. rewrite delete_products_run.
  destruct (fault_ahead (db w)); cbn [fst snd].
  - split; cbn [fst snd with_session db];
      [exists b; split; [reflexivity | exact Hb] | apply (stable_pop HQ), Hq].
  - rewrite (flush_persistent _ Hb).
    split; cbn [fst snd with_session db];
      [exists b; split; [reflexivity | exact Hb]|].
    apply (stable_delete HP (id_val b) (popped (db w)) Hb), (stable_pop HQ), Hq.
Qed.

Lemma preserves_add_product (attrs : Val.dict) :
  preserves I (with_locals (Db.add_product attrs)).
Proof.
  intros [w l] [Ht Hq]. unfold with_locals, Db.add_product, bind, Db.get_db,
    Db.put_db. cbn [fst snd db] in *.
  split; cbn [fst snd db]; [exact Ht | apply (stable_insert HP), Hq].
Qed.

Lemma preserves_save_products (products_data : pyval) :
  preserves I (_save_products products_data).
Proof.
  unfold _save_products. apply preserves_try_except.
  - apply preserves_bind; [apply preserves_delete|]. intros _.
    apply preserves_bind; [apply preserves_lift|]. intros items.
    apply preserves_bind; [|intros _; apply preserves_commit].
    apply preserves_for_each. intros product_data.
    apply preserves_bind; [apply preserves_the_brand|]. intros b.
    apply preserves_bind; [apply preserves_lift|]. intros attrs.
    apply preserves_bind; [apply preserves_add_product|]. intros _.
    apply preserves_ret.
  - intros e. apply preserves_rollback.
Qed.

Lemma preserves_rest (fuel : nat) (url : string) (flag : bool) :
  preserves I (analyze_rest fuel url flag).
Proof.
  unfold analyze_rest.
  apply preserves_bind;
    [apply preserves_with_locals, oblivious_scrape_store|].
  intros data. destruct (Val.eq_str _ _).
  - apply preserves_bind; [apply preserves_set_brand|]. intros _.
    apply preserves_bind; [apply preserves_set_brand|]. intros _.
    apply preserves_bind; [apply preserves_commit|]. intros _.
    apply preserves_bind; [apply preserves_the_brand|]. intros b.
    apply preserves_ret.
  - cbv zeta.
    apply preserves_bind; [apply preserves_update|]. intros _.
    apply preserves_bind.
    { destruct (Val.truthy _);
        [apply preserves_save_products | apply preserves_ret]. }
    intros _.
    apply preserves_bind; [apply preserves_set_brand|]. intros _.
    apply preserves_bind; [apply preserves_commit|]. intros _.
    apply preserves_bind; [apply preserves_the_brand|]. intros b.
    destruct flag; [apply preserves_competition | apply preserves_ret].
Qed.

End Preservation.

(** ** The first commit of an analysis *)

Section AnalyzeStart.
Import Models BrandAnalyzer Invariant Upsert.

Lemma analyze_start_run (url : string) (w : world) :
  analyze_start url (w, None) =
  match Helpers.extract_domain url with
  | Ok d =>
      match fault_ahead (db w) with
      | Some e => (Raise e, (with_session w (popped (db w)), None))
      | None =>
          let s1 := popped (db w) in
          let b := prepared url d (existing_brand d s1) in
          match fault_ahead s1 with
          | Some e => (Raise e, (with_session w (popped s1), Some b))
          | None =>
              (Ok tt,
               (with_session w (Session (flushed b (popped s1))
                                        (flushed b (popped s1))
                                        (faults (popped s1))),
                Some (fst (flush_brand b (pending s1)))))
          end
      end
  | Raise e => (Raise e, (w, None))
  | OutOfFuel => (OutOfFuel, (w, None))
  end.
Proof.
  unfold analyze_start. unfold bind at 1. unfold lift at 1.
  destruct (Helpers.extract_domain url) as [d | e |]; try reflexivity.
  unfold bind at 1. unfold with_locals at 1. cbn [fst snd].
  unfold Db.first_brand_by_domain. unfold bind at 1.
  rewrite round_trip_run.
  destruct (fault_ahead (db w)) as [e|]; [reflexivity|].
  unfold bind at 1. unfold Db.get_db at 1. unfold ret at 1.
  cbn [db with_session]. cbv zeta.
  fold (existing_brand d (popped (db w))).
  destruct (existing_brand d (popped (db w))) as [r|] eqn:Hex;
    cbn [option_map].
  - unfold bind at 1. unfold set_local at 1. cbn [fst snd].
    unfold set_brand, modify_brand, the_brand.
    unfold bind, get_local, ret, set_local. cbn [fst snd].
    unfold on_brand, the_brand, bind, get_local, ret, with_locals, set_local.
    cbn [fst snd]. rewrite commit_run.
    unfold with_session. cbn [db net log]. unfold prepared.
    destruct (fault_ahead (popped (db w))); reflexivity.
  - unfold bind at 1. unfold set_local at 1. cbn [fst snd].
    unfold set_brand, modify_brand, the_brand.
    unfold bind, get_local, ret, set_local. cbn [fst snd].
    unfold on_brand, the_brand, bind, get_local, ret, with_locals, set_local.
    cbn [fst snd]. rewrite commit_run.
    unfold with_session. cbn [db net log]. unfold prepared.
    destruct (fault_ahead (popped (db w))); reflexivity.
Qed.

End AnalyzeStart.

(** ** The row of the brand is kept *)

Section RowKept.
Import Models BrandAnalyzer Invariant Upsert.

Lemma update_row_ids (i : Z) (attrs : Val.dict) (rs : list row) :
  map row_id (update_row i attrs rs) = map row_id rs.
Proof.
  unfold update_row. rewrite map_map. apply map_ext_in. intros r _.
  destruct (row_id r =? i) eqn:Hr; [|reflexivity].
  apply Z.eqb_eq in Hr. symmetry. exact Hr.
Qed.


Lemma flushed_persistent (i : Z) (b : obj) (s : session) :
  persistent i b ->
  flushed b s =
  Tables (update_row i (obj_attrs b) (brands (pending s)))
         (products (pending s)) (competitors (pending s))
         (analyses (pending s)) (next_brand_id (pending s))
         (next_product_id (pending s)) (next_competitor_id (pending s))
         (next_analysis_id (pending s)).
Proof.
  intros [Hi Ha]. unfold flushed.
  rewrite (flush_brand_persistent b (pending s) Hi Ha). reflexivity.
Qed.

Lemma has_row_flushed (i : Z) (b : obj) (s : session) :
  persistent i b -> has_row i (pending s) -> has_row i (flushed b s).
Proof.
  intros Hb Hrow. rewrite (flushed_persistent s Hb).
  unfold has_row. cbn [brands]. rewrite update_row_ids. exact Hrow.
Qed.

Lemma stable_row_kept (i : Z) : stable i (row_kept i).
Proof.
  constructor.
  - intros s Hs. exact Hs.
  - intros b s Hb [Hp Hc].
    split; cbn [pending committed]; apply has_row_flushed; assumption.
  - intros b attrs s Hb [Hp Hc].
    split; cbn [pending committed]; unfold has_row; cbn [insert_competitor
      snd brands]; apply has_row_flushed; assumption.
  - intros b attrs s Hb [Hp Hc].
    split; cbn [pending committed]; unfold has_row; cbn [insert_analysis
      brands]; apply has_row_flushed; assumption.
  - intros s [Hp Hc]. split; exact Hc.
Qed.

Lemma stable_products_row_kept (i : Z) : stable_products i (row_kept i).
Proof.
  constructor.
  - intros b v s Hb [Hp Hc]. split; cbn [pending committed]; [|exact Hc].
    unfold has_row. cbn [delete_products_of brands].
    apply has_row_flushed; assumption.
  - intros attrs s [Hp Hc]. split; cbn [pending committed]; [|exact Hc].
    exact Hp.
Qed.

Lemma existing_brand_in (d : string) (s : session) (r : row) :
  existing_brand d s = Some r -> In r (brands (pending s)).
Proof.
  unfold existing_brand, brands_of_domain. intros Hr.
  destruct (filter _ (brands (pending s))) as [|r' rs] eqn:Hf;
    [discriminate|].
  injection Hr as ->.
  assert (Hin : In r (filter (row_has "domain" (fun v => Val.eq_str v d))
                             (brands (pending s))))
    by (rewrite Hf; left; reflexivity).
  apply filter_In in Hin. apply Hin.
Qed.

Lemma prepared_existing (url d : string) (r : row) :
  persistent (row_id r) (prepared url d (Some r)).
Proof. split; reflexivity. Qed.

(** After the first commit the brand has its key and its row. *)
Lemma start_establishes (url : string) (w : world) (s0 : State) :
  analyze_start url (w, None) = (Ok tt, s0) ->
  exists i, holds (row_kept i) i s0.
Proof.
  rewrite analyze_start_run.
  destruct (Helpers.extract_domain url) as [d | e |]; try discriminate.
  destruct (fault_ahead (db w)); [discriminate|]. cbv zeta.
  destruct (fault_ahead (popped (db w))); [discriminate|].
  intros [= <-].
  destruct (existing_brand d (popped (db w))) as [r|] eqn:Hex.
  - pose proof (prepared_existing url d r) as Hb.
    exists (row_id r). split; cbn [fst snd].
    + rewrite (flush_persistent _ Hb). eexists. split; [reflexivity | exact Hb].
    + assert (Hrow : has_row (row_id r) (pending (popped (popped (db w))))).
      { unfold has_row. apply in_map. apply (existing_brand_in _ _ Hex). }
      unfold with_session. cbn [db].
      split; cbn [pending committed]; apply has_row_flushed; assumption.
  - exists (next_brand_id (pending (db w))). split; cbn [fst snd].
    + eexists. split; [reflexivity|]. split; reflexivity.
    + unfold with_session. cbn [db].
      split; cbn [pending committed]; unfold has_row, flushed; cbn;
        rewrite map_app; apply in_or_app; right; left; reflexivity.
Qed.

End RowKept.

(** ** The handler of [analyze_brand] *)

Section FailureHandler.
Import Models BrandAnalyzer Invariant Upsert.
Context {lib : Library} {order : SetOrder} {passes : Passes}
        {services : Collaborators}.

Lemma persistent_marked_failed (i : Z) (e : exn) (b : obj) :
  persistent i b -> persistent i (marked_failed e b).
Proof. intros Hb. exact Hb. Qed.



(** The handler with [brand] bound to a persistent instance: one commit,
    which either meets a fault and raises it, or records the failure. *)
Lemma analyze_failed_run (i : Z) (e : exn) (w : world) (b : obj) :
  persistent i b ->
  analyze_failed e (w, Some b) =
  match fault_ahead (db w) with
  | Some e' =>
      (Raise e', (with_session w (popped (db w)), Some (marked_failed e b)))
  | None =>
      (Ok [("error", PStr (str_exn e)); ("brand_id", PInt i)],
       (with_session w
          (Session (flushed (marked_failed e b) (popped (db w)))
                   (flushed (marked_failed e b) (popped (db w)))
                   (faults (popped (db w)))),
        Some (marked_failed e b)))
  end.
Proof.
  intros Hb. pose proof (persistent_marked_failed e Hb) as Hm.
  unfold analyze_failed. unfold bind at 1. unfold get_local at 1.
  cbn [fst snd].
  unfold set_brand, modify_brand, the_brand.
  unfold bind, get_local, ret, set_local. cbn [fst snd].
  unfold on_brand, the_brand, bind, get_local, ret, with_locals, set_local.
  cbn [fst snd]. fold (marked_failed e b). rewrite commit_run.
  destruct (fault_ahead (db w)); [reflexivity|].
  rewrite (flush_persistent _ Hm). cbn [fst snd].
  unfold id_val. destruct Hm as [-> _]. reflexivity.
Qed.

(** Without a bound [brand] the handler touches nothing. *)
Lemma analyze_failed_unbound (e : exn) (w : world) :
  analyze_failed e (w, None) = (Ok [("error", PStr (str_exn e))], (w, None)).
Proof. reflexivity. Qed.

Lemma analyze_brand_unfold (fuel : nat) (url : string) (flag : bool)
      (w : world) (s0 : State) :
  analyze_start url (w, None) = (Ok tt, s0) ->
  analyze_brand fuel url flag w =
  (let (r, s) :=
     match analyze_rest fuel url flag s0 with
     | (Raise e, s1) => analyze_failed e s1
     | r => r
     end in (r, fst s)).
Proof.
  intros Hstart. unfold analyze_brand, try_except, analyze_body.
  unfold bind at 1. rewrite Hstart.
  destruct (analyze_rest fuel url flag s0) as [[a | e |] s1]; reflexivity.
Qed.

End FailureHandler.

Section FailureContract.
Import Models BrandAnalyzer Invariant Upsert.


Context {lib : Library} {order : SetOrder} {passes : Passes}
        {services : Collaborators}.

(** The fault the handler meets at its commit is the outcome of the run. *)
Lemma handler_fault_propagates (fuel : nat) (url : string) (flag : bool)
      (w : world) (s0 s1 : State) (e e' : exn) :
  analyze_start url (w, None) = (Ok tt, s0) ->
  analyze_rest fuel url flag s0 = (Raise e, s1) ->
  fault_ahead (db (fst s1)) = Some e' ->
  fst (analyze_brand fuel url flag w) = Raise e'.
Proof.
  intros Hstart Hrest Hfault.
  destruct (start_establishes _ _ Hstart) as (i & Hs0).
  pose proof (@preserves_rest lib order passes services i (row_kept i)
                (stable_row_kept i) (stable_products_row_kept i)
                fuel url flag s0 Hs0) as Hs1.
  rewrite Hrest in Hs1. cbn [snd] in Hs1.
  destruct s1 as [w1 l1]. destruct Hs1 as [(b & Hl & Hb) _].
  cbn [fst snd] in *. subst l1.
  rewrite (@analyze_brand_unfold _ _ _ _ fuel url flag w s0 Hstart), Hrest.
  rewrite analyze_failed_run with (1 := Hb). rewrite Hfault. reflexivity.
Qed.


End FailureContract.

Section FailureScenario.
Import Models BrandAnalyzer Invariant Upsert.


End FailureScenario.

(** ** Runs on a session that meets no fault *)

Section QuietRuns.
Import Models BrandAnalyzer Invariant Upsert Reanalysis.

Variables (i : Z) (n : string -> nat -> http_outcome) (l : list event).

Ltac on_brand_step :=
  unfold on_brand, the_brand, bind, get_local, ret, with_locals, set_local;
  cbn [fst snd].

Ltac quiet_session :=
  unfold fault_ahead, with_session, popped, flushed;
  cbn [db faults committed pending net log tl fst snd].


Lemma on_brand_delete_quiet (b : obj) (c p : tables) :
  persistent i b ->
  on_brand Db.delete_products (World n l (Session c p []), Some b) =
  (Ok tt,
   (World n l (Session c (delete_products_of (id_val b)
                            (snd (flush_brand b p))) []),
    Some b)).
Proof.
  intros Hb. on_brand_step. rewrite delete_products_run. quiet_session.
  rewrite (flush_persistent _ Hb). reflexivity.
Qed.




End QuietRuns.

Section CompletedRun.
Import Models BrandAnalyzer Invariant Upsert Reanalysis.
Context {lib : Library} {order : SetOrder} {passes : Passes}
        {services : Collaborators}.






End CompletedRun.

(** ** The tables a completed run leaves *)

Section TablesAfter.
Import Models BrandAnalyzer Invariant Upsert Reanalysis.
















End TablesAfter.

(** ** The competitor part on a settled session *)

Section Competition.
Import Models BrandAnalyzer Invariant Upsert Reanalysis.
Context {lib : Library} {order : SetOrder} {passes : Passes}
        {services : Collaborators}.





End Competition.

(** ** Analysing a domain again *)

Section ReanalysisContract.
Import Models BrandAnalyzer Invariant Upsert Reanalysis.


Context {lib : Library} {order : SetOrder} {passes : Passes}
        {services : Collaborators}.



End ReanalysisContract.

Section ReanalysisScenario.
Import Models BrandAnalyzer Invariant Upsert Reanalysis.


End ReanalysisScenario.

(** * Further properties of the helpers *)

(** ** truncate_text: how long the result can be *)

Section TruncateBound.
Import Py Helpers.

Lemma length_append (a b : string) :
  String.length (a ++ b) = (String.length a + String.length b)%nat.
Proof. induction a as [|c a IH]; cbn; [reflexivity | rewrite IH; reflexivity]. Qed.

Lemma len_take_le (n : nat) (s : string) :
  (String.length (take n s) <= n)%nat.
Proof. rewrite take_length. lia. Qed.

Lemma truncate_text_prefix (s : string) (L : Z) :
  0 <= L -> L < len s ->
  exists n, Z.of_nat n <= L /\ truncate_text s L = take n s ++ "...".
Proof.
  intros HL Hlen. rewrite (truncate_text_long s HL Hlen). cbv zeta.
  destruct (rfind_take_space s (Z.to_nat L)) as [[Hr _] | (p & Hr & Hp)];
    rewrite Hr.
  - rewrite (above_four_fifths_neg HL).
    exists (Z.to_nat L). split; [lia | reflexivity].
  - destruct (above_four_fifths (Z.of_nat p) L).
    + exists p. destruct Hp as (Hlt & _). split; [lia|].
      unfold slice_to.
      replace (0 <=? Z.of_nat p) with true by (symmetry; apply Z.leb_le; lia).
      rewrite Nat2Z.id, take_take by lia. reflexivity.
    + exists (Z.to_nat L). split; [lia | reflexivity].
Qed.

Lemma truncate_text_len_le (s : string) (L : Z) :
  0 <= L -> len (truncate_text s L) <= L + 3.
Proof.
  intros HL. destruct (Z_lt_le_dec L (len s)) as [Hlen | Hlen].
  - destruct (truncate_text_prefix s HL Hlen) as (n & Hn & ->).
    unfold len. rewrite length_append.
    pose proof (len_take_le n s). cbn [String.length]. lia.
  - rewrite truncate_text_short by (right; exact Hlen). lia.
Qed.



End TruncateBound.

(** ** clean_text: the form of the result *)

Section CleanText.
Import Py Helpers Tidy.

Lemma collapse_from_spaced (s : string) :
  forall b,
    single_spaced (collapse_from b s ++ "x") = true /\
    (b = true -> starts_clean (collapse_from b s ++ "x") = true).
Proof.
  induction s as [|c s IH]; intros b.
  - split; reflexivity.
  - cbn [collapse_from]. destruct (is_space c) eqn:Hc.
    + destruct b.
      * apply IH.
      * destruct (IH true) as [Hs Hstart]. specialize (Hstart eq_refl).
        split; [|discriminate].
        cbn [append single_spaced].
        destruct (collapse_from true s) as [|d t]; cbn [append] in *;
          [reflexivity|].
        cbn [starts_clean] in Hstart. rewrite Hstart, Hs. reflexivity.
    + destruct (IH false) as [Hs _].
      split.
      * cbn [append single_spaced]. rewrite Hc, Hs. reflexivity.
      * intros _. cbn [append starts_clean]. rewrite Hc. reflexivity.
Qed.

Lemma lstrip_spaced (s : string) :
  single_spaced (s ++ "x") = true ->
  single_spaced (lstrip s ++ "x") = true /\ starts_clean (lstrip s) = true.
Proof.
  induction s as [|c s IH]; intros Hs; [split; reflexivity|].
  cbn [lstrip]. destruct (is_space c) eqn:Hc.
  - apply IH. cbn [append single_spaced] in Hs.
    apply andb_prop in Hs. apply Hs.
  - split; [exact Hs|]. cbn [starts_clean]. rewrite Hc. reflexivity.
Qed.

Lemma rstrip_head (c : ascii) (s : string) :
  is_space c = false -> exists r, rstrip (String c s) = String c r.
Proof.
  intros Hc. cbn [rstrip]. destruct (rstrip s); rewrite ?Hc; eexists; reflexivity.
Qed.

Lemma rstrip_spaced (s : string) :
  single_spaced (s ++ "x") = true ->
  single_spaced (rstrip s) = true /\
  (starts_clean s = true -> starts_clean (rstrip s) = true).
Proof.
  induction s as [|c s IH]; intros Hs; [split; reflexivity|].
  cbn [append single_spaced] in Hs. apply andb_prop in Hs.
  destruct Hs as [Hc Hs]. destruct (IH Hs) as [IHs _].
  cbn [rstrip]. destruct (rstrip s) as [|d r] eqn:Hr.
  - destruct (is_space c) eqn:Hsp; [split; reflexivity|].
    split; [cbn [single_spaced]; rewrite Hsp; reflexivity|].
    intros _. cbn [starts_clean]. rewrite Hsp. reflexivity.
  - split; [|intros Hstart; exact Hstart].
    cbn [single_spaced] in IHs |- *. rewrite IHs, andb_true_r.
    destruct (is_space c) eqn:Hsp; [|reflexivity]. cbn [negb orb] in Hc |- *.
    apply andb_prop in Hc. destruct Hc as [Hblank Hnext]. rewrite Hblank.
    destruct s as [|d0 t]; [discriminate Hr|].
    cbn [append] in Hnext. apply negb_true_iff in Hnext.
    destruct (@rstrip_head d0 t Hnext) as (r0 & Hr0). rewrite Hr0 in Hr.
    injection Hr as <- _. rewrite Hnext. reflexivity.
Qed.

(** X2.  Whatever the text, the result of [clean_text] holds no white
    space but single blanks between other characters: no tab or newline,
    no doubled blank, no blank at either end. *)
Theorem clean_text_tidy {lib : Library} (text : string) :
  tidy (clean_text text) = true.
Proof.
  unfold clean_text. destruct (negb (truthy text)); [reflexivity|].
  unfold strip, collapse_whitespace.
  destruct (collapse_from_spaced (html_unescape text) false) as [Hc _].
  destruct (lstrip_spaced _ Hc) as [Hl Hstart].
  destruct (rstrip_spaced _ Hl) as [Hr Hkeep].
  unfold tidy. rewrite Hr, (Hkeep Hstart). reflexivity.
Qed.

Lemma single_spaced_collapse (s : string) :
  single_spaced s = true -> collapse_from false s = s.
Proof.
  induction s as [|c s IH]; intros Hs; [reflexivity|].
  cbn [single_spaced] in Hs. apply andb_prop in Hs. destruct Hs as [Hc Hs].
  specialize (IH Hs). cbn [collapse_from].
  destruct (is_space c) eqn:Hsp; [|rewrite IH; reflexivity].
  cbn [negb orb] in Hc. apply andb_prop in Hc. destruct Hc as [Hblank Hnext].
  apply Ascii.eqb_eq in Hblank. subst c.
  destruct s as [|d t]; [discriminate Hnext|].
  apply negb_true_iff in Hnext.
  cbn [collapse_from] in IH |- *. rewrite Hnext in IH |- *.
  rewrite IH. reflexivity.
Qed.

Lemma starts_clean_lstrip (s : string) :
  starts_clean s = true -> lstrip s = s.
Proof.
  destruct s as [|c s]; [reflexivity|]. cbn [starts_clean lstrip].
  intros Hc. apply negb_true_iff in Hc. rewrite Hc. reflexivity.
Qed.

Lemma single_spaced_rstrip (s : string) :
  single_spaced s = true -> rstrip s = s.
Proof.
  induction s as [|c s IH]; intros Hs; [reflexivity|].
  cbn [single_spaced] in Hs. apply andb_prop in Hs. destruct Hs as [Hc Hs].
  cbn [rstrip]. rewrite (IH Hs). destruct s as [|d t]; [|reflexivity].
  rewrite andb_false_r, orb_false_r in Hc. apply negb_true_iff in Hc.
  rewrite Hc. reflexivity.
Qed.

(** X3.  [clean_text] is idempotent on a result that holds no ampersand:
    cleaning it again changes nothing.  (With an ampersand left, the
    second pass decodes character references once more.) *)
Theorem clean_text_idempotent {lib : Library} (text : string) :
  has_char "&" (clean_text text) = false ->
  clean_text (clean_text text) = clean_text text.
Proof.
  intros Hamp. pose proof (clean_text_tidy text) as Ht.
  unfold tidy in Ht. apply andb_prop in Ht. destruct Ht as [Hstart Hs].
  set (t := clean_text text) in *.
  unfold clean_text at 1. destruct (negb (truthy t)) eqn:Hempty.
  - destruct t; [reflexivity | discriminate Hempty].
  - unfold html_unescape. rewrite Hamp.
    unfold strip, collapse_whitespace.
    rewrite (single_spaced_collapse _ Hs), (starts_clean_lstrip _ Hstart).
    apply single_spaced_rstrip. exact Hs.
Qed.

Lemma clean_text_idempotent_witness :
  has_char "&" (clean_text (lib := Shop.plain_library) "  Warm   socks ")
  = false /\
  clean_text (lib := Shop.plain_library)
    (clean_text (lib := Shop.plain_library) "  Warm   socks ")
  = "Warm socks".
Proof.
  split; [reflexivity|].
  rewrite (@clean_text_idempotent Shop.plain_library "  Warm   socks "
             eq_refl).
  reflexivity.
Defined.

End CleanText.

(** ** normalize_url: trailing slashes *)

Section NormalizeUrl.
Import Py Helpers Tidy.

Lemma rstrip_char_slashes (s : string) :
  exists k, s = rstrip_char "/" s ++ slashes k.
Proof.
  induction s as [|c s (k & IH)]; [exists 0%nat; reflexivity|].
  cbn [rstrip_char]. destruct (rstrip_char "/" s) as [|d r] eqn:Hr.
  - cbn [append] in IH. destruct (Ascii.eqb c "/") eqn:Hc.
    + apply Ascii.eqb_eq in Hc. subst c. exists (S k). rewrite IH at 1.
      reflexivity.
    + exists k. rewrite IH at 1. reflexivity.
  - exists k. cbn [append]. rewrite IH at 1. reflexivity.
Qed.

Lemma rstrip_char_no_slash (s r : string) :
  rstrip_char "/" s <> r ++ "/".
Proof.
  revert r. induction s as [|c s IH]; intros r Heq.
  - destruct r; discriminate Heq.
  - cbn [rstrip_char] in Heq. destruct (rstrip_char "/" s) as [|d t] eqn:Hr.
    + destruct (Ascii.eqb c "/") eqn:Hc.
      * destruct r; discriminate Heq.
      * destruct r as [|e r]; cbn [append] in Heq.
        -- injection Heq as ->. discriminate Hc.
        -- injection Heq as _ Heq. destruct r; discriminate Heq.
    + destruct r as [|e r]; cbn [append] in Heq; [discriminate Heq|].
      injection Heq as _ Heq. apply (IH r). exact Heq.
Qed.

(** X4.  The result of [normalize_url] never ends with a slash, and it
    is the resolved URL ([url] itself when it is absolute or when there
    is no base, [url] joined onto the base otherwise) less the slashes at
    its end: nothing else is changed. *)
Theorem normalize_url_strips_slashes {lib : Library} (url base_url : string) :
  (forall r, normalize_url url base_url <> r ++ "/") /\
  exists k, resolved url base_url = normalize_url url base_url ++ slashes k.
Proof.
  unfold normalize_url, resolved. split.
  - intros r. apply rstrip_char_no_slash.
  - apply rstrip_char_slashes.
Qed.

End NormalizeUrl.

(** ** extract_domain and validate_url_format *)

Section Domains.
Import Py Helpers Validation.





Lemma lower_nonempty (s : string) : truthy s = true -> truthy (lower s) = true.
Proof. destruct s; [discriminate | reflexivity]. Qed.

(** X6.  A URL that [validate_url_format] accepts has a domain:
    [extract_domain] returns for it, and what it returns is not empty.
    A URL on which [urlparse] raises is rejected, not passed on. *)
Theorem validate_url_format_has_domain (url : string) :
  validate_url_format url = true ->
  exists domain,
    extract_domain url = Ok domain /\ truthy domain = true.
Proof.
  unfold validate_url_format, extract_domain.
  destruct (urlsplit url) as [r | e |]; try discriminate.
  intros Hv. apply andb_prop in Hv. destruct Hv as [_ Hn].
  exists (lower (netloc r)). split; [reflexivity|].
  apply lower_nonempty. exact Hn.
Qed.

Lemma validate_url_format_has_domain_witness :
  validate_url_format "https://Shop.Example/cart" = true /\
  (exists domain,
     extract_domain "https://Shop.Example/cart" = Ok domain /\
     truthy domain = true) /\
  validate_url_format "shop.example" = false /\
  validate_url_format "https://[" = false.
Proof.
  split; [reflexivity|].
  split; [apply validate_url_format_has_domain; reflexivity|].
  split; reflexivity.
Defined.

End Domains.

Section HostOfUrl.
Import Py Helpers.





End HostOfUrl.

(** ** extract_email_addresses: what is returned *)

Section ExtractedAddresses.
Import Py Helpers EmailPattern.
Context {order : SetOrder}.

Lemma drop_drop (j k : nat) (s : string) :
  drop j (drop k s) = drop (j + k) s.
Proof.
  revert s. induction k as [|k IH]; intros s.
  - rewrite Nat.add_0_r. destruct s; reflexivity.
  - destruct s as [|c s].
    + destruct j; reflexivity.
    + rewrite Nat.add_succ_r. cbn [drop]. apply IH.
Qed.

Lemma scan_in (fuel : nat) :
  forall before s a,
    In a (scan fuel before s) ->
    exists j b k, match_here b (drop j s) = Some k /\ a = take k (drop j s).
Proof.
  induction fuel as [|fuel IH]; intros before s a Hin; [destruct Hin|].
  destruct s as [|c s]; [destruct Hin|].
  cbn [scan] in Hin.
  destruct (match_here before (String c s)) as [[|n]|] eqn:Hm.
  - destruct (IH _ _ _ Hin) as (j & b & k & Hk & Ha).
    exists (S j), b, k. split; assumption.
  - destruct Hin as [<- | Hin].
    + exists 0%nat, before, (S n). split; [exact Hm | reflexivity].
    + destruct (IH _ _ _ Hin) as (j & b & k & Hk & Ha).
      rewrite drop_drop in Hk, Ha.
      exists (j + S n)%nat, b, k. split; assumption.
  - destruct (IH _ _ _ Hin) as (j & b & k & Hk & Ha).
    exists (S j), b, k. split; assumption.
Qed.

Lemma match_here_at (b : option ascii) (s : string) (k : nat) :
  match_here b s = Some k ->
  exists l, (l < k)%nat /\ char_at s l = Some "@"%char.
Proof.
  unfold match_here. destruct (_ && _); [|discriminate].
  set (l := run is_local_char s).
  destruct (char_at s l) as [a|] eqn:Hat; [|discriminate].
  destruct (Ascii.eqb_spec a "@") as [-> | Hne].
  - destruct (match_domain _) as [m|]; [|discriminate].
    intros [= <-]. exists l. split; [lia | exact Hat].
  - destruct a as [[] [] [] [] [] [] [] []]; try discriminate.
    destruct Hne. reflexivity.
Qed.

Lemma char_at_has_char (s : string) :
  forall l c, char_at s l = Some c -> has_char c s = true.
Proof.
  induction s as [|a s IH]; intros l c Hc; [discriminate|].
  cbn [has_char]. destruct l as [|l]; cbn [char_at] in Hc.
  - injection Hc as ->. rewrite Ascii.eqb_refl. reflexivity.
  - rewrite (IH _ _ Hc). apply orb_true_r.
Qed.

Lemma prefix_take (k : nat) (s : string) : String.prefix (take k s) s = true.
Proof.
  revert s. induction k as [|k IH]; intros s.
  - destruct s; reflexivity.
  - destruct s as [|c s]; [reflexivity|]. cbn [take String.prefix].
    destruct (ascii_dec c c) as [_ | Hne]; [apply IH | destruct Hne; reflexivity].
Qed.

Lemma contains_prefix (needle s : string) :
  String.prefix needle s = true -> contains needle s = true.
Proof. intros Hp. destruct s; cbn [contains]; rewrite Hp; reflexivity. Qed.

Lemma contains_drop (needle : string) (j : nat) :
  forall s, contains needle (drop j s) = true -> contains needle s = true.
Proof.
  induction j as [|j IH]; intros s Hc.
  - destruct s; exact Hc.
  - destruct s as [|c s]; [exact Hc|]. cbn [drop] in Hc.
    cbn [contains]. rewrite (IH _ Hc). apply orb_true_r.
Qed.

(** X8.  [extract_email_addresses] returns every distinct match of the
    pattern in the text exactly once; each address it returns holds an
    [@] and occurs in the text as it stands. *)
Theorem extract_email_addresses_sound (text : string) :
  NoDup (extract_email_addresses text) /\
  (forall a, In a (extract_email_addresses text) <-> In a (findall text)) /\
  (forall a, In a (extract_email_addresses text) ->
     has_char "@" a = true /\ contains a text = true).
Proof.
  rewrite extract_email_addresses_order.
  split; [|split].
  - apply (Permutation_NoDup (Permutation_sym (set_to_list_distinct _))).
    apply NoDup_nodup.
  - intros a. apply set_to_list_in.
  - intros a Hin. apply (proj1 (set_to_list_in _ _)) in Hin.
    unfold findall in Hin.
    destruct (scan_in _ _ _ _ Hin) as (j & b & k & Hk & ->).
    destruct (match_here_at _ _ Hk) as (l & Hl & Hat).
    split.
    + apply (char_at_has_char _ l). rewrite char_at_take.
      replace (l <? k)%nat with true by (symmetry; apply Nat.ltb_lt; exact Hl).
      exact Hat.
    + apply (contains_drop _ j). apply contains_prefix, prefix_take.
Qed.

End ExtractedAddresses.

(** * Further properties of the scraper *)

(** ** _fetch_page: what comes back *)

Section FetchOutcome.
Import Fetch.


(** X10.  Every request of a fetch goes to the URL that was asked for and
    carries the same timeout: the one given, or the default of 30 seconds
    when none is given and also when 0 is given. *)
Theorem fetch_page_timeout (url : string) (timeout : option Z) (w : world) :
  Forall (fun ev => match ev with
                    | Request u t => u = url /\ t = timeout_or_default timeout
                    | Sleep _ => True
                    end)
         (added w (snd (_fetch_page url timeout w))) /\
  timeout_or_default None = Config.REQUEST_TIMEOUT /\
  timeout_or_default (Some 0) = Config.REQUEST_TIMEOUT /\
  (forall t, t <> 0 -> timeout_or_default (Some t) = t).
Proof.
  split.
  - rewrite fetch_page_run. cbv zeta.
    destruct (verdict_of url (attempt_outcome w url 0)) as [b0|e0|e0];
      [ | destruct (verdict_of url (attempt_outcome w url 1)) as [b1|e1|e1];
          [ | destruct (verdict_of url (attempt_outcome w url 2))
                as [b2|e2|e2] | ] | ];
      cbn [snd]; rewrite added_logged;
      repeat constructor.
  - split; [reflexivity|]. split; [reflexivity|].
    intros t Ht. unfold timeout_or_default.
    destruct (Z.eqb_spec t 0) as [-> | _]; [destruct Ht|]; reflexivity.
Qed.

End FetchOutcome.

(** ** _get_product_catalog: a page that cannot be had *)

Section CatalogCutShort.
Import Fetch Catalog Pagination CatalogEnd.
Context {lib : Library}.

Lemma fails_always_logged (w : world) (url : string) (evs : list event) :
  fails_always w url -> fails_always (logged w evs) url.
Proof. intros Hf n. apply Hf. Qed.

(** A fetch of a URL that always fails raises [NetworkError]. *)
Lemma fetch_page_fails_always (w : world) (url : string) :
  fails_always w url ->
  exists e w', _fetch_page url None w = (Raise (network_error url e), w').
Proof.
  intros Hf. rewrite fetch_page_run. cbv zeta.
  destruct (@attempt_fails_failed w url 0 (Hf _)) as (e0 & ->).
  destruct (@attempt_fails_failed w url 1 (Hf _)) as (e1 & ->).
  destruct (@attempt_fails_failed w url 2 (Hf _)) as (e2 & ->).
  eexists. eexists. reflexivity.
Qed.

Lemma page_round_unreachable (site : string) (w : world) (p : nat)
      (acc : list pyval) :
  fails_always w (page_url site p) ->
  exists e w',
    page_round site (urljoin site "/products.json")
               (w, Locals (Z.of_nat p) acc) =
    (Raise e, (w', Locals (Z.of_nat p) acc)).
Proof.
  intros Hf. destruct (fetch_page_fails_always Hf) as (e & w' & Hfetch).
  exists (network_error (page_url site p) e), w'.
  unfold page_round. unfold bind at 1. unfold get_local at 1.
  cbn [snd page]. rewrite paginated_url_page_url.
  unfold bind at 1. unfold with_locals at 1. cbn [fst snd].
  rewrite Hfetch. reflexivity.
Qed.

Lemma page_round_not_json (site : string) (w : world) (p : nat)
      (r : response) (acc : list pyval) :
  serves w (page_url site p) r -> not_json r ->
  page_round site (urljoin site "/products.json")
             (w, Locals (Z.of_nat p) acc) =
  (Ok Break,
   (logged w [Request (page_url site p) Config.REQUEST_TIMEOUT],
    Locals (Z.of_nat p) acc)).
Proof.
  intros Hs (Ha & Hjson).
  unfold page_round. unfold bind at 1. unfold get_local at 1.
  cbn [snd page]. rewrite paginated_url_page_url.
  unfold bind at 1. unfold with_locals at 1. cbn [fst snd].
  rewrite (fetch_page_served Hs Ha).
  unfold try_except. unfold bind at 1. unfold lift at 1.
  unfold json_loads. rewrite Hjson. reflexivity.
Qed.

(** The loop over the pages of products, up to the round after them. *)
Lemma pagination_prefix (site : string)
      (pages : list (response * list pyval)) :
  forall (i0 : nat) (acc : list pyval) (w : world) (fuel : nat),
    (forall i r records,
        nth_error pages i = Some (r, records) ->
        serves w (page_url site (S (i0 + i))) r /\
        product_page site r records) ->
    while_true (List.length pages + fuel)
               (page_round site (urljoin site "/products.json"))
               (w, Locals (Z.of_nat (S i0)) acc) =
    while_true fuel (page_round site (urljoin site "/products.json"))
               (logged w (pages_events site i0 (List.length pages)),
                Locals (Z.of_nat (S (i0 + List.length pages)))
                       (acc ++ concat (map snd pages))).
Proof.
  induction pages as [|[r records] pages IH]; intros i0 acc w fuel Hpages;
    cbn [List.length].
  - unfold pages_events. cbn [seq flat_map map concat Nat.add].
    rewrite logged_nil, Nat.add_0_r, app_nil_r. reflexivity.
  - cbn [Nat.add while_true]. unfold bind at 1.
    destruct (Hpages 0%nat r records eq_refl) as [Hs Hp].
    rewrite Nat.add_0_r in Hs.
    rewrite (@page_round_products lib site w (S i0) r records acc Hs Hp).
    rewrite (IH (S i0)).
    + rewrite logged_logged.
      replace (S i0 + List.length pages)%nat
        with (i0 + S (List.length pages))%nat by lia.
      cbn [map concat snd]. rewrite <- app_assoc. reflexivity.
    + intros i r' records' Hi.
      destruct (Hpages (S i) r' records' Hi) as [Hs' Hp'].
      replace (S i0 + i)%nat with (i0 + S i)%nat by lia.
      split; [apply serves_logged; exact Hs' | exact Hp'].
Qed.

(** X11.  A failure after some pages does not lose them: when page
    [N + 1] cannot be fetched (every attempt fails) or does not hold
    JSON, the catalog is the records of the [N] pages before it, and no
    exception leaves [_get_product_catalog]. *)
Theorem catalog_keeps_fetched_pages (site : string) (w : world)
        (pages : list (response * list pyval)) (fuel : nat) :
  cut_short w site pages ->
  (List.length pages < fuel)%nat ->
  fst (_get_product_catalog fuel site w) = Ok (concat (map snd pages)).
Proof.
  intros (Hpages & Hend) Hfuel.
  destruct fuel as [|fuel]; [lia|].
  replace (S fuel) with (List.length pages + S (fuel - List.length pages))%nat
    by lia.
  unfold _get_product_catalog, try_except. unfold bind at 1.
  change 1 with (Z.of_nat 1).
  rewrite (@pagination_prefix site pages 0%nat [] w _ Hpages).
  cbn [while_true app Nat.add]. unfold bind at 1.
  destruct Hend as [Hf | (r & Hs & Hr)].
  - destruct (@page_round_unreachable site
                (logged w (pages_events site 0 (List.length pages)))
                (S (List.length pages)) (concat (map snd pages))
                (fails_always_logged _ Hf)) as (e & w' & ->).
    reflexivity.
  - rewrite (@page_round_not_json site _ (S (List.length pages)) r _
               (serves_logged _ Hs) Hr).
    reflexivity.
Qed.

End CatalogCutShort.

Section CatalogCutShortScenario.
Import Fetch Catalog Pagination CatalogEnd.

Lemma catalog_keeps_fetched_pages_witness :
  fst (_get_product_catalog (lib := Shop.plain_library) 5 Shop.site
         flaky_world) = Ok [Shop.socks_record].
Proof.
  apply (@catalog_keeps_fetched_pages Shop.plain_library Shop.site
           flaky_world [(Shop.page_one, [Shop.socks_record])] 5%nat);
    [|cbn; lia].
  split.
  - intros [|[|i]] r records Hi; try discriminate Hi.
    injection Hi as <- <-. split; [intros n; reflexivity|].
    split; [left; cbn; lia|].
    eexists. eexists. split; [reflexivity|]. split; [reflexivity|].
    split; [discriminate | reflexivity].
  - left. intros n. vm_compute. discriminate.
Defined.

End CatalogCutShortScenario.

(** ** From the scraped record to the stored row *)

Section RecordToRow.
Import Catalog Models BrandAnalyzer Stored.
Context {lib : Library}.

Lemma image_urls_of_objects (imgs : list pyval) :
  Forall is_object imgs ->
  map_result (fun img => Catalog.get img "src" PNone) imgs
  = Ok (map src_of imgs).
Proof.
  induction 1 as [|img imgs (a & ->) _ IH]; [reflexivity|].
  cbn [map_result map]. unfold and_then. cbn [Catalog.get src_of].
  rewrite IH. reflexivity.
Qed.

Lemma product_record_images (site : string) (d : Val.dict) (record : pyval) :
  product_record site (PDict d) = Ok record ->
  exists r,
    record = PDict r /\
    Val.get_default r "images" (PList [])
    = Val.get_default d "images" (PList []) /\
    Val.get r "shopify_id" = Val.get d "id" /\
    Val.get r "title" = Val.get d "title" /\
    Val.get r "handle" = Val.get d "handle".
Proof.
  unfold product_record, and_then.
  destruct (Helpers.clean_text_val _) as [description | e |]; try discriminate.
  cbv zeta.
  match goal with |- context [Val.truthy ?v] =>
    change v with (Val.get_default d "variants" (PList [])) end.
  destruct (Val.truthy (Val.get_default d "variants" (PList []))).
  - destruct (first _) as [variant | e |]; try discriminate.
    destruct (get variant "price" PNone) as [price | e |]; try discriminate.
    destruct (get variant "compare_at_price" PNone) as [cap | e |];
      try discriminate.
    match goal with |- context [Val.truthy ?v] =>
      change v with (Val.get_default d "images" (PList [])) end.
    destruct (Val.truthy (Val.get_default d "images" (PList []))).
    + destruct (first _) as [image | e |]; try discriminate.
      destruct (get image "src" PNone) as [src | e |]; try discriminate.
      intros [= <-]. eexists. split; [reflexivity|]. repeat split.
    + intros [= <-]. eexists. split; [reflexivity|]. repeat split.
  - match goal with |- context [Val.truthy ?v] =>
      change v with (Val.get_default d "images" (PList [])) end.
    destruct (Val.truthy (Val.get_default d "images" (PList []))).
    + destruct (first _) as [image | e |]; try discriminate.
      destruct (get image "src" PNone) as [src | e |]; try discriminate.
      intros [= <-]. eexists. split; [reflexivity|]. repeat split.
    + intros [= <-]. eexists. split; [reflexivity|]. repeat split.
Qed.

(** X12.  A record that [_get_product_catalog] builds from a product
    whose [images] are objects is accepted by [_save_products]: the row
    prepared for it carries the key of the brand, the product's id as
    [shopify_id], its title and handle, and the [src] of each image, in
    order, as [image_urls]. *)
Theorem scraped_record_is_storable (site : string) (d : Val.dict)
        (record : pyval) (imgs : list pyval) (brand : obj) :
  product_record site (PDict d) = Ok record ->
  Val.get_default d "images" (PList []) = PList imgs ->
  Forall is_object imgs ->
  exists attrs,
    product_attrs brand record = Ok attrs /\
    Val.get attrs "brand_id" = id_val brand /\
    Val.get attrs "shopify_id" = Val.get d "id" /\
    Val.get attrs "title" = Val.get d "title" /\
    Val.get attrs "handle" = Val.get d "handle" /\
    Val.get attrs "image_urls" = PList (map src_of imgs).
Proof.
  intros Hrecord Himgs Hobjects.
  destruct (product_record_images _ _ Hrecord)
    as (r & -> & Hr & Hid & Htitle & Hhandle).
  unfold product_attrs, and_then. rewrite Hr, Himgs. cbn [iterate].
  rewrite (image_urls_of_objects Hobjects).
  eexists. split; [reflexivity|].
  cbn [Val.get Val.lookup String.eqb Ascii.eqb Bool.eqb].
  repeat split; assumption.
Qed.

End RecordToRow.

Section RecordToRowScenario.
Import Catalog Models BrandAnalyzer Stored.

Lemma scraped_record_is_storable_witness :
  exists attrs,
    product_attrs Batch.acme_brand Shop.socks_record = Ok attrs /\
    Val.get attrs "brand_id" = PInt 1 /\
    Val.get attrs "image_urls" = PList [PStr "https://cdn.example/socks.png"].
Proof.
  destruct (@scraped_record_is_storable Shop.plain_library Shop.site
              [("id", PInt 1); ("title", PStr "Socks");
               ("handle", PStr "socks"); ("body_html", PStr "Warm  socks");
               ("tags", PStr "wool,winter");
               ("variants", PList [PDict [("price", PStr "9.99")]]);
               ("images",
                PList [PDict [("src", PStr "https://cdn.example/socks.png")]])]
              Shop.socks_record
              [PDict [("src", PStr "https://cdn.example/socks.png")]]
              Batch.acme_brand eq_refl eq_refl)
    as (attrs & Hattrs & Hbrand & _ & _ & _ & Hurls).
  - constructor; [eexists; reflexivity | constructor].
  - exists attrs. repeat split; assumption.
Defined.

End RecordToRowScenario.

(** ** _extract_policies: always six entries *)

Section PoliciesTotal.
Import Py Fetch Site Stored.
Context {lib : Library}.

Lemma fetch_page_terminates (url : string) (timeout : option Z) (w : world) :
  fst (_fetch_page url timeout w) <> OutOfFuel.
Proof.
  rewrite fetch_page_run. cbv zeta.
  destruct (verdict_of url (attempt_outcome w url 0));
    [ | destruct (verdict_of url (attempt_outcome w url 1));
        [ | destruct (verdict_of url (attempt_outcome w url 2)) | ] | ];
    discriminate.
Qed.

Lemma fetch_policy_text_returns (policy_url : string) (w : world) :
  exists t w',
    fetch_policy_text policy_url w = (Ok t, w') /\ len t <= 2003.
Proof.
  unfold fetch_policy_text, try_except. unfold bind at 1.
  pose proof (fetch_page_terminates policy_url None w) as Hterm.
  destruct (_fetch_page policy_url None w) as [[[t|] | e |] w1].
  - unfold bind at 1. unfold lift at 1. cbn [BeautifulSoup].
    eexists. eexists. split; [reflexivity|].
    apply (truncate_text_len_le _ (L := 2000)). lia.
  - eexists. eexists. split; [reflexivity|]. cbn. lia.
  - eexists. eexists. split; [reflexivity|]. cbn. lia.
  - destruct Hterm. reflexivity.
Qed.

Lemma find_policy_returns (soup : node) (website_url : string)
      (keywords : list string) (w : world) :
  exists u t w',
    find_policy soup website_url keywords w = (Ok (u, t), w') /\
    policy_entry u t.
Proof.
  unfold find_policy. unfold bind.
  match goal with |- context [for_each keywords ?body w] =>
    assert (Hloop : exists r w',
              for_each keywords body w = (Ok r, w') /\
              match r with
              | Some (u, t) => policy_entry u t
              | None => True
              end)
  end.
  { revert w. induction keywords as [|keyword keywords IH]; intros w.
    - exists None, w. split; [reflexivity | exact I].
    - cbn [for_each]. unfold bind at 1.
      destruct (Soup.find _ soup) as [link|].
      + cbv zeta.
        match goal with |- context [fetch_policy_text ?u w] =>
          destruct (fetch_policy_text_returns u w) as (t & w' & -> & Ht)
        end.
        eexists. eexists. split; [reflexivity|].
        split; [right; eexists; reflexivity | exact Ht].
      + apply IH. }
  destruct Hloop as (r & w' & -> & Hr).
  destruct r as [[u t]|].
  - exists u, t, w'. split; [reflexivity | exact Hr].
  - exists PNone, EmptyString, w'. split; [reflexivity|].
    split; [left; reflexivity | cbn; lia].
Qed.

Lemma extract_policies_returns (soup : node) (website_url : string)
        (w : world) :
  exists u1 t1 u2 t2 u3 t3 w',
    _extract_policies soup website_url w =
    (Ok [("privacy_policy_url", u1); ("privacy_policy_text", PStr t1);
         ("return_policy_url", u2); ("return_policy_text", PStr t2);
         ("refund_policy_url", u3); ("refund_policy_text", PStr t3)], w') /\
    policy_entry u1 t1 /\ policy_entry u2 t2 /\ policy_entry u3 t3.
Proof.
  unfold _extract_policies, policies. cbn [policies_loop].
  unfold bind at 1.
  destruct (find_policy_returns soup website_url ["privacy"; "privacy-policy"] w)
    as (u1 & t1 & w1 & -> & H1).
  unfold bind at 1.
  destruct (find_policy_returns soup website_url
              ["return"; "returns"; "return-policy"] w1)
    as (u2 & t2 & w2 & -> & H2).
  unfold bind at 1.
  destruct (find_policy_returns soup website_url
              ["refund"; "refunds"; "refund-policy"] w2)
    as (u3 & t3 & w3 & -> & H3).
  exists u1, t1, u2, t2, u3, t3, w3.
  split; [reflexivity|]. split; [exact H1|]. split; [exact H2 | exact H3].
Qed.


End PoliciesTotal.

Section ScrapeShape.
Import Py Fetch Site Stored.
Context {lib : Library} {order : SetOrder} {passes : Passes}.

Lemma scrape_pipeline_shape (fuel : nat) (url d : string) (w : world) :
  match fst (scrape_pipeline fuel url d w) with
  | Ok r =>
      Val.get r "website_url" = PStr url /\
      Val.get r "domain" = PStr d /\
      Val.get r "scraping_status" = PStr "completed" /\
      Val.get r "scraping_errors" = PNone /\
      exists b, Val.get r "is_shopify_store" = PBool b /\
                Val.mem "product_catalog" r = b
  | _ => True
  end.
Proof.
  unfold scrape_pipeline. unfold bind at 1.
  destruct (_fetch_page url None w) as [[html_content | e |] w1];
    cbn [fst]; try exact I.
  cbv zeta. unfold bind at 1. unfold lift at 1.
  destruct (BeautifulSoup html_content) as [soup | e |]; cbn [fst];
    try exact I.
  unfold bind at 1. unfold lift at 1.
  destruct (Extract._extract_basic_info soup url) as [basic | e |] eqn:Hbasic;
    cbn [fst]; try exact I.
  unfold bind at 1. unfold lift at 1.
  destruct (extract_important_links _ url) as [links | e |]; cbn [fst];
    try exact I.
  unfold bind at 1.
  destruct (extract_policies_returns soup url w1)
    as (u1 & t1 & u2 & t2 & u3 & t3 & w2 & -> & _).
  unfold bind at 1. unfold lift at 1.
  destruct (_extract_faqs soup url) as [faqs | e |]; cbn [fst]; try exact I.
  unfold bind at 1. unfold lift at 1.
  destruct (_extract_hero_products soup url) as [hero | e |]; cbn [fst];
    try exact I.
  unfold Extract._extract_basic_info, and_then in Hbasic.
  destruct (Extract.extract_name soup url) as [name | e |];
    try discriminate Hbasic.
  injection Hbasic as <-.
  unfold Extract._extract_contact_info.
  set (shopify := match html_content with
                  | Some t => Helpers.is_shopify_store (raw t) url
                  | None => false
                  end).
  destruct (Extract.choose_email _) as [email|];
    destruct (extract_phone_numbers _) as [|phone phones];
    destruct shopify;
    try (unfold bind at 1; unfold try_except;
         destruct (Catalog._get_product_catalog fuel url w2)
           as [[catalog | e |] w3]);
    cbn [fst ret any_exception]; try exact I;
    (split; [reflexivity|]); (split; [reflexivity|]);
    (split; [reflexivity|]); (split; [reflexivity|]);
    eexists; split; reflexivity.
Qed.

(** X14.  For an input whose qualified form [urlparse] accepts,
    [scrape_store] never raises.  What it returns carries the qualified
    URL and its domain; it is either the record of a failure, or a
    completed record without errors, in which [product_catalog] is
    present exactly when the store was recognised as a Shopify store. *)
Theorem scrape_store_shape (fuel : nat) (url d : string) (w : world) :
  Helpers.extract_domain (qualified url) = Ok d ->
  match fst (scrape_store fuel url w) with
  | Ok r =>
      Val.get r "website_url" = PStr (qualified url) /\
      Val.get r "domain" = PStr d /\
      ((exists e, r = failed_result (qualified url) d e) \/
       (Val.get r "scraping_status" = PStr "completed" /\
        Val.get r "scraping_errors" = PNone /\
        exists b, Val.get r "is_shopify_store" = PBool b /\
                  Val.mem "product_catalog" r = b))
  | Raise _ => False
  | OutOfFuel => True
  end.
Proof.
  intros Hd. rewrite scrape_store_run, Hd.
  pose proof (scrape_pipeline_shape fuel (qualified url) d w) as Hshape.
  destruct (scrape_pipeline fuel (qualified url) d w) as [[r | e |] w'];
    cbn [fst] in *.
  - destruct Hshape as (Hurl & Hdom & Hrest).
    split; [exact Hurl|]. split; [exact Hdom|]. right. exact Hrest.
  - split; [reflexivity|]. split; [reflexivity|]. left. exists e. reflexivity.
  - exact I.
Qed.

End ScrapeShape.

Section ScrapeShapeScenario.
Import Site.

Lemma scrape_store_shape_witness :
  match fst (scrape_store (lib := Shop.plain_library)
               (order := Homepage.last_first)
               (passes := Homepage.quiet_passes)
               5 "Shop.Example" Upsert.outage_world) with
  | Ok r =>
      Val.get r "website_url" = PStr "https://Shop.Example" /\
      Val.get r "domain" = PStr "shop.example"
  | _ => False
  end.
Proof.
  pose proof (@scrape_store_shape Shop.plain_library Homepage.last_first
                Homepage.quiet_passes 5%nat "Shop.Example" "shop.example"
                Upsert.outage_world eq_refl) as H.
  set (run := fst (scrape_store 5 "Shop.Example" Upsert.outage_world)) in *.
  assert (Hrun : exists r, run = Ok r) by (vm_compute; eexists; reflexivity).
  destruct Hrun as (r & Hrun). rewrite Hrun in *.
  destruct H as (Hurl & Hdom & _). split; assumption.
Defined.

End ScrapeShapeScenario.

(** ** scrape_store: a homepage that cannot be fetched *)

Section ScrapeUnreachable.
Import Py Fetch Site CatalogEnd.
Context {lib : Library} {order : SetOrder} {passes : Passes}.



End ScrapeUnreachable.

Section ScrapeUnreachableScenario.
Import Py Fetch Site CatalogEnd.


End ScrapeUnreachableScenario.

(** * Further properties of the competitor analysis *)

(** ** _analyze_competitor_strengths *)

Section StrengthsAnalysis.
Import Strengths.

Lemma in_mark_fst (x : string) (high low : bool) (s w : string) (m : marks) :
  In x (fst (mark high s low w m)) <->
  In x (fst m) \/ (high = true /\ s = x).
Proof.
  unfold mark. destruct high; [|destruct low]; cbn [fst snd].
  - rewrite in_app_iff. cbn [In]. intuition.
  - intuition discriminate.
  - intuition discriminate.
Qed.

Lemma in_mark_snd (x : string) (high low : bool) (s w : string) (m : marks) :
  In x (snd (mark high s low w m)) <->
  In x (snd m) \/ (high = false /\ low = true /\ w = x).
Proof.
  unfold mark. destruct high; [|destruct low]; cbn [fst snd].
  - intuition discriminate.
  - rewrite in_app_iff. cbn [In]. intuition.
  - intuition discriminate.
Qed.

(** X16.  Whatever the scraped record holds, [_analyze_competitor_strengths]
    either raises [TypeError] (a collection that has no length, such as
    [None]) or returns exactly four lists: [strengths] and [weaknesses]
    drawn from the five and four fixed labels, and [opportunities] and
    [threats], which are always empty. *)
Theorem strengths_analysis_shape (competitor_data : Val.dict) :
  match _analyze_competitor_strengths competitor_data with
  | Ok r =>
      exists s w,
        r = PDict [("strengths", PList (map PStr s));
                   ("weaknesses", PList (map PStr w));
                   ("opportunities", PList []);
                   ("threats", PList [])] /\
        incl s strength_labels /\ incl w weakness_labels
  | Raise e => exn_kind e = TypeError
  | OutOfFuel => False
  end.
Proof.
  unfold _analyze_competitor_strengths, and_then, length_of.
  destruct (Val.len (Val.get_default competitor_data "product_catalog" _))
    as [nc|]; [|reflexivity].
  destruct (Val.len (Val.get_default competitor_data "social_handles" _))
    as [ns|]; [|reflexivity].
  destruct (Val.len (Val.get_default competitor_data "hero_products" _))
    as [nh|]; [|reflexivity].
  destruct (Val.len (Val.get_default competitor_data "faqs" _))
    as [nf|]; [|reflexivity].
  cbv zeta. eexists. eexists. split; [reflexivity|]. split.
  - intros x Hx. rewrite in_mark_fst, in_mark_fst in Hx.
    destruct (3 <=? nh); cbn [fst snd] in Hx;
      rewrite ?in_app_iff, in_mark_fst, in_mark_fst in Hx; cbn [fst In] in Hx;
      unfold strength_labels; cbn [In]; intuition.
  - intros x Hx. rewrite in_mark_snd, in_mark_snd in Hx.
    destruct (3 <=? nh); cbn [fst snd] in Hx;
      rewrite in_mark_snd, in_mark_snd in Hx; cbn [snd In] in Hx;
      unfold weakness_labels; cbn [In]; intuition.
Qed.

Lemma in_merchandising (x : string) (good : bool) (m : marks) :
  In x (fst (if good
             then ((fst m ++ ["Good product merchandising"])%list, snd m)
             else m)) <->
  In x (fst m) \/ (good = true /\ "Good product merchandising" = x).
Proof.
  destruct good; cbn [fst snd].
  - rewrite in_app_iff. cbn [In]. intuition.
  - intuition discriminate.
Qed.

Lemma snd_merchandising (good : bool) (m : marks) :
  snd (if good
       then ((fst m ++ ["Good product merchandising"])%list, snd m)
       else m) = snd m.
Proof. destruct good; reflexivity. Qed.

(** The marks by the outcome of the comparisons. *)
Lemma marks_by_comparison (competitor_data : Val.dict) (nc ns nh nf : Z) :
  let pc :=
    count_truthy [Val.get competitor_data "privacy_policy_text";
                  Val.get competitor_data "return_policy_text";
                  Val.get competitor_data "refund_policy_text"] in
  length_of (Val.get_default competitor_data "product_catalog" (PList []))
  = Ok nc ->
  length_of (Val.get_default competitor_data "social_handles" (PDict []))
  = Ok ns ->
  length_of (Val.get_default competitor_data "hero_products" (PList []))
  = Ok nh ->
  length_of (Val.get_default competitor_data "faqs" (PList [])) = Ok nf ->
  exists s w,
    marks_of competitor_data (s, w) /\
    (forall x,
        In x s <->
        ((100 <? nc) = true /\ "Large product catalog" = x) \/
        ((3 <=? ns) = true /\ "Strong social media presence" = x) \/
        ((3 <=? nh) = true /\ "Good product merchandising" = x) \/
        ((5 <=? nf) = true /\ "Comprehensive customer support" = x) \/
        ((3 <=? pc) = true /\ "Comprehensive policy documentation" = x)) /\
    (forall x,
        In x w <->
        ((100 <? nc) = false /\ (nc <? 20) = true /\
         "Limited product range" = x) \/
        ((3 <=? ns) = false /\ (ns <? 2) = true /\
         "Limited social media presence" = x) \/
        ((5 <=? nf) = false /\ (nf <? 2) = true /\
         "Limited customer support information" = x) \/
        ((3 <=? pc) = false /\ (pc <? 2) = true /\
         "Incomplete policy information" = x)).
Proof.
  intros pc Hc Hs Hh Hf.
  unfold marks_of, _analyze_competitor_strengths, and_then.
  rewrite Hc, Hs, Hh, Hf. cbv zeta. fold pc.
  match goal with
  | |- context [map PStr (fst ?M)] => exists (fst M), (snd M)
  end.
  split; [reflexivity|]. split; intros x.
  - rewrite in_mark_fst, in_mark_fst, in_merchandising, in_mark_fst,
      in_mark_fst.
    cbn [fst In]. tauto.
  - rewrite in_mark_snd, in_mark_snd, snd_merchandising, in_mark_snd,
      in_mark_snd.
    cbn [snd In]. tauto.
Qed.

(** X17.  When the four collections of the record have a length, the
    analysis returns, and what it marks follows the thresholds alone: a
    catalog counts as large above 100 products and as limited below 20,
    the social handles as strong from 3 and as limited below 2, the hero
    products as good merchandising from 3, the FAQs as comprehensive from
    5 and as limited below 2, the policies as comprehensive when all
    three texts are there and as incomplete when fewer than two are.  A
    missing collection counts as empty. *)
Theorem strengths_thresholds (competitor_data : Val.dict)
        (nc ns nh nf : Z) :
  let policy_count :=
    count_truthy [Val.get competitor_data "privacy_policy_text";
                  Val.get competitor_data "return_policy_text";
                  Val.get competitor_data "refund_policy_text"] in
  length_of (Val.get_default competitor_data "product_catalog" (PList []))
  = Ok nc ->
  length_of (Val.get_default competitor_data "social_handles" (PDict []))
  = Ok ns ->
  length_of (Val.get_default competitor_data "hero_products" (PList []))
  = Ok nh ->
  length_of (Val.get_default competitor_data "faqs" (PList [])) = Ok nf ->
  exists s w,
    marks_of competitor_data (s, w) /\
    (In "Large product catalog" s <-> 100 < nc) /\
    (In "Limited product range" w <-> nc < 20) /\
    (In "Strong social media presence" s <-> 3 <= ns) /\
    (In "Limited social media presence" w <-> ns < 2) /\
    (In "Good product merchandising" s <-> 3 <= nh) /\
    (In "Comprehensive customer support" s <-> 5 <= nf) /\
    (In "Limited customer support information" w <-> nf < 2) /\
    (In "Comprehensive policy documentation" s <-> 3 <= policy_count) /\
    (In "Incomplete policy information" w <-> policy_count < 2).
Proof.
  intros policy_count Hc Hs Hh Hf.
  destruct (marks_by_comparison competitor_data Hc Hs Hh Hf)
    as (s & w & Hmarks & Hin_s & Hin_w).
  fold policy_count in Hin_s, Hin_w.
  exists s, w. split; [exact Hmarks|].
  repeat split; intros H.
  all: try (apply Hin_s in H; destruct H as [[Hb Hx] | [[Hb Hx] | [[Hb Hx] |
              [[Hb Hx] | [Hb Hx]]]]]; try discriminate Hx;
            first [apply Z.ltb_lt in Hb | apply Z.leb_le in Hb]; exact Hb).
  all: try (apply Hin_w in H; destruct H as [(_ & Hb & Hx) | [(_ & Hb & Hx) |
              [(_ & Hb & Hx) | (_ & Hb & Hx)]]]; try discriminate Hx;
            apply Z.ltb_lt in Hb; exact Hb).
  - apply Hin_s. left. split; [apply Z.ltb_lt; exact H | reflexivity].
  - apply Hin_w. left.
    split; [apply Z.ltb_ge; lia | split; [apply Z.ltb_lt; exact H | reflexivity]].
  - apply Hin_s. right; left.
    split; [apply Z.leb_le; exact H | reflexivity].
  - apply Hin_w. right; left.
    split; [apply Z.leb_gt; lia | split; [apply Z.ltb_lt; exact H | reflexivity]].
  - apply Hin_s. right; right; left.
    split; [apply Z.leb_le; exact H | reflexivity].
  - apply Hin_s. right; right; right; left.
    split; [apply Z.leb_le; exact H | reflexivity].
  - apply Hin_w. right; right; left.
    split; [apply Z.leb_gt; lia | split; [apply Z.ltb_lt; exact H | reflexivity]].
  - apply Hin_s. right; right; right; right.
    split; [apply Z.leb_le; exact H | reflexivity].
  - apply Hin_w. right; right; right.
    split; [apply Z.leb_gt; lia | split; [apply Z.ltb_lt; exact H | reflexivity]].
Qed.

End StrengthsAnalysis.

Section StrengthsScenario.
Import Strengths.

Lemma strengths_thresholds_witness :
  exists s w,
    marks_of [("social_handles",
               PDict [("instagram", PStr "acme"); ("facebook", PStr "acme");
                      ("tiktok", PStr "acme")]);
              ("faqs", PList [PDict []; PDict []])] (s, w) /\
    In "Strong social media presence" s /\
    In "Limited product range" w /\
    ~ In "Limited customer support information" w.
Proof.
  destruct (@strengths_thresholds
              [("social_handles",
                PDict [("instagram", PStr "acme"); ("facebook", PStr "acme");
                       ("tiktok", PStr "acme")]);
               ("faqs", PList [PDict []; PDict []])]
              0 3 0 2 eq_refl eq_refl eq_refl eq_refl)
    as (s & w & Hmarks & _ & Hrange & Hsocial & _ & _ & _ & Hfaq & _).
  exists s, w. split; [exact Hmarks|].
  split; [apply Hsocial; lia|]. split; [apply Hrange; lia|].
  intros Hin. apply Hfaq in Hin. lia.
Defined.

End StrengthsScenario.

(** ** analyze_competitor and analyze_multiple_competitors *)

Section CompetitorOutcome.
Import Site CompetitorAnalyzer Competitors.
Context {lib : Library} {order : SetOrder} {passes : Passes}
        {services : Collaborators}.

Lemma mem_set_same (k : string) (v : pyval) (d : Val.dict) :
  Val.mem k (Val.set k v d) = true.
Proof. unfold Val.mem. rewrite lookup_set_same. reflexivity. Qed.

Lemma process_brand_context_keeps (data : Val.dict) (k : string) :
  k <> "llm_analysis" ->
  Val.get (Llm.process_brand_context data) k = Val.get data k.
Proof.
  intros Hk. unfold Llm.process_brand_context.
  destruct (llm_analysis data); [|reflexivity].
  apply get_set_other. exact Hk.
Qed.

Lemma analyze_competitor_outcome (fuel : nat) (url : string) (w : world) :
  match fst (analyze_competitor fuel url w) with
  | Ok r =>
      (Val.get r "scraping_status" = PStr "failed" /\
       (Val.get r "website_url" = PStr url \/
        Val.get r "website_url" = PStr (qualified url))) \/
      (Val.get r "scraping_status" = PStr "completed" /\
       Val.get r "website_url" = PStr (qualified url) /\
       Val.mem "competitor_analysis" r = true)
  | Raise _ => False
  | OutOfFuel => True
  end.
Proof.
  unfold analyze_competitor, try_except. unfold bind at 1.
  rewrite scrape_store_run.
  destruct (Helpers.extract_domain (qualified url)) as [d | e |].
  - pose proof (scrape_pipeline_shape fuel (qualified url) d w) as Hshape.
    destruct (scrape_pipeline fuel (qualified url) d w) as [[r | e |] w'];
      cbn [fst] in Hshape.
    + destruct Hshape as (Hurl & _ & Hstatus & _).
      rewrite Hstatus. cbn [Val.eq_str String.eqb Ascii.eqb Bool.eqb].
      cbv zeta. unfold bind at 1. unfold lift at 1.
      destruct (_analyze_competitor_strengths (Llm.process_brand_context r))
        as [analysis | e |]; cbn [fst any_exception ret].
      * right.
        rewrite !get_set_other, !process_brand_context_keeps
          by discriminate.
        split; [exact Hstatus|]. split; [exact Hurl | apply mem_set_same].
      * left. split; [reflexivity | left; reflexivity].
      * exact I.
    + cbn. left. split; [reflexivity | right; reflexivity].
    + exact I.
  - cbn. left. split; [reflexivity | left; reflexivity].
  - exact I.
Qed.

(** X18.  [analyze_competitor] never raises: whatever goes wrong in the
    scrape or in the analysis of the strengths comes back as a record
    with the status [failed].  A record with the status [completed]
    carries the qualified URL and the key [competitor_analysis]. *)
Theorem analyze_competitor_never_raises (fuel : nat) (url : string)
        (w : world) :
  match fst (analyze_competitor fuel url w) with
  | Ok r =>
      (Val.get r "scraping_status" = PStr "failed" /\
       (Val.get r "website_url" = PStr url \/
        Val.get r "website_url" = PStr (qualified url))) \/
      (Val.get r "scraping_status" = PStr "completed" /\
       Val.get r "website_url" = PStr (qualified url) /\
       Val.mem "competitor_analysis" r = true)
  | Raise _ => False
  | OutOfFuel => True
  end.
Proof. apply analyze_competitor_outcome. Qed.

Lemma analyze_one_run (fuel : nat) (url : string) (w : world)
      (acc : list pyval) :
  match analyze_one fuel url (w, acc) with
  | (Ok f, (_, results)) =>
      f = Continue /\ exists r, results = (acc ++ [r])%list /\ answers url r
  | (Raise _, _) => False
  | (OutOfFuel, _) => True
  end.
Proof.
  unfold analyze_one, try_except. unfold bind at 1.
  unfold with_locals at 1. cbn [fst snd].
  pose proof (analyze_competitor_outcome fuel url w) as Hout.
  destruct (analyze_competitor fuel url w) as [[r | e |] w'];
    cbn [fst] in Hout; [|destruct Hout | exact I].
  cbn. split; [reflexivity|]. eexists. split; [reflexivity|].
  exists r. split; [reflexivity|].
  destruct Hout as [[_ Hurl] | (_ & Hurl & _)];
    [exact Hurl | right; exact Hurl].
Qed.

Lemma analyze_loop_run (fuel : nat) (urls : list string) :
  forall (w : world) (acc : list pyval),
    match for_each urls (analyze_one fuel) (w, acc) with
    | (Ok _, (_, results)) =>
        exists new, results = (acc ++ new)%list /\ Forall2 answers urls new
    | (Raise _, _) => False
    | (OutOfFuel, _) => True
    end.
Proof.
  induction urls as [|url urls IH]; intros w acc.
  - cbn. exists []. split; [symmetry; apply app_nil_r | constructor].
  - cbn [for_each]. unfold bind at 1.
    pose proof (analyze_one_run fuel url w acc) as Hone.
    destruct (analyze_one fuel url (w, acc)) as [[f | e |] [w1 acc1]];
      [|destruct Hone | exact I].
    destruct Hone as (-> & r & -> & Hr).
    specialize (IH w1 (acc ++ [r])%list).
    destruct (for_each urls (analyze_one fuel) (w1, (acc ++ [r])%list))
      as [[o | e |] [w2 results]]; [|destruct IH | exact I].
    destruct IH as (new & -> & Hnew).
    exists (r :: new). split; [rewrite <- app_assoc; reflexivity|].
    constructor; assumption.
Qed.

(** X19.  [analyze_multiple_competitors] never raises and returns one
    record for each URL, in the order of the URLs: a competitor whose
    analysis fails is kept, with the status [failed], not dropped. *)
Theorem analyze_multiple_competitors_one_each (fuel : nat)
        (urls : list string) (w : world) :
  match fst (analyze_multiple_competitors fuel urls w) with
  | Ok results => Forall2 answers urls results
  | Raise _ => False
  | OutOfFuel => True
  end.
Proof.
  unfold analyze_multiple_competitors.
  pose proof (analyze_loop_run fuel urls w []) as Hloop.
  destruct (for_each urls (analyze_one fuel) (w, []))
    as [[o | e |] [w' results]]; cbn [fst]; [|destruct Hloop | exact I].
  destruct Hloop as (new & -> & Hnew). exact Hnew.
Qed.

End CompetitorOutcome.

(** * Further properties of the orchestrator *)

(** ** _update_brand_from_scraped_data *)

Section UpdateBrand.
Import Models BrandAnalyzer.







End UpdateBrand.

(** ** _save_products: all or nothing *)

Section SaveProductsRollback.
Import Models BrandAnalyzer Invariant Upsert Reanalysis.

Lemma add_products_raise (b : obj) (e : exn) (items : list pyval)
      (n : string -> nat -> http_outcome) (l : list event) (c : tables) :
  map_result (product_attrs b) items = Raise e ->
  forall p,
  exists p',
    for_each items
      (fun product_data =>
         brand <- the_brand ;;
         attrs <- lift (product_attrs brand product_data) ;;
         with_locals (Db.add_product attrs) ;;;
         ret (@Continue unit))
      (World n l (Session c p []), Some b) =
    (Raise e, (World n l (Session c p' []), Some b)).
Proof.
  induction items as [|item items IH]; intros Hrows p; [discriminate Hrows|].
  cbn [map_result] in Hrows. unfold and_then in Hrows.
  cbn [for_each]. unfold bind at 1. unfold bind at 1.
  unfold the_brand at 1. unfold bind at 1. unfold get_local at 1.
  cbn [fst snd]. unfold ret at 1. unfold bind at 1. unfold lift at 1.
  destruct (product_attrs b item) as [attrs | e' |] eqn:Hitem;
    try discriminate Hrows.
  - destruct (map_result (product_attrs b) items) as [al | e' |] eqn:Hrest;
      try discriminate Hrows.
    injection Hrows as ->.
    destruct (IH eq_refl (insert_product attrs p)) as (p' & Hloop).
    exists p'. unfold bind at 1.
    unfold with_locals, Db.add_product, bind, Db.get_db, Db.put_db.
    cbn [fst snd db net log committed pending faults].
    unfold ret at 1. exact Hloop.
  - injection Hrows as ->. exists p. reflexivity.
Qed.

Lemma on_brand_rollback_run (i : Z) (b : obj)
      (n : string -> nat -> http_outcome) (l : list event) (c p : tables) :
  persistent i b ->
  on_brand Db.rollback (World n l (Session c p []), Some b) =
  (Ok tt,
   (World n l (Session c c []),
    Some match find_row i (brands c) with
         | Some r => of_row r
         | None => b
         end)).
Proof.
  intros [Hi _].
  unfold on_brand, the_brand, bind, get_local, ret, with_locals, set_local,
    Db.rollback, Db.get_db, Db.put_db.
  cbn [fst snd db net log committed pending faults]. rewrite Hi.
  reflexivity.
Qed.

(** X21.  [_save_products] stores a catalogue whole or not at all.  When
    one entry cannot be turned into a row (its [images] cannot be
    iterated, or an image is not an object), the method still returns
    normally; the deletion of the old products and the rows added so far
    are rolled back, so the session is back at its committed state and
    the brand keeps the products it had. *)
Theorem save_products_all_or_nothing (i : Z) (b : obj) (catalog : pyval)
        (e : exn) (n : string -> nat -> http_outcome) (l : list event)
        (c p : tables) :
  persistent i b ->
  product_rows b catalog = Raise e ->
  exists b',
    _save_products catalog (World n l (Session c p []), Some b) =
    (Ok tt, (World n l (Session c c []), Some b')) /\
    persistent i b'.
Proof.
  intros Hb Hrows.
  exists match find_row i (brands c) with
         | Some r => of_row r
         | None => b
         end.
  split.
  - unfold _save_products, try_except. unfold bind at 1.
    rewrite on_brand_delete_quiet with (1 := Hb).
    unfold bind at 1. unfold lift at 1.
    unfold product_rows, and_then in Hrows.
    destruct (Catalog.iterate catalog) as [items | e' |];
      try discriminate Hrows.
    + unfold bind at 1.
      destruct (@add_products_raise b e items n l c Hrows
                  (delete_products_of (id_val b) (snd (flush_brand b p))))
        as (p' & ->).
      cbn [any_exception]. apply (on_brand_rollback_run n l c p' Hb).
    + injection Hrows as ->. cbn [any_exception].
      apply (on_brand_rollback_run n l c _ Hb).
  - destruct (find_row i (brands c)) as [r|] eqn:Hr; [|exact Hb].
    apply find_row_id in Hr. subst i. split; reflexivity.
Qed.

Lemma save_products_all_or_nothing_witness :
  exists b',
    _save_products Runs.odd_catalog
      (World (net Runs.down_world) [] (Session Batch.acme_tables
                                               Batch.acme_tables []),
       Some Batch.acme_brand) =
    (Ok tt, (World (net Runs.down_world) []
                   (Session Batch.acme_tables Batch.acme_tables []),
             Some b')) /\
    persistent 1 b'.
Proof.
  apply (@save_products_all_or_nothing 1 Batch.acme_brand Runs.odd_catalog
           (Exn TypeError "'NoneType' object is not iterable")).
  - split; reflexivity.
  - reflexivity.
Defined.

End SaveProductsRollback.

(** ** analyze_brand: the other ways a run goes *)

Section OtherRuns.
Import Models BrandAnalyzer Invariant Upsert Reanalysis Runs.
Context {lib : Library} {order : SetOrder} {passes : Passes}
        {services : Collaborators}.

(** X22.  A URL on which [urlparse] raises never reaches the database or
    the network: [analyze_brand] returns the message of the exception
    under [error], without a [brand_id], and leaves everything as it
    was. *)
Theorem analyze_brand_unparsable_url (fuel : nat) (url : string)
        (flag : bool) (w : world) (e : exn) :
  Helpers.extract_domain url = Raise e ->
  analyze_brand fuel url flag w = (Ok [("error", PStr (str_exn e))], w).
Proof.
  intros He. unfold analyze_brand, try_except, analyze_body.
  unfold bind at 1. rewrite analyze_start_run, He. reflexivity.
Qed.













End OtherRuns.

Section OtherRunsScenario.
Import Models BrandAnalyzer Invariant Upsert Reanalysis Runs.

Lemma analyze_brand_unparsable_url_witness :
  analyze_brand (lib := Shop.plain_library) (order := Homepage.last_first)
    (passes := Homepage.quiet_passes) (services := Batch.quiet_services)
    5 "https://[" true down_world
  = (Ok [("error", PStr "Invalid IPv6 URL")], down_world).
Proof.
  apply (@analyze_brand_unparsable_url Shop.plain_library Homepage.last_first
           Homepage.quiet_passes Batch.quiet_services 5%nat "https://[" true
           down_world (Exn ValueError "Invalid IPv6 URL")).
  reflexivity.
Defined.




End OtherRunsScenario.

(** ** The brand a run commits is the brand the next run finds *)

Section FindAgain.
Import Py Models BrandAnalyzer Invariant Upsert Reanalysis Runs.








End FindAgain.

Section FindAgainScenario.
Import Py Models BrandAnalyzer Invariant Upsert Reanalysis Runs.



End FindAgainScenario.
